(* ===== verification/_CoqProject ===== *)
-Q . S2P
Spec2Rocq.v
PyStr.v
Json.v
Config.v
Decode.v
Store.v
Cache.v
App.v
Notes.v
Contract.v
System.v
Startup.v
Legacy.v
Race.v
Router.v
LegacyApp.v
Api.v
Main.v
Jsonify.v
