(* ===== verification/Spec2Rocq.v ===== *)
(** * A verification library for the docker-practice notes API

    The program (src/docker_practice_app) is a Flask application whose
    request handlers share two external servers:

    - the Store, [app/services/db_service.py]: a PostgreSQL table
      [notes(id SERIAL, content TEXT, author VARCHAR(80), created_at
      TIMESTAMP)] reached through one autocommit connection per call;
    - the Cache, [app/services/cache_service.py]: one Redis key
      ["notes:all"] holding [json.dumps] of the full note list for
      [Config.CACHE_TTL = 15] seconds, plus flush, ping and the server's
      hit/miss counters;
    - the notes routes, [app/routes/notes.py]: the cache-aside read
      [list_notes] (GET the key; on a miss SELECT and SETEX) and the
      writes [create_note] and [delete_note] (write to Postgres, then DEL
      the key);
    - the system routes, [app/routes/system.py] ([/health], [/stats],
      [/cache/flush]), the start-up loop of [main.py] (ten attempts of
      [init_db], then [SystemExit(1)]), and the older single-file
      [docker-practice-app/app/app.py], a health aggregator over
      PostgreSQL, Redis and MySQL;
    - the wiring: [app/config/__init__.py] reads the connection settings
      from the environment when [main.py] imports the application,
      [create_app] in [app/__init__.py] and [register_routes] in
      [app/routes/__init__.py] register the [ui], [notes] and [system]
      blueprints, and Flask routes each request to a view.

    The development, file by file (the order of _CoqProject):

    - [Spec2Rocq] (this file): the prelude.  Python [str] values are
      lists of code points ([pystr]); the exceptions that reach a handler
      are the values of [exn]; code that mutates a server and may raise is
      a state-and-exception function [st S A = S -> S * outcome A] with
      [do x <- c ; k] in [py_scope], its laws in the rewrite database
      [py_run], the hint database [py_db] and the tactics [run_st],
      [case_cmp] and [euclid]; invariants of computations ([st_keeps])
      with their sequence rule, and triples ([triple]).
    - [PyStr]: [str.strip] with CPython's whitespace set, the [or] of
      two strings, as [create_note] uses them, and [str.split] and
      [str.strip] on one character, as Werkzeug splits a path.
    - [Json]: the JSON values, [json.dumps] with its default separators
      and [ensure_ascii=True] (surrogate pairs built with [N.lor],
      [N.shiftl], [N.land]), and [json.loads] as the C scanner parses, a
      recursive descent over mutually recursive functions with fuel.
    - [Config]: [os.getenv], CPython's [int(str)] in its two steps
      (non-ASCII whitespace to a space and Unicode decimal digits to
      ASCII, then [Py_ISSPACE], sign, underscores, the 4300-digit limit)
      and the [Config] class evaluated
      in the order of its body, with the legacy app.py settings; the
      servers each application dials ([get_connection_args],
      [get_client] and their app.py counterparts).
    - [Decode]: [json.loads] on a Python string yields Python strings;
      the JSON grammar without fuel ([gvalue], [gitems], [gmembers]) and
      the fuel that suffices to parse a derivation ([grammar_parse]).
    - [Store]: the table as a [gmap Z note_row], the SERIAL sequence with
      its int4 limit, timestamps as the microseconds since 2000-01-01 that
      Postgres stores with their [created_at::text] rendering, psycopg2's
      parameter checks, and each function of db_service.py in
      [Module db_service] as an [st pg] operation.
    - [Cache]: the Redis server in [Module Redis] (keyspace
      [gmap pystr redis_entry] with millisecond expiry, lazy and active
      expiry, hit/miss counters, TTL rounded to the nearest second) and
      each function of cache_service.py in [Module cache_service].
    - [App]: the world (both servers), focusing an operation on one
      server ([on_pg], [on_redis]), and Flask's turning of an uncaught
      exception into a 500 ([flask_dispatch]).
    - [Notes]: the three handlers of notes.py in [Module notes]; the
      coherence invariant [world_inv] (store well formed, cached key
      expiring within [CACHE_TTL], a live cached value equal to the JSON of
      the current listing).
    - [Contract]: the spec's Cache interface (section 4.2) as the type
      class [CacheOps] with its laws [CacheLaws]; section 4.3's
      cache-aside read [cache_aside_list] written against any instance;
      [cache_service] as the instance [redis_cache_ops].
    - [System]: the handlers of system.py in [Module system].
    - [Startup]: the retry loop of main.py, in a Section whose variable
      [wait] is what the server becomes during a sleep, and [main_py],
      the configuration read at import followed by the loop.
    - [Legacy]: the handlers of the legacy app.py in [Module legacy] and
      the aggregation rule of the spec's HealthAggregator.
    - [Race]: concurrency.  [list_step] runs [list_notes] one service call
      at a time, the Redis GET, the SELECT and the SETEX each a step of
      its own; [sys_step] interleaves such steps of any number of
      requests with whole write requests, expiry and outages; [reachable]
      is the set of states a fresh deployment can reach.
    - [Router]: the blueprints with their route decorators, the URL map
      [create_app] builds ([url_map]), Werkzeug's matching (string, int
      and path converters, the int converter's Unicode [\d+] read by
      [int()], strict-slash 308 redirects, 405, 404,
      automatic [HEAD] and [OPTIONS]) and [app_request], Flask's
      dispatch of a request to its view.  The [ui] blueprint is a Section
      variable: its rules and views are parameters of every theorem.
    - [LegacyApp]: the legacy app.py as an application: its URL map
      ([legacy_rules]), dispatch ([legacy_request]) and [python app.py]
      ([legacy_serve]).
    - [Api]: a type language for JSON bodies ([jty], [has_type]) and the
      statuses and bodies section 6 of the spec lists per route
      ([ep_responses]), written from the spec, not from the code.
    - [Main]: [python main.py] as a whole ([program]): the module body
      (configuration, retry loop, [create_app]) run twice, because
      [app.run(debug=True)] starts Werkzeug's reloader, which re-executes
      the script in the child that serves; then the requests one after
      the other ([serve]).  Stages are composed with the prelude's
      [st_keeps] (an invariant kept whatever the outcome) and [triple]
      (total correctness).
    - [Jsonify]: the text Flask's [jsonify] puts on the wire
      ([DefaultJSONProvider.response]): [json.dumps] with
      [sort_keys=True], indented by two spaces in debug mode (both
      applications run with [debug=True]) or with the compact separators
      otherwise, and a final newline ([enc], [jsonify_text],
      [jsonify_response]); [sort_keys] is an insertion sort on Python's
      string order ([str_ltb]), and [canon] is a value with every object's
      members in key order.

    What the theorems show (claims C1-C35, most important first).
    Correctness of the notes API: cache-aside reads answer the current
    listing whenever the coherence invariant holds, with the reported TTL
    within [0, CACHE_TTL] (C1, C18); read-your-writes after a create or a
    delete (C2, C13); the invariant is kept by every handler, by every
    request the application serves when Redis is reachable, and by the
    whole program from main.py's first line through any sequence of
    requests (C5, C17, C11); with both servers up, every request routed
    to the notes routes, [/stats] or [/cache/flush] is answered with a
    status and body section 6 lists for it, and [/health] is not (C6);
    end to end, a fresh deployment serves the first note it stores
    (C12); on the wire, a [GET /notes] client decodes the current rows,
    newest first, with their members in key order (C10), and every
    well-formed body [jsonify] writes decodes to itself up to the order
    of members (C15, by induction over the decoder's grammar).
    Concurrency: under every interleaving the cache only holds listings
    the store has held (C3, by rule induction on [sys_step]), but the
    cache-fill race serves a note-less list a minute after the note was
    created (C4), and a create whose invalidation fails leaves the cache
    serving the listing without the stored note (C16).  The Cache
    contract: cache_service keeps every law of section 4.2 (C7, a
    refinement) and cache-aside is correct for any cache keeping them
    (C8).  Routing: the dispatch table (C9), the 308 redirect of
    [/notes] (C19), and [DELETE /notes/<x>], which deletes note [int(x)]
    when [x] is a run of Unicode decimal digits and is a 404 otherwise
    (C20).  Configuration: [int()] reads back [str()] under any padding
    it skips (C21), a port variable it refuses stops [main.py] before
    the loop (C22), and the two applications dial the same Redis but, by
    default, different Postgres hosts (C32).  Validation and errors
    (C23-C25, C28, C34); the health route (C26) and the cache flush
    (C27); the store's writes and their limits, the int4 sequence
    included (C29), and its newest-first listing (C30); the zero TTL
    reported in a key's last half second (C35); the JSON round trip of
    the cache (C14); the start-up loop's bound and outcome (C31); the
    legacy health aggregator (C33).  Lemmas that are not claims state
    more: [str.strip] ([PyStr.strip_spec]), the adequacy of the
    decoder's fuel ([Decode.parse_value_fuel_adequate]), the cache round
    trip, expiry and TTL bound ([Cache.set_notes_get_notes],
    [Cache.get_notes_after_ttl], [Cache.get_notes_ttl_bound]), the
    cache's TTL invariant ([Cache.cache_service_keeps_ttl_bounded]),
    [int()] on a run of decimal digits ([Config.py_int_decimal_run]),
    [/stats] ([System.stats_spec]), the agreement of the two [/health]
    routes ([Legacy.health_endpoints_agree]) and the legacy app's
    freedom from server errors ([LegacyApp.legacy_never_fails]).

    Bounds and fuel: [loads s] gives the parser [length s + 1] units of
    fuel.  Every grammar derivation consumes at least one character per
    nested call, so a derivation that leaves [r] is accepted at any fuel
    above [length s - length r] ([Decode.grammar_parse]), so the fuel
    [loads] gives suffices for every text of the grammar.  The text [jsonify] writes is
    derived in the same grammar ([Jsonify.enc_grammar]), so that fuel also
    decodes it (C15).  The start-up loop is
    structural on its ten attempts.  Ids are int4, Redis times are
    milliseconds, timestamps int64 microseconds, all as [Z] with their
    limits written out where the code meets them; [int()] is bounded by
    CPython's 4300-digit limit, which C21 respects, and no proof
    evaluates [10 ^ 4300].

    Not modelled: the [ui] blueprint (app/routes/ui.py is not among the
    sources; its rules are assumed to lie apart from the API's paths),
    Werkzeug's [merge_slashes] and host matching, the response headers
    (Content-Type apart: [jsonify_response] carries the mimetype) and
    those [CORS(app)] adds in the legacy app, the bodies of error pages (an
    error page is its status: with [debug=True] a 500 is the HTML
    traceback page of Werkzeug's debugger, which depends on the frames and
    source lines of the running interpreter), path ids of more
    than 4300 digits (Werkzeug's converter raises a ValueError, a 500;
    the model lets the rule fail to match), floats in request bodies
    ([json.loads] of the model refuses them, so such a body is a 400
    where Flask would accept it), connections below the command level,
    MySQL beyond reachable or not, the prints of main.py and app.py, and
    the reloader's file watching (the model runs the module body twice
    and never restarts).  The cache-fill race is shown for one delay (60
    s); the model allows any, but the proof evaluates the schedule. *)

From Stdlib Require Export ZArith Lia String Ascii.
From stdpp Require Export base list gmap strings sorting.

Open Scope Z_scope.

(** ** Python strings as code points *)

Abbreviation pystr := (list N).

(** An ASCII literal as a Python [str]. *)
Definition lit (s : string) : pystr :=
  map (fun a => N.of_nat (nat_of_ascii a)) (list_ascii_of_string s).

(** ** Python exceptions that reach the handlers *)

Inductive exn :=
  | PgOperationalError (msg : pystr)   (* psycopg2.connect failed *)
  | PgProgrammingError (msg : pystr)   (* e.g. relation does not exist *)
  | PgDataError (msg : pystr)          (* value too long, sequence limit *)
  | PyValueError (msg : pystr)         (* NUL character in a parameter *)
  | PyUnicodeEncodeError               (* lone surrogate sent to UTF-8 *)
  | RedisConnectionError (msg : pystr)
  | RedisResponseError (msg : pystr)
  | PyAttributeError (msg : pystr)
  | JSONDecodeError
  | BadRequest                         (* werkzeug: body is not JSON *)
  | PySystemExit (code : Z)            (* raise SystemExit(code) *)
  | PyIntLiteralError (s : pystr)      (* int(s): invalid literal for int() with base 10 *)
  | PyIntDigitsLimit (digits : Z).     (* int(s): more digits than sys.get_int_max_str_digits() *)

#[export] Instance exn_eq_dec : EqDecision exn.
Proof. solve_decision. Defined.

(** ** Outcomes and the state-and-exception monad *)

Inductive outcome (A : Type) :=
  | Done (a : A)
  | Raised (e : exn).
Arguments Done {A} a.
Arguments Raised {A} e.

Definition st (S A : Type) := S -> S * outcome A.

Definition st_ret {S A} (a : A) : st S A := fun s => (s, Done a).

Definition st_bind {S A B} (c : st S A) (k : A -> st S B) : st S B :=
  fun s => match c s with
           | (s', Done a) => k a s'
           | (s', Raised e) => (s', Raised e)
           end.

Definition st_raise {S A} (e : exn) : st S A := fun s => (s, Raised e).

Definition st_get {S} : st S S := fun s => (s, Done s).

Definition st_put {S} (s' : S) : st S unit := fun _ => (s', Done tt).

(** Run a component's operation on one field of a larger state. *)
Definition st_focus {S T A} (get : S -> T) (set : T -> S -> S)
    (c : st T A) : st S A :=
  fun s => let (t', r) := c (get s) in (set t' s, r).

Declare Scope py_scope.
Delimit Scope py_scope with py.
Notation "'do' x <- c ; k" := (st_bind c (fun x => k))
  (at level 10, x name, c at level 100, k at level 200) : py_scope.
Notation "'do' ' p <- c ; k" := (st_bind c (fun x => match x with p => k end))
  (at level 10, p pattern, c at level 100, k at level 200) : py_scope.
Notation "c ;; k" := (st_bind c (fun _ => k)) : py_scope.
Open Scope py_scope.

(** The final state and the outcome of a run, named as projections. *)
Definition final {S A} (r : S * outcome A) : S := fst r.
Definition result {S A} (r : S * outcome A) : outcome A := snd r.

(** A Python [str] holds code points up to U+10FFFF. *)
Definition py_str (s : pystr) : bool := forallb (fun c => (c <=? 1114111)%N) s.

(** ** Invariants and triples of computations

    [st_keeps I c]: [I] holds after [c] whenever it held before, whatever
    the outcome.  [triple P c Q]: from a state satisfying [P], [c]
    returns normally, and its value and final state satisfy [Q] (total
    correctness: an exception breaks the triple). *)

Definition st_keeps {S A} (I : S -> Prop) (c : st S A) : Prop :=
  forall s, I s -> I (final (c s)).

Definition triple {S A} (P : S -> Prop) (c : st S A) (Q : A -> S -> Prop) : Prop :=
  forall s, P s -> exists a, result (c s) = Done a /\ Q a (final (c s)).

Create Rewrite HintDb py_run.
Create HintDb py_db discriminated.

Lemma st_bind_ret {S A B} (a : A) (k : A -> st S B) s :
  st_bind (st_ret a) k s = k a s.
Proof. reflexivity. Qed.

Lemma st_bind_raise {S A B} e (k : A -> st S B) s :
  st_bind (st_raise e) k s = (s, Raised e).
Proof. reflexivity. Qed.

Lemma st_bind_assoc {S A B C} (c : st S A) (f : A -> st S B) (g : B -> st S C) s :
  st_bind (st_bind c f) g s = st_bind c (fun a => st_bind (f a) g) s.
Proof. unfold st_bind. destruct (c s) as [s' [a|e]]; reflexivity. Qed.

Lemma st_bind_done {S A B} (c : st S A) (k : A -> st S B) s s' a :
  c s = (s', Done a) -> st_bind c k s = k a s'.
Proof. intros H. unfold st_bind. by rewrite H. Qed.

Lemma st_bind_raised {S A B} (c : st S A) (k : A -> st S B) s s' e :
  c s = (s', Raised e) -> st_bind c k s = (s', Raised e).
Proof. intros H. unfold st_bind. by rewrite H. Qed.

#[export] Hint Rewrite @st_bind_ret @st_bind_raise @st_bind_assoc : py_run.

Lemma st_keeps_bind {S A B} (I : S -> Prop) (c : st S A) (k : A -> st S B) :
  st_keeps I c -> (forall a, st_keeps I (k a)) -> st_keeps I (st_bind c k).
Proof.
  intros Hc Hk s Hs. specialize (Hc s Hs). unfold st_bind, final in *.
  destruct (c s) as [s' [a|e]]; [by apply Hk|done].
Qed.

Lemma st_keeps_ret {S A} (I : S -> Prop) (a : A) : st_keeps I (st_ret a).
Proof. by intros s. Qed.

Lemma st_keeps_raise {S A} (I : S -> Prop) e : st_keeps I (@st_raise S A e).
Proof. by intros s. Qed.


(** Unfold the monad and rewrite the binds away. *)
Ltac run_st :=
  repeat (autorewrite with py_run in *; unfold st_focus, st_get, st_put in *;
          simpl in *).


(** ** Generic lemmas on lists and options shared by the components *)

Lemma forallb_app_iff {A} (f : A -> bool) l1 l2 :
  forallb f (l1 ++ l2) = true <-> forallb f l1 = true /\ forallb f l2 = true.
Proof. rewrite forallb_app. apply andb_true_iff. Qed.

Lemma existsb_false_forall {A} (f : A -> bool) l :
  existsb f l = false <-> forall x, In x l -> f x = false.
Proof.
  induction l as [|a l IH]; simpl; [tauto|].
  rewrite orb_false_iff, IH. split.
  - intros [Ha Hl] x [<-|Hx]; auto.
  - auto.
Qed.

#[export] Hint Resolve <- forallb_app_iff : py_db.

(** Case analysis on the boolean comparisons of [N] and [Z] in the goal,
    dropping the branches whose arithmetic hypotheses contradict. *)
Ltac case_cmp :=
  match goal with
  | |- context [N.eqb ?a ?b] => destruct (N.eqb_spec a b); [try subst|]
  | |- context [N.ltb ?a ?b] => destruct (N.ltb_spec a b)
  | |- context [N.leb ?a ?b] => destruct (N.leb_spec a b)
  | |- context [Z.eqb ?a ?b] => destruct (Z.eqb_spec a b); [try subst|]
  | |- context [Z.ltb ?a ?b] => destruct (Z.ltb_spec a b)
  | |- context [Z.leb ?a ?b] => destruct (Z.leb_spec a b)
  end; try (exfalso; lia).

Ltac cmp_simpl := repeat (case_cmp; simpl).

Lemma Sorted_weaken {A} (R R' : relation A) l :
  (forall a b, R a b -> R' a b) -> Sorted R l -> Sorted R' l.
Proof.
  intros H. induction 1 as [|a l Hs IH Hd]; constructor; [done|].
  destruct Hd; constructor; auto.
Qed.


(** Name the quotient and remainder of [x / c] with their Euclidean
    facts, so that [lia] reasons on them as plain variables. *)
Ltac euclid x c q r :=
  pose proof (Z.div_mod x c ltac:(lia)); pose proof (Z.mod_pos_bound x c ltac:(lia));
  remember (x / c)%Z as q; remember (x mod c)%Z as r.
