(* ===== verification/PyStr.v ===== *)
(** * PyStr: the Python [str] operations the handlers use

    [str.isspace] on one code point (CPython's
    [_PyUnicode_IsWhitespace]: the characters of bidirectional class
    WS, B or S and of category Zs), [str.strip] with no argument, and the
    value of [x or y] on strings.  [create_note] (notes.py, lines 34-35)
    trims the content and the author with these. *)

From S2P Require Import Spec2Rocq.

(** ** Definitions *)

(** The code points for which CPython's [str.isspace] holds. *)
Definition py_whitespace : list N :=
  [9; 10; 11; 12; 13; 28; 29; 30; 31; 32; 133; 160; 5760;
   8192; 8193; 8194; 8195; 8196; 8197; 8198; 8199; 8200; 8201; 8202;
   8232; 8233; 8239; 8287; 12288]%N.

Definition isspace (c : N) : bool := existsb (N.eqb c) py_whitespace.

(** [str.lstrip()]: drop the leading whitespace. *)
Fixpoint lstrip (s : pystr) : pystr :=
  match s with
  | [] => []
  | c :: s' => if isspace c then lstrip s' else s
  end.

(** [str.rstrip()]: drop the trailing whitespace. *)
Definition rstrip (s : pystr) : pystr := rev (lstrip (rev s)).

(** [str.strip()]: both ends, as [do_strip] with [BOTHSTRIP]. *)
Definition strip (s : pystr) : pystr := rstrip (lstrip s).

(** [a or b] for two strings: the empty string is falsy. *)
Definition str_or (a b : pystr) : pystr :=
  match a with [] => b | _ => a end.

(** The decimal digits of Unicode (category Nd), as CPython's
    [Py_UNICODE_TODECIMAL] and the [\d] of [re] know them (Unicode 14.0,
    CPython 3.11): 66 runs of ten consecutive code points, each given by
    the code point of its zero. *)
Definition nd_zeros : list N :=
  [48; 1632; 1776; 1984; 2406; 2534; 2662; 2790; 2918; 3046; 3174; 3302; 3430;
   3558; 3664; 3792; 3872; 4160; 4240; 6112; 6160; 6470; 6608; 6784; 6800;
   6992; 7088; 7232; 7248; 42528; 43216; 43264; 43472; 43504; 43600; 44016;
   65296; 66720; 68912; 69734; 69872; 69942; 70096; 70384; 70736; 70864;
   71248; 71360; 71472; 71904; 72016; 72784; 73040; 73120; 92768; 92864;
   93008; 120782; 120792; 120802; 120812; 120822; 123200; 123632; 125264;
   130032]%N.

(** [Py_UNICODE_TODECIMAL]: the value of a decimal digit. *)
Definition py_decimal (c : N) : option N :=
  match List.find (fun z => (z <=? c) && (c <? z + 10))%N nd_zeros with
  | Some z => Some (c - z)%N
  | None => None
  end.

(** All characters are whitespace. *)
Definition all_space (s : pystr) : bool := forallb isspace s.

(** Neither end of [s] is whitespace. *)
Definition trimmed (s : pystr) : bool :=
  match s with
  | [] => true
  | c :: _ => negb (isspace c) && negb (isspace (List.last s c))
  end.

(** [s.split(sep)] for a one-character separator: the pieces between
    the separators, the empty ones included ([''.split('/') == ['']]). *)
Fixpoint split_sep (sep : N) (s : pystr) : list pystr :=
  match s with
  | [] => [[]]
  | c :: t =>
      if (c =? sep)%N then [] :: split_sep sep t
      else match split_sep sep t with
           | x :: xs => (c :: x) :: xs
           | [] => [[c]]
           end
  end.

(** [s.lstrip(ch)] and [s.rstrip(ch)] for a one-character set. *)
Fixpoint lstrip_c (ch : N) (s : pystr) : pystr :=
  match s with
  | [] => []
  | c :: t => if (c =? ch)%N then lstrip_c ch t else s
  end.

Definition rstrip_c (ch : N) (s : pystr) : pystr := rev (lstrip_c ch (rev s)).

(** ** Lemmas *)

Lemma lstrip_split s : exists p, s = p ++ lstrip s /\ all_space p = true.
Proof.
  induction s as [|c s [p [Hp Hsp]]]; simpl.
  - by exists [].
  - destruct (isspace c) eqn:Hc.
    + exists (c :: p). simpl. rewrite Hc, <- Hp. auto.
    + by exists [].
Qed.

Lemma lstrip_head s c s' : lstrip s = c :: s' -> isspace c = false.
Proof.
  induction s as [|d s IH]; simpl; [discriminate|].
  destruct (isspace d) eqn:Hd; [apply IH|]. intros [= -> _]. exact Hd.
Qed.

Lemma lstrip_all_space s : lstrip s = [] <-> all_space s = true.
Proof.
  induction s as [|c s IH]; simpl; [tauto|].
  destruct (isspace c); simpl; [exact IH|]. split; discriminate.
Qed.

Lemma lstrip_app_space p s : all_space p = true -> lstrip (p ++ s) = lstrip s.
Proof.
  induction p as [|c p IH]; simpl; [done|].
  intros [Hc Hp]%andb_true_iff. rewrite Hc. auto.
Qed.

Lemma lstrip_nonspace c s : isspace c = false -> lstrip (c :: s) = c :: s.
Proof. simpl. by intros ->. Qed.

Lemma all_space_rev s : all_space (rev s) = all_space s.
Proof.
  unfold all_space. induction s as [|c s IH]; simpl; [done|].
  rewrite forallb_app, IH. simpl. by rewrite andb_true_r, andb_comm.
Qed.

Lemma rstrip_split s : exists q, s = rstrip s ++ q /\ all_space q = true.
Proof.
  destruct (lstrip_split (rev s)) as [p [Hp Hsp]]. exists (rev p).
  unfold rstrip. rewrite all_space_rev. split; [|done].
  rewrite <- rev_app_distr, <- Hp. by rewrite rev_involutive.
Qed.

Lemma rstrip_last s c : rstrip s <> [] -> isspace (List.last (rstrip s) c) = false.
Proof.
  unfold rstrip. destruct (lstrip (rev s)) as [|d t] eqn:E; [done|].
  intros _. simpl. rewrite List.last_last.
  exact (lstrip_head _ _ _ E).
Qed.

Lemma lstrip_snoc_nonspace l c :
  isspace c = false -> exists u, lstrip (l ++ [c]) = u ++ [c].
Proof.
  intros Hc. induction l as [|d l IH]; simpl.
  - rewrite Hc. by exists [].
  - destruct (isspace d); [exact IH|]. by exists (d :: l).
Qed.

Lemma rstrip_nonspace_head c t :
  isspace c = false -> exists r, rstrip (c :: t) = c :: r.
Proof.
  intros Hc. unfold rstrip. simpl.
  destruct (lstrip_snoc_nonspace (rev t) c Hc) as [u ->].
  rewrite rev_app_distr. simpl. by exists (rev u).
Qed.

Lemma strip_trimmed s : trimmed (strip s) = true.
Proof.
  unfold strip. destruct (lstrip s) as [|c t] eqn:E; [reflexivity|].
  destruct (rstrip_nonspace_head c t (lstrip_head _ _ _ E)) as [r Hr].
  pose proof (rstrip_last (c :: t) c) as HL. rewrite Hr in HL |- *.
  unfold trimmed. rewrite (lstrip_head _ _ _ E), HL by discriminate. reflexivity.
Qed.

(** ** Theorems *)

(** [str.strip] removes exactly a whitespace prefix and a whitespace
    suffix, and what it returns neither starts nor ends with
    whitespace. *)
Theorem strip_spec s :
  exists p q, s = p ++ strip s ++ q /\ all_space p = true /\
              all_space q = true /\ trimmed (strip s) = true.
Proof.
  destruct (lstrip_split s) as [p [Hp Hsp]].
  destruct (rstrip_split (lstrip s)) as [q [Hq Hsq]].
  exists p, q. split_and!; [|exact Hsp|exact Hsq|apply strip_trimmed].
  unfold strip. by rewrite <- Hq.
Qed.

Lemma strip_nil_iff s : strip s = [] <-> all_space s = true.
Proof.
  unfold strip, rstrip. rewrite <- lstrip_all_space.
  destruct (lstrip s) as [|c t] eqn:E; [done|]. split; [|discriminate].
  destruct (rstrip_nonspace_head c t (lstrip_head _ _ _ E)) as [r Hr].
  unfold rstrip in Hr. intros H. rewrite H in Hr. discriminate.
Qed.

Lemma str_or_nonempty a b : b <> [] -> str_or a b <> [].
Proof. destruct a; simpl; [done|discriminate]. Qed.

(** [strip] keeps a property every character has. *)
Lemma strip_forallb (P : N -> bool) s : forallb P s = true -> forallb P (strip s) = true.
Proof.
  destruct (lstrip_split s) as [p [Hp _]]. destruct (rstrip_split (lstrip s)) as [q [Hq _]].
  unfold strip. intros H. rewrite Hp, forallb_app in H. apply andb_true_iff in H as [_ H].
  rewrite Hq, forallb_app in H. by apply andb_true_iff in H as [H _].
Qed.

#[export] Hint Resolve str_or_nonempty : py_db.

(** [strip] gives back a text whose ends are not whitespace from any
    whitespace padding of it. *)
Lemma strip_pad p x q :
  all_space p = true -> all_space q = true -> x <> [] -> trimmed x = true -> strip (p ++ x ++ q) = x.
Proof.
  intros Hp Hq Hx Ht. destruct x as [|c t]; [done|]. unfold trimmed in Ht.
  apply andb_prop in Ht as [Hc Hl]. apply negb_true_iff in Hc, Hl.
  unfold strip. rewrite lstrip_app_space by done. simpl app. rewrite lstrip_nonspace by done.
  change (c :: t ++ q) with ((c :: t) ++ q). unfold rstrip. rewrite rev_app_distr, lstrip_app_space by by rewrite all_space_rev.
  destruct (@exists_last _ (c :: t)) as (u & d & Hud); [done|].
  rewrite Hud in Hl |- *. rewrite List.last_last in Hl. rewrite rev_app_distr. simpl.
  rewrite Hl. simpl. by rewrite rev_involutive.
Qed.

Lemma split_sep_nil sep : split_sep sep [] = [[]].
Proof. reflexivity. Qed.

Lemma split_sep_cons_sep sep t : split_sep sep (sep :: t) = [] :: split_sep sep t.
Proof. simpl. by rewrite N.eqb_refl. Qed.

(** A string without the separator is one piece. *)
Lemma split_sep_none sep s : forallb (fun c => negb (c =? sep)%N) s = true -> split_sep sep s = [s].
Proof.
  induction s as [|c s IH]; simpl; [done|].
  intros [Hc Hs]%andb_prop. apply negb_true_iff in Hc. rewrite Hc, IH; done.
Qed.

(** Splitting [a ++ sep :: b] splits [a] and [b] apart when [a] has no separator. *)
Lemma split_sep_app sep a b :
  forallb (fun c => negb (c =? sep)%N) a = true ->
  split_sep sep (a ++ sep :: b) = a :: split_sep sep b.
Proof.
  induction a as [|c a IH]; simpl; [by rewrite N.eqb_refl|].
  intros [Hc Ha]%andb_prop. apply negb_true_iff in Hc. rewrite Hc, IH; done.
Qed.
