(* ===== verification/Json.v ===== *)
(** * Json: [json.dumps] and [json.loads] on the values the program exchanges

    The cache stores [json.dumps(notes)] (cache_service.py, line 35) and
    reads it back with [json.loads(raw) if raw else None] (line 25); the
    request body of [create_note] is parsed with [json.loads] by Flask's
    [request.get_json] (notes.py, line 33).

    [dumps] follows the encoder of the Python standard library with its
    defaults ([ensure_ascii=True], separators [", "] and [": "]): strings
    are escaped as [py_encode_basestring_ascii] does, astral code points
    as a surrogate pair.  [loads] follows the C scanner
    ([scan_once_unicode], [scanstring_unicode], [_match_number_unicode]):
    whitespace [ \t\n\r], strict strings (a raw control character is an
    error), [\uXXXX] escapes with surrogate pairs joined, dictionaries
    keeping the first position and the last value of a repeated key,
    integers without leading zeros, and "Extra data" after the value.
    Numbers with a fraction or an exponent and the constants NaN and
    Infinity decode to Python floats, which this model does not
    represent: [loads] returns [None] on them, as it does on every
    [JSONDecodeError]. *)

From S2P Require Import Spec2Rocq.

Local Open Scope N_scope.

(** ** JSON values *)

Unset Elimination Schemes.
Inductive json :=
  | JNull
  | JBool (b : bool)
  | JInt (z : Z)
  | JStr (s : pystr)
  | JArr (l : list json)
  | JObj (kvs : list (pystr * json)).
Set Elimination Schemes.

(** Induction with hypotheses on the elements of arrays and objects. *)
Definition json_ind (P : json -> Prop)
    (fnull : P JNull) (fbool : forall b, P (JBool b)) (fint : forall z, P (JInt z))
    (fstr : forall s, P (JStr s))
    (farr : forall l, Forall P l -> P (JArr l))
    (fobj : forall kvs, Forall (fun kv => P (snd kv)) kvs -> P (JObj kvs)) :
    forall v, P v :=
  fix F v :=
    match v with
    | JNull => fnull
    | JBool b => fbool b
    | JInt z => fint z
    | JStr s => fstr s
    | JArr l => farr l ((fix G l : Forall P l :=
                          match l with
                          | [] => List.Forall_nil P
                          | x :: l' => @List.Forall_cons _ P x l' (F x) (G l')
                          end) l)
    | JObj kvs => fobj kvs ((fix G kvs : Forall (fun kv => P (snd kv)) kvs :=
                              match kvs with
                              | [] => List.Forall_nil _
                              | kv :: kvs' => @List.Forall_cons _ (fun kv => P (snd kv)) kv kvs' (F (snd kv)) (G kvs')
                              end) kvs)
    end.

(** ** Encoding: [json.dumps] *)

(** A hexadecimal digit as [format(n, 'x')] writes it. *)
Definition hex_digit (d : N) : N := if d <? 10 then 48 + d else 87 + d.

(** ['\\u{0:04x}'.format(n)] for [n < 0x10000]. *)
Definition u_escape (n : N) : pystr :=
  [92; 117; hex_digit (n / 4096); hex_digit ((n / 256) mod 16);
   hex_digit ((n / 16) mod 16); hex_digit (n mod 16)].

(** The [replace] function of [py_encode_basestring_ascii] on one code
    point: [ESCAPE_DCT], then [\uXXXX], then a surrogate pair. *)
Definition escape_char (c : N) : pystr :=
  if c =? 34 then [92; 34]
  else if c =? 92 then [92; 92]
  else if c =? 8 then [92; 98]
  else if c =? 12 then [92; 102]
  else if c =? 10 then [92; 110]
  else if c =? 13 then [92; 114]
  else if c =? 9 then [92; 116]
  else if (32 <=? c) && (c <=? 126) then [c]
  else if c <? 65536 then u_escape c
  else let n := c - 65536 in
       u_escape (N.lor 55296 (N.land (N.shiftr n 10) 1023)) ++
       u_escape (N.lor 56320 (N.land n 1023)).

(** [py_encode_basestring_ascii]: the quoted, escaped string. *)
Definition encode_str (s : pystr) : pystr := [34] ++ flat_map escape_char s ++ [34].

(** The decimal digits of a non-negative integer, least significant
    first; [fuel] bounds the number of digits. *)
Fixpoint digits_rev (fuel : nat) (n : Z) : pystr :=
  match fuel with
  | O => []
  | S f => if (n <? 10)%Z then [48 + Z.to_N n]
           else (48 + Z.to_N (n mod 10)) :: digits_rev f (n / 10)
  end.

(** [int.__repr__]. *)
Definition int_repr (z : Z) : pystr :=
  let digits n := rev (digits_rev (S (Z.to_nat (Z.log2 n))) n) in
  if (z <? 0)%Z then 45 :: digits (- z)%Z else digits z.

(** [', '.join(items)] and its bracketing. *)
Fixpoint join_sep (items : list pystr) : pystr :=
  match items with
  | [] => []
  | [x] => x
  | x :: xs => x ++ [44; 32] ++ join_sep xs
  end.

(** The literals [null], [true] and [false]. *)
Definition kw_null : pystr := [110; 117; 108; 108].
Definition kw_true : pystr := [116; 114; 117; 101].
Definition kw_false : pystr := [102; 97; 108; 115; 101].

(** [json.dumps(v)] with the default arguments. *)
Fixpoint dumps (v : json) : pystr :=
  match v with
  | JNull => kw_null
  | JBool true => kw_true
  | JBool false => kw_false
  | JInt z => int_repr z
  | JStr s => encode_str s
  | JArr l => [91] ++ join_sep (map dumps l) ++ [93]
  | JObj kvs =>
      [123] ++ join_sep (map (fun kv => encode_str (fst kv) ++ [58; 32] ++ dumps (snd kv)) kvs)
      ++ [125]
  end.

(** ** Decoding: [json.loads] *)

(** The [WHITESPACE] of the decoder: space, tab, newline, return. *)
Definition is_json_ws (c : N) : bool := (c =? 32) || (c =? 9) || (c =? 10) || (c =? 13).

Fixpoint skip_ws (s : pystr) : pystr :=
  match s with
  | c :: t => if is_json_ws c then skip_ws t else s
  | [] => []
  end.

Definition is_digit (c : N) : bool := (48 <=? c) && (c <=? 57).

(** The value of one hexadecimal digit, either case, as the C scanner
    reads [\uXXXX]. *)
Definition hex_val (c : N) : option N :=
  if is_digit c then Some (c - 48)
  else if (97 <=? c) && (c <=? 102) then Some (c - 87)
  else if (65 <=? c) && (c <=? 70) then Some (c - 55)
  else None.

Definition hex4 (a b c d : N) : option N :=
  match hex_val a, hex_val b, hex_val c, hex_val d with
  | Some x1, Some x2, Some x3, Some x4 => Some (((x1 * 16 + x2) * 16 + x3) * 16 + x4)
  | _, _, _, _ => None
  end.

Definition is_high_surrogate (u : N) : bool := (55296 <=? u) && (u <=? 56319).
Definition is_low_surrogate (u : N) : bool := (56320 <=? u) && (u <=? 57343).

(** [Py_UNICODE_JOIN_SURROGATES]. *)
Definition join_surrogates (hi lo : N) : N :=
  65536 + N.lor (N.shiftl (N.land hi 1023) 10) (N.land lo 1023).

(** The one-character escapes after a backslash. *)
Definition simple_escape (e : N) : option N :=
  if e =? 34 then Some 34 else if e =? 92 then Some 92
  else if e =? 47 then Some 47 else if e =? 98 then Some 8
  else if e =? 102 then Some 12 else if e =? 110 then Some 10
  else if e =? 114 then Some 13 else if e =? 116 then Some 9
  else None.

(** [scanstring_unicode] with [strict=True], after the opening quote;
    [acc] holds the decoded characters in reverse.  Returns the string and
    what follows the closing quote.  A high surrogate escape followed by a
    low surrogate escape is joined into one code point; followed by
    anything else it is kept alone. *)
Fixpoint scanstring (s : pystr) (acc : pystr) : option (pystr * pystr) :=
  match s with
  | [] => None
  | c :: t =>
      if c =? 34 then Some (rev acc, t)
      else if c =? 92 then
        match t with
        | [] => None
        | e :: t1 =>
            if e =? 117 then
              match t1 with
              | a :: b :: c' :: d :: t2 =>
                  match hex4 a b c' d with
                  | None => None
                  | Some u =>
                      if is_high_surrogate u then
                        match t2 with
                        | x :: y :: a2 :: b2 :: c2 :: d2 :: t3 =>
                            if (x =? 92) && (y =? 117) then
                              match hex4 a2 b2 c2 d2 with
                              | None => None
                              | Some u2 =>
                                  if is_low_surrogate u2
                                  then scanstring t3 (join_surrogates u u2 :: acc)
                                  else scanstring t2 (u :: acc)
                              end
                            else scanstring t2 (u :: acc)
                        | _ => scanstring t2 (u :: acc)
                        end
                      else scanstring t2 (u :: acc)
                  end
              | _ => None
              end
            else match simple_escape e with
                 | Some ch => scanstring t1 (ch :: acc)
                 | None => None
                 end
        end
      else if c <? 32 then None
      else scanstring t (c :: acc)
  end.

(** The longest run of decimal digits. *)
Fixpoint span_digits (s : pystr) : pystr * pystr :=
  match s with
  | c :: t => if is_digit c then let (ds, r) := span_digits t in (c :: ds, r) else ([], s)
  | [] => ([], [])
  end.

(** [int(digits)]. *)
Fixpoint digits_val (acc : Z) (ds : pystr) : Z :=
  match ds with
  | [] => acc
  | d :: ds' => digits_val (acc * 10 + Z.of_N (d - 48))%Z ds'
  end.

(** The fraction or exponent part of [NUMBER_RE] starts here: the number
    is a float. *)
Definition float_follows (r : pystr) : bool :=
  match r with
  | c :: t =>
      if c =? 46 then match t with d :: _ => is_digit d | [] => false end
      else if (c =? 101) || (c =? 69) then
        match t with
        | sg :: t' =>
            if (sg =? 43) || (sg =? 45)
            then match t' with d :: _ => is_digit d | [] => false end
            else is_digit sg
        | [] => false
        end
      else false
  | [] => false
  end.

(** [_match_number_unicode] on integers: an optional minus, then [0] or a
    non-zero digit and more digits. *)
Definition match_int (neg : bool) (s : pystr) : option (json * pystr) :=
  match s with
  | c :: r =>
      if c =? 48 then (if float_follows r then None else Some (JInt 0, r))
      else if is_digit c then
        let (ds, r') := span_digits s in
        if float_follows r' then None
        else let n := digits_val 0 ds in Some (JInt (if neg then - n else n)%Z, r')
      else None
  | [] => None
  end.

(** [s] starts with [p]: what follows. *)
Fixpoint strip_prefix (p s : pystr) : option pystr :=
  match p, s with
  | [], _ => Some s
  | x :: p', y :: s' => if x =? y then strip_prefix p' s' else None
  | _ :: _, [] => None
  end.

(** The next character is [k]. *)
Definition head_is (k : N) (s : pystr) : bool :=
  match s with c :: _ => c =? k | [] => false end.

(** [dict(pairs)]: a repeated key keeps its first position and takes the
    last value. *)
Fixpoint dict_set (k : pystr) (v : json) (kvs : list (pystr * json)) : list (pystr * json) :=
  match kvs with
  | [] => [(k, v)]
  | (k', v') :: kvs' => if decide (k = k') then (k, v) :: kvs' else (k', v') :: dict_set k v kvs'
  end.

Definition dict_of_pairs (kvs : list (pystr * json)) : list (pystr * json) :=
  fold_left (fun d kv => dict_set (fst kv) (snd kv) d) kvs [].

(** [scan_once_unicode] and the array and object loops of the C scanner.
    Every call consumes fuel; [loads] gives one unit per input character
    and one more. *)
Fixpoint parse_value (fuel : nat) (s : pystr) : option (json * pystr) :=
  match fuel with
  | O => None
  | S f =>
      match s with
      | [] => None
      | c :: t =>
          if c =? 34 then
            match scanstring t [] with
            | Some (str, r) => Some (JStr str, r)
            | None => None
            end
          else if c =? 123 then
            let t' := skip_ws t in
            if head_is 125 t' then Some (JObj [], tail t')
            else match parse_members f t' with
                 | Some (kvs, r) => Some (JObj (dict_of_pairs kvs), r)
                 | None => None
                 end
          else if c =? 91 then
            let t' := skip_ws t in
            if head_is 93 t' then Some (JArr [], tail t')
            else match parse_items f t' with
                 | Some (l, r) => Some (JArr l, r)
                 | None => None
                 end
          else match strip_prefix kw_null s with
          | Some r => Some (JNull, r)
          | None =>
          match strip_prefix kw_true s with
          | Some r => Some (JBool true, r)
          | None =>
          match strip_prefix kw_false s with
          | Some r => Some (JBool false, r)
          | None => if c =? 45 then match_int true t else match_int false s
          end end end
      end
  end
(** The elements of an array, at the first element; ends after [\]]. *)
with parse_items (fuel : nat) (s : pystr) : option (list json * pystr) :=
  match fuel with
  | O => None
  | S f =>
      match parse_value f s with
      | Some (v, r) =>
          match skip_ws r with
          | 44 :: r' => match parse_items f (skip_ws r') with
                        | Some (vs, r'') => Some (v :: vs, r'')
                        | None => None
                        end
          | 93 :: r' => Some ([v], r')
          | _ => None
          end
      | None => None
      end
  end
(** The members of an object, at the first key; ends after [}]. *)
with parse_members (fuel : nat) (s : pystr) : option (list (pystr * json) * pystr) :=
  match fuel with
  | O => None
  | S f =>
      match s with
      | 34 :: t =>
          match scanstring t [] with
          | Some (k, r) =>
              match skip_ws r with
              | 58 :: r1 =>
                  match parse_value f (skip_ws r1) with
                  | Some (v, r2) =>
                      match skip_ws r2 with
                      | 44 :: r3 => match parse_members f (skip_ws r3) with
                                    | Some (kvs, r4) => Some ((k, v) :: kvs, r4)
                                    | None => None
                                    end
                      | 125 :: r3 => Some ([(k, v)], r3)
                      | _ => None
                      end
                  | None => None
                  end
              | _ => None
              end
          | None => None
          end
      | _ => None
      end
  end.

(** [json.loads(s)]: refuse a leading BOM, skip whitespace, decode one
    value, skip whitespace, and refuse anything left ("Extra data"). *)
Definition loads (s : pystr) : option json :=
  if head_is 65279 s then None
  else match parse_value (S (length s)) (skip_ws s) with
       | Some (v, r) => match skip_ws r with [] => Some v | _ => None end
       | None => None
       end.

(** ** Well-formed values *)

(** A Unicode scalar value: what a Python [str] read from UTF-8 holds. *)
Definition scalar (c : N) : bool := (c <? 55296) || ((57343 <? c) && (c <=? 1114111)).

Fixpoint wf_json (v : json) : bool :=
  match v with
  | JStr s => forallb scalar s
  | JArr l => forallb wf_json l
  | JObj kvs =>
      bool_decide (NoDup (map fst kvs)) &&
      forallb (fun kv => forallb scalar (fst kv) && wf_json (snd kv)) kvs
  | _ => true
  end.

(** ** Measures and predicates used by the proofs *)

(** What may follow a value inside a document: a comma, a closing
    bracket or brace, the newline of an indented layout, or the end. *)
Definition ends_value (r : pystr) : bool :=
  match r with [] => true | c :: _ => (c =? 44) || (c =? 93) || (c =? 125) || (c =? 10) end.

(** The fuel a document needs: one unit per value and per element. *)
Fixpoint jsize (v : json) : nat :=
  match v with
  | JArr l => S (list_sum (map (fun x => S (jsize x)) l))
  | JObj kvs => S (list_sum (map (fun kv => S (jsize (snd kv))) kvs))
  | _ => 1%nat
  end.

(** The characters a value can start with. *)
Definition value_start (c : N) : bool :=
  (c =? 110) || (c =? 116) || (c =? 102) || (c =? 45) || (c =? 34) ||
  (c =? 91) || (c =? 123) || is_digit c.

(** A value decodes from its encoding, whatever may follow it. *)
Definition parses_back (v : json) : Prop :=
  wf_json v = true -> forall f rest, (jsize v <= f)%nat -> ends_value rest = true ->
  parse_value f (dumps v ++ rest) = Some (v, rest).

(** One [key: value] member as the object encoder writes it. *)
Definition dump_member (kv : pystr * json) : pystr :=
  encode_str (fst kv) ++ [58; 32] ++ dumps (snd kv).
Arguments dump_member : simpl never.

(** ** Lemmas: strings *)

Lemma hex_val_digit d : d < 16 -> hex_val (hex_digit d) = Some d.
Proof.
  intros Hd. unfold hex_val, hex_digit, is_digit. cmp_simpl; f_equal; lia.
Qed.

Lemma hex4_u_escape c :
  c < 65536 -> forall t, exists a b c' d, u_escape c ++ t = 92 :: 117 :: a :: b :: c' :: d :: t /\
                                   hex4 a b c' d = Some c.
Proof.
  intros Hc t. do 4 eexists. split; [reflexivity|].
  unfold hex4.
  rewrite !hex_val_digit by (first [apply N.mod_lt; lia | apply N.Div0.div_lt_upper_bound; lia]).
  f_equal.
  assert (E1 : c / 16 / 16 = c / 256) by (rewrite N.Div0.div_div; reflexivity).
  assert (E2 : c / 256 / 16 = c / 4096) by (rewrite N.Div0.div_div; reflexivity).
  pose proof (N.div_mod c 16 ltac:(lia)).
  pose proof (N.div_mod (c / 16) 16 ltac:(lia)).
  pose proof (N.div_mod (c / 256) 16 ltac:(lia)).
  rewrite E1 in *. rewrite E2 in *.
  set (q1 := c / 16) in *. set (q2 := c / 256) in *. set (q3 := c / 4096) in *.
  set (r1 := c mod 16) in *. set (r2 := q1 mod 16) in *. set (r3 := q2 mod 16) in *.
  clearbody q1 q2 q3 r1 r2 r3. lia.
Qed.

Lemma lor_low a x k : x < 2 ^ k -> N.lor (a * 2 ^ k) x = a * 2 ^ k + x.
Proof.
  intros Hx.
  assert (Hl : N.land (a * 2 ^ k) x = 0).
  { apply N.bits_inj. intros i. rewrite N.land_spec, N.bits_0, <- N.shiftl_mul_pow2.
    destruct (N.lt_ge_cases i k).
    - by rewrite N.shiftl_spec_low.
    - rewrite <- (N.mod_small x (2 ^ k)) by lia.
      rewrite N.mod_pow2_bits_high by lia. apply andb_false_r. }
  rewrite <- N.lxor_lor by exact Hl. by rewrite <- N.add_nocarry_lxor by exact Hl.
Qed.

Lemma high_surrogate_eq n :
  n < 1048576 -> N.lor 55296 (N.land (N.shiftr n 10) 1023) = 55296 + n / 1024.
Proof.
  intros Hn. change 1023 with (N.ones 10). rewrite N.land_ones, N.shiftr_div_pow2.
  change (2 ^ 10) with 1024.
  rewrite N.mod_small by (apply N.Div0.div_lt_upper_bound; lia).
  change 55296 with (54 * 2 ^ 10). rewrite lor_low by (apply N.Div0.div_lt_upper_bound; lia).
  reflexivity.
Qed.

Lemma low_surrogate_eq n : N.lor 56320 (N.land n 1023) = 56320 + n mod 1024.
Proof.
  change 1023 with (N.ones 10). rewrite N.land_ones. change (2 ^ 10) with 1024.
  change 56320 with (55 * 2 ^ 10). rewrite lor_low by (apply N.mod_lt; lia). reflexivity.
Qed.

Lemma join_surrogates_eq q r :
  q < 1024 -> r < 1024 -> join_surrogates (55296 + q) (56320 + r) = 65536 + (q * 1024 + r).
Proof.
  intros Hq Hr. unfold join_surrogates. change 1023 with (N.ones 10).
  rewrite !N.land_ones, N.shiftl_mul_pow2. change (2 ^ 10) with 1024.
  replace (55296 + q) with (q + 54 * 1024) by lia.
  replace (56320 + r) with (r + 55 * 1024) by lia.
  rewrite !N.Div0.mod_add, !N.mod_small by lia.
  change 1024 with (2 ^ 10). rewrite lor_low by lia. reflexivity.
Qed.

Lemma scalar_iff c : scalar c = true <-> c < 55296 \/ 57343 < c <= 1114111.
Proof. unfold scalar. cmp_simpl; split; intros; (done || lia). Qed.

Lemma is_high_of q : q < 1024 -> is_high_surrogate (55296 + q) = true.
Proof. intros Hq. unfold is_high_surrogate. apply andb_true_iff; split; apply N.leb_le; lia. Qed.

Lemma is_low_of r : r < 1024 -> is_low_surrogate (56320 + r) = true.
Proof. intros Hr. unfold is_low_surrogate. apply andb_true_iff; split; apply N.leb_le; lia. Qed.

Lemma scalar_not_high c : scalar c = true -> is_high_surrogate c = false.
Proof. unfold scalar, is_high_surrogate. cmp_simpl; done. Qed.

(** Decoding the escape of one code point gives it back. *)
Lemma scanstring_escape_char c t acc :
  scalar c = true -> scanstring (escape_char c ++ t) acc = scanstring t (c :: acc).
Proof.
  intros Hc. unfold escape_char.
  destruct (N.eqb_spec c 34) as [->|H34]; [reflexivity|].
  destruct (N.eqb_spec c 92) as [->|H92]; [reflexivity|].
  destruct (N.eqb_spec c 8) as [->|H8]; [reflexivity|].
  destruct (N.eqb_spec c 12) as [->|H12]; [reflexivity|].
  destruct (N.eqb_spec c 10) as [->|H10]; [reflexivity|].
  destruct (N.eqb_spec c 13) as [->|H13]; [reflexivity|].
  destruct (N.eqb_spec c 9) as [->|H9]; [reflexivity|].
  destruct ((32 <=? c) && (c <=? 126)) eqn:Hp.
  { apply andb_true_iff in Hp as [Hp1 Hp2]. apply N.leb_le in Hp1, Hp2.
    simpl. cmp_simpl; reflexivity. }
  destruct (N.ltb_spec c 65536) as [Hlt|Hge].
  - destruct (hex4_u_escape c Hlt t) as (a & b & c' & d & -> & Hh). simpl.
    rewrite Hh, scalar_not_high by exact Hc. reflexivity.
  - apply scalar_iff in Hc.
    assert (Hn : c - 65536 < 1048576) by lia.
    remember (c - 65536) as n eqn:En.
    rewrite high_surrogate_eq, low_surrogate_eq by lia.
    assert (Hq : n / 1024 < 1024) by (apply N.Div0.div_lt_upper_bound; lia).
    assert (Hr : n mod 1024 < 1024) by (apply N.mod_lt; lia).
    rewrite <- app_assoc.
    destruct (hex4_u_escape (56320 + n mod 1024) ltac:(lia) t) as (a2 & b2 & c2 & d2 & -> & Hh2).
    destruct (hex4_u_escape (55296 + n / 1024) ltac:(lia) (92 :: 117 :: a2 :: b2 :: c2 :: d2 :: t))
      as (a & b & c' & d & -> & Hh).
    simpl. rewrite Hh, is_high_of by exact Hq. simpl.
    rewrite Hh2, is_low_of by exact Hr.
    rewrite join_surrogates_eq by assumption. do 2 f_equal.
    pose proof (N.div_mod n 1024 ltac:(lia)). lia.
Qed.

(** Decoding an encoded string gives it back, with what follows it. *)
Lemma scanstring_encode s acc rest :
  forallb scalar s = true ->
  scanstring (flat_map escape_char s ++ 34 :: rest) acc = Some (rev acc ++ s, rest).
Proof.
  revert acc. induction s as [|c s IH]; intros acc Hs; simpl in *.
  - by rewrite app_nil_r.
  - apply andb_true_iff in Hs as [Hc Hs]. rewrite <- app_assoc.
    rewrite scanstring_escape_char by exact Hc. rewrite IH by exact Hs.
    simpl. by rewrite <- app_assoc.
Qed.

(** ** Lemmas: integers *)

Lemma digits_val_snoc a l d :
  digits_val a (l ++ [d]) = (digits_val a l * 10 + Z.of_N (d - 48))%Z.
Proof. revert a. induction l as [|x l IH]; intros a; simpl; auto. Qed.

Lemma digits_rev_digits f n : (0 <= n)%Z -> Forall (fun d => is_digit d = true) (digits_rev f n).
Proof.
  revert n. induction f as [|f IH]; intros n Hn; simpl; [constructor|].
  unfold is_digit. pose proof (Z.mod_pos_bound n 10 ltac:(lia)).
  case_cmp; constructor; try constructor; cmp_simpl; auto.
  - apply IH. apply Z.div_pos; lia.
Qed.

Lemma digits_rev_val f n :
  (0 <= n < 10 ^ Z.of_nat f)%Z -> digits_val 0 (rev (digits_rev f n)) = n.
Proof.
  revert n. induction f as [|f IH]; intros n Hn; simpl.
  - simpl in Hn. lia.
  - rewrite Nat2Z.inj_succ, Z.pow_succ_r in Hn by lia.
    case_cmp; simpl.
    + lia.
    + rewrite digits_val_snoc, IH.
      * pose proof (Z.mod_pos_bound n 10 ltac:(lia)).
        pose proof (Z.div_mod n 10 ltac:(lia)). lia.
      * split; [apply Z.div_pos; lia|]. apply Z.div_lt_upper_bound; lia.
Qed.

Lemma digits_rev_lead f n :
  (1 <= n < 10 ^ Z.of_nat f)%Z ->
  exists d ds, rev (digits_rev f n) = d :: ds /\ d <> 48.
Proof.
  revert n. induction f as [|f IH]; intros n Hn; simpl.
  - simpl in Hn. lia.
  - rewrite Nat2Z.inj_succ, Z.pow_succ_r in Hn by lia.
    case_cmp; simpl.
    + do 2 eexists. split; [reflexivity|]. lia.
    + destruct (IH (n / 10)%Z) as (d & ds & Hds & Hd).
      { split; [apply Z.div_le_lower_bound; lia|]. apply Z.div_lt_upper_bound; lia. }
      rewrite Hds. by exists d, (ds ++ [48 + Z.to_N (n mod 10)]).
Qed.

Lemma log2_fuel n : (0 <= n)%Z -> (n < 10 ^ Z.of_nat (S (Z.to_nat (Z.log2 n))))%Z.
Proof.
  intros Hn. rewrite Nat2Z.inj_succ, Z2Nat.id by apply Z.log2_nonneg.
  destruct (Z.eq_dec n 0%Z) as [->|Hn0]; [reflexivity|].
  destruct (Z.log2_spec n ltac:(lia)) as [_ H].
  eapply Z.lt_le_trans; [exact H|]. apply Z.pow_le_mono_l. lia.
Qed.

Lemma ends_value_cons c r : ends_value (c :: r) = true -> c = 44 \/ c = 93 \/ c = 125 \/ c = 10.
Proof. simpl. cmp_simpl; intros; (discriminate || auto). Qed.

Lemma ends_value_float r : ends_value r = true -> float_follows r = false.
Proof.
  destruct r as [|c r]; [done|]. intros H.
  apply ends_value_cons in H as [-> | [-> | [-> | ->]]]; reflexivity.
Qed.

Lemma span_digits_app ds r :
  Forall (fun d => is_digit d = true) ds -> ends_value r = true ->
  span_digits (ds ++ r) = (ds, r).
Proof.
  intros Hds Hr. induction Hds as [|d ds Hd _ IH]; simpl.
  - destruct r as [|c r]; [done|].
    apply ends_value_cons in Hr as [-> | [-> | [-> | ->]]]; reflexivity.
  - by rewrite Hd, IH.
Qed.

(** The digits of a non-negative integer decode to it. *)
Lemma match_int_digits neg n rest :
  (0 <= n)%Z -> ends_value rest = true ->
  match_int neg (rev (digits_rev (S (Z.to_nat (Z.log2 n))) n) ++ rest) =
  Some (JInt (if neg then - n else n)%Z, rest).
Proof.
  intros Hn Hr. pose proof (log2_fuel n Hn) as Hf.
  set (f := S (Z.to_nat (Z.log2 n))) in *.
  destruct (Z.eq_dec n 0%Z) as [->|Hn0].
  - simpl. rewrite ends_value_float by exact Hr. by destruct neg.
  - destruct (digits_rev_lead f n ltac:(lia)) as (d & ds & Hds & Hd).
    pose proof (digits_rev_val f n ltac:(lia)) as Hv.
    pose proof (digits_rev_digits f n Hn) as Hdig.
    apply List.Forall_rev in Hdig. rewrite Hds in Hdig, Hv |- *.
    inversion Hdig as [|? ? Hd1 Hds1]; subst.
    simpl. rewrite (proj2 (N.eqb_neq d 48) Hd), Hd1.
    rewrite span_digits_app by assumption.
    rewrite ends_value_float by exact Hr. reflexivity.
Qed.

(** ** Lemmas: values *)

Lemma value_start_facts c :
  value_start c = true ->
  is_json_ws c = false /\ c <> 93 /\ c <> 125 /\ c <> 65279.
Proof. unfold value_start, is_digit, is_json_ws. cmp_simpl; intros; (discriminate || lia). Qed.

Lemma int_repr_cases z :
  ((z < 0)%Z /\ int_repr z = 45 :: rev (digits_rev (S (Z.to_nat (Z.log2 (- z)))) (- z))) \/
  ((0 <= z)%Z /\ int_repr z = rev (digits_rev (S (Z.to_nat (Z.log2 z))) z)).
Proof. unfold int_repr. case_cmp; [left|right]; auto. Qed.

Lemma digits_head n :
  (0 <= n)%Z -> exists d ds, rev (digits_rev (S (Z.to_nat (Z.log2 n))) n) = d :: ds /\
                             is_digit d = true.
Proof.
  intros Hn. pose proof (digits_rev_digits (S (Z.to_nat (Z.log2 n))) n Hn) as Hd.
  apply List.Forall_rev in Hd.
  destruct (rev (digits_rev _ n)) as [|d ds] eqn:E.
  - exfalso. apply (f_equal (@length N)) in E. rewrite length_rev in E.
    simpl in E. destruct (_ <? _)%Z; discriminate.
  - inversion Hd; subst. eauto.
Qed.

Lemma digits_rev_length f n k :
  (0 <= n < 10 ^ Z.of_nat k)%Z -> (1 <= k)%nat -> (length (digits_rev f n) <= k)%nat.
Proof.
  revert n k. induction f as [|f IH]; intros n k Hn Hk; simpl; [lia|].
  case_cmp; simpl; [lia|].
  destruct k as [|k]; [lia|]. rewrite Nat2Z.inj_succ, Z.pow_succ_r in Hn by lia.
  destruct k as [|k]; [simpl in Hn; lia|].
  enough (length (digits_rev f (n / 10)) <= S k)%nat by lia. apply IH; [|lia].
  split; [apply Z.div_pos; lia|]. apply Z.div_lt_upper_bound; lia.
Qed.

(** [str(n)] of a non-negative [n]: a non-empty run of digits, read back
    as [n], no longer than any [k] with [n < 10 ^ k]. *)
Lemma int_repr_nonneg n : (0 <= n)%Z ->
  int_repr n <> [] /\ forallb is_digit (int_repr n) = true /\ (digits_val 0 (int_repr n) = n)%Z /\
  forall k, (n < 10 ^ Z.of_nat k)%Z -> (1 <= k)%nat -> (length (int_repr n) <= k)%nat.
Proof.
  intros Hn. destruct (int_repr_cases n) as [[Hz _]|[_ ->]]; [lia|].
  pose proof (digits_rev_digits (S (Z.to_nat (Z.log2 n))) n Hn) as Hd.
  apply List.Forall_rev in Hd.
  destruct (digits_head n Hn) as (d & ds & Hds & _).
  split_and!.
  - by rewrite Hds.
  - apply forallb_forall. intros c Hc. rewrite List.Forall_forall in Hd. by apply Hd.
  - apply digits_rev_val. split; [lia|]. by apply log2_fuel.
  - intros k Hk Hk1. rewrite length_rev. apply digits_rev_length; lia.
Qed.

Lemma dumps_head v : exists c t, dumps v = c :: t /\ value_start c = true.
Proof.
  destruct v as [| [] | z | s | l | kvs]; simpl; try by do 2 eexists.
  destruct (int_repr_cases z) as [[Hz ->]|[Hz ->]]; [by do 2 eexists|].
  destruct (digits_head z Hz) as (d & ds & -> & Hd). exists d, ds. split; [done|].
  unfold value_start. rewrite Hd. by rewrite !orb_true_r.
Qed.

Lemma skip_ws_dumps v r : skip_ws (dumps v ++ r) = dumps v ++ r.
Proof.
  destruct (dumps_head v) as (c & t & -> & Hc). apply value_start_facts in Hc.
  simpl. by rewrite (proj1 Hc).
Qed.

Lemma head_is_dumps k v r : k = 93 \/ k = 125 \/ k = 65279 -> head_is k (dumps v ++ r) = false.
Proof.
  intros Hk. destruct (dumps_head v) as (c & t & -> & Hc). apply value_start_facts in Hc.
  simpl. apply N.eqb_neq. lia.
Qed.

Lemma join_sep_cons a l :
  join_sep (a :: l) = a ++ match l with [] => [] | _ => [44; 32] ++ join_sep l end.
Proof. destruct l; simpl; [by rewrite app_nil_r|done]. Qed.

Lemma parse_value_digit f c t :
  is_digit c = true -> parse_value (S f) (c :: t) = match_int false (c :: t).
Proof.
  unfold is_digit. intros H. apply andb_true_iff in H as [H1 H2].
  apply N.leb_le in H1, H2. cbn -[match_int N.eqb].
  repeat (case_cmp; cbn -[match_int N.eqb]). reflexivity.
Qed.

Lemma parse_value_int f z rest :
  ends_value rest = true -> parse_value (S f) (int_repr z ++ rest) = Some (JInt z, rest).
Proof.
  intros Hr. destruct (int_repr_cases z) as [[Hz ->]|[Hz ->]].
  - change ((45 :: ?l) ++ rest) with (45 :: (l ++ rest)).
    change (parse_value (S f) (45 :: ?t)) with (match_int true t).
    rewrite match_int_digits by (lia || exact Hr). f_equal. f_equal. f_equal. lia.
  - destruct (digits_head z Hz) as (d & ds & Hds & Hd).
    rewrite Hds. change ((d :: ds) ++ rest) with (d :: (ds ++ rest)).
    rewrite parse_value_digit by exact Hd.
    change (d :: ds ++ rest) with ((d :: ds) ++ rest). rewrite <- Hds.
    by rewrite match_int_digits.
Qed.

Lemma skip_ws_join l r :
  l <> [] -> skip_ws (join_sep (map dumps l) ++ r) = join_sep (map dumps l) ++ r.
Proof.
  destruct l as [|y l]; [done|]. intros _. simpl map. rewrite join_sep_cons, <- app_assoc.
  apply skip_ws_dumps.
Qed.

Lemma parse_items_unfold f s :
  parse_items (S f) s =
  match parse_value f s with
  | Some (v, r) =>
      match skip_ws r with
      | 44 :: r' => match parse_items f (skip_ws r') with
                    | Some (vs, r'') => Some (v :: vs, r'')
                    | None => None
                    end
      | 93 :: r' => Some ([v], r')
      | _ => None
      end
  | None => None
  end.
Proof. reflexivity. Qed.

Lemma parse_items_dumps l f rest :
  Forall parses_back l -> forallb wf_json l = true -> l <> [] ->
  (list_sum (map (fun x => S (jsize x)) l) <= f)%nat -> ends_value rest = true ->
  parse_items f (join_sep (map dumps l) ++ 93 :: rest) = Some (l, rest).
Proof.
  intros Hl. revert f. induction Hl as [|x l Hx Hl IH]; intros f Hwf Hne Hf Hr; [done|].
  simpl in Hwf. apply andb_true_iff in Hwf as [Hwx Hwl].
  destruct f as [|f]; [simpl in Hf; lia|]. simpl in Hf. rewrite parse_items_unfold.
  destruct l as [|y l].
  - simpl. rewrite Hx by (done || lia). reflexivity.
  - change (join_sep (map dumps (x :: y :: l)))
      with (dumps x ++ [44; 32] ++ join_sep (map dumps (y :: l))).
    rewrite <- !app_assoc. rewrite Hx by (done || lia).
    cbn [skip_ws is_json_ws orb N.eqb Pos.eqb app].
    rewrite skip_ws_join by done. rewrite IH by (done || lia). reflexivity.
Qed.

Lemma parse_members_unfold f t :
  parse_members (S f) (34 :: t) =
  match scanstring t [] with
  | Some (k, r) =>
      match skip_ws r with
      | 58 :: r1 =>
          match parse_value f (skip_ws r1) with
          | Some (v, r2) =>
              match skip_ws r2 with
              | 44 :: r3 => match parse_members f (skip_ws r3) with
                            | Some (kvs, r4) => Some ((k, v) :: kvs, r4)
                            | None => None
                            end
              | 125 :: r3 => Some ([(k, v)], r3)
              | _ => None
              end
          | None => None
          end
      | _ => None
      end
  | None => None
  end.
Proof. reflexivity. Qed.

Lemma dump_member_app k v X :
  dump_member (k, v) ++ X = 34 :: flat_map escape_char k ++ 34 :: 58 :: 32 :: dumps v ++ X.
Proof. unfold dump_member, encode_str. simpl. by rewrite <- !app_assoc. Qed.

Lemma skip_ws_members kvs r :
  kvs <> [] -> skip_ws (join_sep (map dump_member kvs) ++ r) = join_sep (map dump_member kvs) ++ r.
Proof.
  destruct kvs as [|[k v] kvs]; [done|]. intros _. simpl map.
  rewrite join_sep_cons, <- app_assoc, dump_member_app. reflexivity.
Qed.

Lemma parse_members_dumps kvs f rest :
  Forall (fun kv => parses_back (snd kv)) kvs ->
  forallb (fun kv => forallb scalar (fst kv) && wf_json (snd kv)) kvs = true -> kvs <> [] ->
  (list_sum (map (fun kv => S (jsize (snd kv))) kvs) <= f)%nat -> ends_value rest = true ->
  parse_members f (join_sep (map dump_member kvs) ++ 125 :: rest) = Some (kvs, rest).
Proof.
  intros Hl. revert f. induction Hl as [|[k v] kvs Hv Hl IH]; intros f Hwf Hne Hf Hr; [done|].
  simpl in Hwf, Hv. apply andb_true_iff in Hwf as [Hwk Hwl]. apply andb_true_iff in Hwk as [Hk Hwv].
  destruct f as [|f]; [simpl in Hf; lia|]. simpl in Hf.
  destruct kvs as [|kv' kvs].
  - change (join_sep (map dump_member [(k, v)])) with (dump_member (k, v)).
    rewrite dump_member_app, parse_members_unfold, scanstring_encode by exact Hk.
    cbn [skip_ws is_json_ws orb N.eqb Pos.eqb rev app].
    rewrite skip_ws_dumps, Hv by (done || lia). reflexivity.
  - change (join_sep (map dump_member ((k, v) :: kv' :: kvs))) with
      (dump_member (k, v) ++ [44; 32] ++ join_sep (map dump_member (kv' :: kvs))).
    rewrite <- app_assoc, dump_member_app, parse_members_unfold, scanstring_encode by exact Hk.
    cbn [skip_ws is_json_ws orb N.eqb Pos.eqb rev app].
    rewrite skip_ws_dumps, Hv by (done || lia).
    cbn [skip_ws is_json_ws orb N.eqb Pos.eqb app].
    rewrite skip_ws_members by done. rewrite IH by (done || lia). reflexivity.
Qed.

Lemma dict_set_fresh k v d : k ∉ map fst d -> dict_set k v d = d ++ [(k, v)].
Proof.
  induction d as [|[k' v'] d IH]; simpl; [done|]. intros Hk.
  rewrite decide_False by (intros ->; apply Hk; constructor).
  rewrite IH by (intros Hin; apply Hk; by constructor). reflexivity.
Qed.

Lemma fold_dict_set d kvs :
  NoDup (map fst d ++ map fst kvs) ->
  fold_left (fun d kv => dict_set (fst kv) (snd kv) d) kvs d = d ++ kvs.
Proof.
  revert d. induction kvs as [|[k v] kvs IH]; intros d Hnd; simpl; [by rewrite app_nil_r|].
  rewrite dict_set_fresh.
  - rewrite IH, <- app_assoc; [done|]. rewrite map_app, <- app_assoc. exact Hnd.
  - intros Hin. apply NoDup_app in Hnd as (_ & Hdis & _). apply (Hdis k Hin). left.
Qed.

Lemma dict_of_pairs_nodup kvs : NoDup (map fst kvs) -> dict_of_pairs kvs = kvs.
Proof. intros Hnd. unfold dict_of_pairs. by rewrite fold_dict_set. Qed.

Lemma encode_str_app s X : encode_str s ++ X = 34 :: flat_map escape_char s ++ 34 :: X.
Proof. unfold encode_str. simpl. by rewrite <- app_assoc. Qed.

Lemma head_is_join k l r :
  k = 93 \/ k = 125 -> l <> [] -> head_is k (join_sep (map dumps l) ++ r) = false.
Proof.
  intros Hk. destruct l as [|y l]; [done|]. intros _. simpl map.
  rewrite join_sep_cons, <- app_assoc. apply head_is_dumps. lia.
Qed.

Lemma head_is_members kvs r :
  kvs <> [] -> head_is 125 (join_sep (map dump_member kvs) ++ r) = false.
Proof.
  destruct kvs as [|[k v] kvs]; [done|]. intros _. simpl map.
  rewrite join_sep_cons, <- app_assoc, dump_member_app. reflexivity.
Qed.

Lemma parse_dumps v : parses_back v.
Proof.
  induction v as [| b | z | s | l IH | kvs IH] using json_ind; intros Hwf f rest Hf Hr;
    destruct f as [|f]; try (simpl in Hf; lia).
  - reflexivity.
  - by destruct b.
  - by apply parse_value_int.
  - simpl dumps. rewrite encode_str_app. cbn [parse_value N.eqb Pos.eqb].
    simpl in Hwf. by rewrite scanstring_encode.
  - destruct l as [|x l]; [reflexivity|]. simpl in Hf.
    change (dumps (JArr (x :: l))) with ([91] ++ join_sep (map dumps (x :: l)) ++ [93]).
    repeat rewrite <- app_assoc. cbn [app parse_value N.eqb Pos.eqb].
    rewrite skip_ws_join, head_is_join by (done || lia).
    rewrite parse_items_dumps; [reflexivity|exact IH|exact Hwf|done|simpl; lia|exact Hr].
  - destruct kvs as [|kv kvs]; [reflexivity|]. simpl in Hf.
    simpl in Hwf. apply andb_true_iff in Hwf as [Hnd Hwf]. apply bool_decide_eq_true in Hnd.
    change (dumps (JObj (kv :: kvs)))
      with ([123] ++ join_sep (map dump_member (kv :: kvs)) ++ [125]).
    repeat rewrite <- app_assoc. cbn [app parse_value N.eqb Pos.eqb].
    rewrite skip_ws_members, head_is_members by done.
    rewrite parse_members_dumps; [by rewrite dict_of_pairs_nodup|exact IH|exact Hwf|done|simpl; lia|exact Hr].
Qed.

Lemma list_sum_map_le {A} (g h : A -> nat) l :
  Forall (fun x => (g x <= h x)%nat) l -> (list_sum (map g l) <= list_sum (map h l))%nat.
Proof. induction 1; simpl; lia. Qed.

Lemma join_sep_length ls :
  (list_sum (map (fun s => S (length s)) ls) <= S (length (join_sep ls)))%nat.
Proof.
  induction ls as [|x ls IH]; simpl; [lia|].
  destruct ls as [|y ls]; simpl in *; rewrite ?length_app; simpl; lia.
Qed.

Lemma int_repr_length z : (1 <= length (int_repr z))%nat.
Proof.
  destruct (int_repr_cases z) as [[Hz ->]|[Hz ->]]; [simpl; lia|].
  destruct (digits_head z Hz) as (d & ds & -> & _). simpl. lia.
Qed.

(** The fuel [loads] gives is enough for the documents [dumps] writes. *)
Lemma jsize_le v : (jsize v <= length (dumps v))%nat.
Proof.
  induction v as [| [] | z | s | l IH | kvs IH] using json_ind; try (simpl; lia).
  - apply int_repr_length.
  - simpl. rewrite length_app. simpl.
    enough (list_sum (map (fun x => S (jsize x)) l) <= S (length (join_sep (map dumps l))))%nat
      by lia.
    etransitivity; [|apply join_sep_length]. rewrite map_map.
    apply list_sum_map_le. eapply Forall_impl; [exact IH|]. simpl. lia.
  - change (dumps (JObj kvs)) with ([123] ++ join_sep (map dump_member kvs) ++ [125]).
    rewrite !length_app. cbn [length jsize].
    enough (list_sum (map (fun kv => S (jsize (snd kv))) kvs)
            <= S (length (join_sep (map dump_member kvs))))%nat by lia.
    etransitivity; [|apply join_sep_length]. rewrite map_map.
    apply list_sum_map_le. eapply Forall_impl; [exact IH|]. intros [k v] Hv. simpl in *.
    unfold dump_member. rewrite !length_app. simpl. lia.
Qed.

Lemma loads_dumps_wf v : wf_json v = true -> loads (dumps v) = Some v.
Proof.
  intros Hwf. unfold loads. rewrite <- (app_nil_r (dumps v)).
  rewrite head_is_dumps by lia. rewrite skip_ws_dumps.
  rewrite parse_dumps; [reflexivity|exact Hwf| |reflexivity].
  rewrite length_app. pose proof (jsize_le v). lia.
Qed.

(** ** Theorems *)


(** ** Witnesses *)

