(* ===== verification/Config.v ===== *)
(** * Config: the configuration read from the environment

    [app/config/__init__.py] reads the connection settings when the
    class body of [Config] runs, that is when [main.py] first imports
    the application: [os.getenv(name, default)] for each setting, passed
    through [int()] for the two ports.  [CACHE_TTL] is the constant 15.
    The legacy [app.py] reads its settings the same way at import, with
    [int()] on the MySQL and Redis ports only.

    [int()] on a [str] is CPython's [PyLong_FromUnicodeObject] in base
    10, in its two steps.  [_PyUnicode_TransformDecimalAndSpaceToASCII]
    first keeps every code point below 127, turns any other whitespace
    ([str.isspace]) into a space and any other decimal digit into the
    ASCII digit of its value, and fails on anything else
    ([int_ascii]).  [PyLong_FromString] then skips the ASCII whitespace
    of [Py_ISSPACE] (space and [\t\n\v\f\r], not U+001C-U+001F),
    reads a sign and digits grouped by single underscores, refuses more
    than 4300 digits ([sys.int_info.default_max_str_digits], checked
    before the rest of the text), skips trailing [Py_ISSPACE] and
    requires the end; anything else raises [ValueError]. *)

From S2P Require Import Spec2Rocq PyStr Json.

(** ** The environment and [int()] *)

(** [os.environ]: variable names to values. *)
Definition environ := gmap string pystr.

(** [os.getenv(name, default)] for a string default. *)
Definition getenv (e : environ) (name : string) (default : pystr) : pystr :=
  match e !! name with Some v => v | None => default end.

(** The digits of a number with its underscores removed and the text
    after it, as [PyLong_FromString] scans them from a first digit;
    [None] when an underscore is not followed by a digit. *)
Fixpoint digit_run (s : pystr) : option (pystr * pystr) :=
  match s with
  | [] => Some ([], [])
  | c :: t =>
      if is_digit c then
        match digit_run t with Some (ds, r) => Some (c :: ds, r) | None => None end
      else if (c =? 95)%N then
        match t with d :: _ => if is_digit d then digit_run t else None | [] => None end
      else Some ([], s)
  end.

(** [sys.int_info.default_max_str_digits]. *)
Definition MAX_STR_DIGITS : Z := 4300.

(** [Py_ISSPACE]: the whitespace [PyLong_FromString] skips. *)
Definition c_isspace (c : N) : bool := (c =? 32)%N || ((9 <=? c) && (c <=? 13))%N.

Fixpoint skip_c_space (s : pystr) : pystr :=
  match s with
  | c :: t => if c_isspace c then skip_c_space t else s
  | [] => []
  end.

(** One code point of [_PyUnicode_TransformDecimalAndSpaceToASCII]. *)
Definition int_char (c : N) : option N :=
  if (c <? 127)%N then Some c
  else if isspace c then Some 32%N
  else match py_decimal c with Some d => Some (48 + d)%N | None => None end.

(** The text [PyLong_FromString] reads, or [None] when a code point has
    no ASCII counterpart (the conversion stops at a ['?']). *)
Fixpoint int_ascii (s : pystr) : option pystr :=
  match s with
  | [] => Some []
  | c :: t => match int_char c, int_ascii t with Some a, Some r => Some (a :: r) | _, _ => None end
  end.

(** The code points [int()] skips around a number: [Py_ISSPACE] below
    127, [str.isspace] above. *)
Definition int_space (c : N) : bool := if (c <? 127)%N then c_isspace c else isspace c.

(** [int(s)] for a [str] [s], in base 10. *)
Definition py_int (s : pystr) : outcome Z :=
  match int_ascii s with
  | None => Raised (PyIntLiteralError s)
  | Some a =>
      let t := skip_c_space a in
      let '(neg, body) := match t with
                          | c :: r => if (c =? 45)%N then (true, r) else if (c =? 43)%N then (false, r) else (false, t)
                          | [] => (false, t)
                          end in
      match body with
      | d :: _ =>
          if is_digit d then
            match digit_run body with
            | Some (ds, rest) =>
                if (MAX_STR_DIGITS <? Z.of_nat (length ds))%Z then Raised (PyIntDigitsLimit (Z.of_nat (length ds)))
                else match skip_c_space rest with
                     | [] => Done (if neg then - digits_val 0 ds else digits_val 0 ds)%Z
                     | _ => Raised (PyIntLiteralError s)
                     end
            | None => Raised (PyIntLiteralError s)
            end
          else Raised (PyIntLiteralError s)
      | [] => Raised (PyIntLiteralError s)
      end
  end.

(** [int(os.getenv(name, default))] for an integer default. *)
Definition getenv_int (e : environ) (name : string) (default : Z) : outcome Z :=
  match e !! name with Some v => py_int v | None => Done default end.

(** ** [app.config.Config] *)

Record config := {
  POSTGRES_HOST : pystr;
  POSTGRES_PORT : Z;
  POSTGRES_DB : pystr;
  POSTGRES_USER : pystr;
  POSTGRES_PASSWORD : pystr;
  REDIS_HOST : pystr;
  REDIS_PORT : Z;
  CONFIG_CACHE_TTL : Z
}.

(** The class body, top to bottom: the first failing [int()] raises. *)
Definition load_config (e : environ) : outcome config :=
  match getenv_int e "POSTGRES_PORT" 5432 with
  | Raised x => Raised x
  | Done pg_port =>
      match getenv_int e "REDIS_PORT" 6379 with
      | Raised x => Raised x
      | Done redis_port =>
          Done {| POSTGRES_HOST := getenv e "POSTGRES_HOST" (lit "db");
                  POSTGRES_PORT := pg_port;
                  POSTGRES_DB := getenv e "POSTGRES_DB" (lit "practicedb");
                  POSTGRES_USER := getenv e "POSTGRES_USER" (lit "admin");
                  POSTGRES_PASSWORD := getenv e "POSTGRES_PASSWORD" (lit "secret");
                  REDIS_HOST := getenv e "REDIS_HOST" (lit "redis");
                  REDIS_PORT := redis_port;
                  CONFIG_CACHE_TTL := 15 |}
      end
  end.

(** ** The settings of the legacy [app.py] *)

Record legacy_config := {
  L_POSTGRES_HOST : pystr;
  L_POSTGRES_PORT : pystr;
  L_POSTGRES_DB : pystr;
  L_POSTGRES_USER : pystr;
  L_POSTGRES_PASS : pystr;
  L_MYSQL_HOST : pystr;
  L_MYSQL_PORT : Z;
  L_MYSQL_DB : pystr;
  L_MYSQL_USER : pystr;
  L_MYSQL_PASS : pystr;
  L_REDIS_HOST : pystr;
  L_REDIS_PORT : Z
}.

(** Lines 20-33 of app.py: the Postgres port stays a string. *)
Definition load_legacy_config (e : environ) : outcome legacy_config :=
  match py_int (getenv e "MYSQL_PORT" (lit "3306")) with
  | Raised x => Raised x
  | Done mysql_port =>
      match py_int (getenv e "REDIS_PORT" (lit "6379")) with
      | Raised x => Raised x
      | Done redis_port =>
          Done {| L_POSTGRES_HOST := getenv e "POSTGRES_HOST" (lit "postgres");
                  L_POSTGRES_PORT := getenv e "POSTGRES_PORT" (lit "5432");
                  L_POSTGRES_DB := getenv e "POSTGRES_DB" (lit "practicedb");
                  L_POSTGRES_USER := getenv e "POSTGRES_USER" (lit "admin");
                  L_POSTGRES_PASS := getenv e "POSTGRES_PASSWORD" (lit "secret");
                  L_MYSQL_HOST := getenv e "MYSQL_HOST" (lit "mysql");
                  L_MYSQL_PORT := mysql_port;
                  L_MYSQL_DB := getenv e "MYSQL_DB" (lit "mysql_db");
                  L_MYSQL_USER := getenv e "MYSQL_USER" (lit "sql_user");
                  L_MYSQL_PASS := getenv e "MYSQL_PASSWORD" (lit "Test@123");
                  L_REDIS_HOST := getenv e "REDIS_HOST" (lit "redis");
                  L_REDIS_PORT := redis_port |}
      end
  end.

(** ** The servers each application dials *)

(** The parameters of a PostgreSQL connection as libpq receives them:
    psycopg2 renders every keyword argument with [str()]. *)
Record pg_target := {
  t_host : pystr;
  t_port : pystr;
  t_dbname : pystr;
  t_user : pystr;
  t_password : pystr
}.

(** [db_service.get_connection()], lines 6-16: [psycopg2.connect] with
    [Config]'s settings, the port an [int]. *)
Definition get_connection_args (c : config) : pg_target :=
  {| t_host := POSTGRES_HOST c; t_port := int_repr (POSTGRES_PORT c); t_dbname := POSTGRES_DB c;
     t_user := POSTGRES_USER c; t_password := POSTGRES_PASSWORD c |}.

(** [check_postgres()] of app.py, lines 39-43: the port the [str] read
    from the environment. *)
Definition legacy_pg_args (c : legacy_config) : pg_target :=
  {| t_host := L_POSTGRES_HOST c; t_port := L_POSTGRES_PORT c; t_dbname := L_POSTGRES_DB c;
     t_user := L_POSTGRES_USER c; t_password := L_POSTGRES_PASS c |}.

(** A [redis.Redis] client: host, port and [decode_responses]. *)
Record redis_client := {
  rc_host : pystr;
  rc_port : Z;
  rc_decode_responses : bool
}.

(** [cache_service.get_client()], lines 8-14. *)
Definition get_client (c : config) : redis_client :=
  {| rc_host := REDIS_HOST c; rc_port := REDIS_PORT c; rc_decode_responses := true |}.

(** [check_redis()] of app.py, line 53 ([socket_timeout] only bounds
    the wait). *)
Definition legacy_redis_client (c : legacy_config) : redis_client :=
  {| rc_host := L_REDIS_HOST c; rc_port := L_REDIS_PORT c; rc_decode_responses := false |}.

(** ** Lemmas *)

Lemma digit_bounds d : is_digit d = true -> (48 <= d <= 57)%N.
Proof. unfold is_digit. intros [H1 H2]%andb_prop. apply N.leb_le in H1, H2. lia. Qed.

Lemma c_space_not_digit c : c_isspace c = true -> is_digit c = false /\ (c =? 95)%N = false.
Proof. unfold c_isspace, is_digit. cmp_simpl; intros; split; (done || lia). Qed.

Lemma int_ascii_app a b :
  int_ascii (a ++ b) = match int_ascii a, int_ascii b with Some x, Some y => Some (x ++ y) | _, _ => None end.
Proof.
  induction a as [|c a IH]; simpl; [by destruct (int_ascii b)|].
  rewrite IH. by destruct (int_char c), (int_ascii a), (int_ascii b).
Qed.

(** A text below 127 is read as it is. *)
Lemma int_ascii_low s : forallb (fun c => c <? 127)%N s = true -> int_ascii s = Some s.
Proof.
  induction s as [|c s IH]; simpl; [done|]. intros [Hc Hs]%andb_prop.
  unfold int_char at 1. by rewrite Hc, IH.
Qed.

(** Whitespace [int()] skips becomes whitespace [PyLong_FromString] skips. *)
Lemma int_ascii_space p : forallb int_space p = true -> exists p', int_ascii p = Some p' /\ forallb c_isspace p' = true.
Proof.
  induction p as [|c p IH]; simpl; [by exists []|]. intros [Hc Hp]%andb_prop.
  destruct (IH Hp) as (p' & -> & Hp'). unfold int_space in Hc. unfold int_char.
  destruct (c <? 127)%N; [|rewrite Hc]; eexists; split; [reflexivity| |reflexivity|]; simpl; by rewrite ?Hc, Hp'.
Qed.

Lemma skip_c_space_app p x : forallb c_isspace p = true -> skip_c_space (p ++ x) = skip_c_space x.
Proof. induction p as [|c p IH]; simpl; [done|]. intros [-> Hp]%andb_prop. auto. Qed.

Lemma digit_run_app ds q : forallb is_digit ds = true -> forallb c_isspace q = true -> digit_run (ds ++ q) = Some (ds, q).
Proof.
  intros Hd Hq. induction ds as [|d ds IH]; cbn -[is_digit].
  - destruct q as [|c q]; [done|]. simpl in Hq. apply andb_prop in Hq as [Hc _].
    destruct (c_space_not_digit c Hc) as [Hc1 Hc2]. cbn -[is_digit]. by rewrite Hc1, Hc2.
  - simpl in Hd. apply andb_prop in Hd as [-> Hd]. by rewrite IH.
Qed.

Lemma digits_low ds : forallb is_digit ds = true -> forallb (fun c => c <? 127)%N ds = true.
Proof.
  induction ds as [|d ds IH]; simpl; [done|]. intros [Hd Hds]%andb_prop.
  apply digit_bounds in Hd. rewrite IH by done. case_cmp; done.
Qed.

Lemma digit_run_digits ds : forallb is_digit ds = true -> digit_run ds = Some (ds, []).
Proof.
  induction ds as [|d ds IH]; simpl; [done|]. intros [-> Hds]%andb_prop. by rewrite IH.
Qed.

Lemma int_repr_neg n : (n < 0)%Z -> int_repr n = 45%N :: int_repr (- n).
Proof. intros Hn. unfold int_repr. case_cmp. case_cmp. done. Qed.

(** The limit as a [nat] and a lower bound on the largest integer it
    admits, so that no proof computes [10 ^ 4300]. *)
Lemma max_str_digits_nat : Z.of_nat 4300 = MAX_STR_DIGITS.
Proof. reflexivity. Qed.

Lemma max_str_digits_pow : (10000 <= 10 ^ MAX_STR_DIGITS)%Z.
Proof. change 10000%Z with (10 ^ 4)%Z. apply Z.pow_le_mono_r; unfold MAX_STR_DIGITS; lia. Qed.

(** The digits of [str(m)] for [0 <= m < 10 ^ MAX_STR_DIGITS]. *)
Lemma int_repr_small m : (0 <= m < 10 ^ MAX_STR_DIGITS)%Z ->
  exists d ds, int_repr m = d :: ds /\ is_digit d = true /\ forallb is_digit (d :: ds) = true /\
    digits_val 0 (d :: ds) = m /\ (Z.of_nat (length (d :: ds)) <= MAX_STR_DIGITS)%Z.
Proof.
  intros Hm. destruct (int_repr_nonneg m ltac:(lia)) as (Hne & Hd & Hv & Hl).
  destruct (int_repr m) as [|d ds] eqn:E; [done|]. exists d, ds. split_and!; try done.
  - by apply andb_prop in Hd as [-> _].
  - specialize (Hl 4300%nat). rewrite max_str_digits_nat in Hl.
    specialize (Hl (proj2 Hm) ltac:(lia)). unfold MAX_STR_DIGITS. lia.
Qed.

(** [int()] of a padded signed run of digits. *)
Lemma py_int_pad p q (neg : bool) ds :
  forallb int_space p = true -> forallb int_space q = true -> ds <> [] -> forallb is_digit ds = true ->
  (Z.of_nat (length ds) <= MAX_STR_DIGITS)%Z ->
  py_int (p ++ (if neg then [45%N] else []) ++ ds ++ q) = Done (if neg then - digits_val 0 ds else digits_val 0 ds)%Z.
Proof.
  intros Hp Hq Hne Hd Hl.
  destruct (int_ascii_space p Hp) as (p' & Ep & Hp'). destruct (int_ascii_space q Hq) as (q' & Eq & Hq').
  unfold py_int. rewrite !int_ascii_app, Ep, Eq, (int_ascii_low ds) by (by apply digits_low).
  rewrite (int_ascii_low (if neg then _ else _)) by (by destruct neg). cbv iota.
  rewrite skip_c_space_app by done.
  destruct ds as [|d ds']; [done|]. pose proof Hd as Hd0. simpl in Hd0. apply andb_prop in Hd0 as [Hd0 _].
  pose proof (digit_bounds d Hd0) as Hb.
  assert (Hs : c_isspace d = false /\ (d =? 45)%N = false /\ (d =? 43)%N = false).
  { unfold c_isspace. split_and!; repeat case_cmp; (done || lia). }
  destruct Hs as (Hs & H45 & H43).
  destruct neg; cbn -[digit_run is_digit digits_val]; rewrite ?Hs, ?H45, ?H43, Hd0;
    change (d :: ds' ++ q') with ((d :: ds') ++ q'); rewrite digit_run_app by done;
    (destruct (Z.ltb_spec MAX_STR_DIGITS (Z.of_nat (length (d :: ds')))); [lia|]);
    rewrite <- (app_nil_r q'), skip_c_space_app by done; reflexivity.
Qed.

(** [int(p + str(n) + q)] for whitespace [p] and [q] [int()] skips. *)
Lemma py_int_repr_pad p q n :
  forallb int_space p = true -> forallb int_space q = true -> (- 10 ^ MAX_STR_DIGITS < n < 10 ^ MAX_STR_DIGITS)%Z ->
  py_int (p ++ int_repr n ++ q) = Done n.
Proof.
  intros Hp Hq Hn. destruct (Z.ltb_spec n 0) as [Hneg|Hpos].
  - destruct (int_repr_small (- n) ltac:(lia)) as (d & ds & E & _ & Hds & Hv & Hl).
    rewrite int_repr_neg, E by done.
    pose proof (py_int_pad p q true (d :: ds) Hp Hq ltac:(discriminate) Hds Hl) as H. cbn [app] in H |- *.
    rewrite H. f_equal. lia.
  - destruct (int_repr_small n ltac:(lia)) as (d & ds & E & _ & Hds & Hv & Hl).
    pose proof (py_int_pad p q false (d :: ds) Hp Hq ltac:(discriminate) Hds Hl) as H. cbn [app] in H.
    rewrite E. cbn [app]. by rewrite H, Hv.
Qed.

(** [int()] refuses a run of more than [MAX_STR_DIGITS] digits before
    looking at what follows it. *)
Lemma py_int_digits_limit ds : forallb is_digit ds = true -> (MAX_STR_DIGITS < Z.of_nat (length ds))%Z ->
  py_int ds = Raised (PyIntDigitsLimit (Z.of_nat (length ds))).
Proof.
  intros Hd Hl. destruct ds as [|d ds]; [simpl in Hl; unfold MAX_STR_DIGITS in Hl; lia|].
  unfold py_int. rewrite int_ascii_low by (by apply digits_low). cbv iota.
  pose proof Hd as Hd'. apply andb_prop in Hd' as [Hd0 _]. pose proof (digit_bounds d Hd0) as Hb.
  assert (Hs : c_isspace d = false /\ (d =? 45)%N = false /\ (d =? 43)%N = false).
  { unfold c_isspace. split_and!; repeat case_cmp; (done || lia). }
  destruct Hs as (Hs & H45 & H43). cbn -[digit_run is_digit]. rewrite Hs, H45, H43, Hd0, digit_run_digits by exact Hd.
  destruct (Z.ltb_spec MAX_STR_DIGITS (Z.of_nat (length (d :: ds)))); [done|lia].
Qed.

Lemma py_decimal_some c k :
  py_decimal c = Some k -> exists z, In z nd_zeros /\ (z <= c < z + 10)%N /\ k = (c - z)%N.
Proof.
  unfold py_decimal. destruct (List.find _ nd_zeros) as [z|] eqn:E; [|discriminate].
  intros [= <-]. apply List.find_some in E as [Hin Hz]. apply andb_prop in Hz as [H1 H2].
  apply N.leb_le in H1. apply N.ltb_lt in H2. eauto.
Qed.

(** No decimal digit is whitespace. *)
Lemma space_not_decimal c : isspace c = true -> py_decimal c = None.
Proof.
  unfold isspace. intros (x & Hx & He)%existsb_exists. apply N.eqb_eq in He. subst x.
  simpl in Hx. repeat (destruct Hx as [<-|Hx]; [reflexivity|]). done.
Qed.

(** [int()] sees a decimal digit as the ASCII digit of its value. *)
Lemma int_char_decimal c : is_Some (py_decimal c) -> exists d, int_char c = Some d /\ is_digit d = true.
Proof.
  intros [k Hk]. pose proof (py_decimal_some c k Hk) as (z & Hin & Hz & ->). unfold int_char.
  destruct (N.ltb_spec c 127) as [Hc|Hc].
  - exists c. split; [done|]. unfold is_digit.
    simpl in Hin. repeat (destruct Hin as [<-|Hin]; [try lia|]); [|done].
    apply andb_true_intro; split; apply N.leb_le; lia.
  - destruct (isspace c) eqn:Hs; [by rewrite space_not_decimal in Hk|]. rewrite Hk.
    eexists; split; [reflexivity|]. unfold is_digit. apply andb_true_intro; split; apply N.leb_le; lia.
Qed.

Lemma int_ascii_decimal x : forallb (fun c => bool_decide (is_Some (py_decimal c))) x = true ->
  exists a, int_ascii x = Some a /\ forallb is_digit a = true /\ length a = length x.
Proof.
  induction x as [|c x IH]; simpl; [by exists []|]. intros [Hc Hx]%andb_prop.
  apply bool_decide_eq_true in Hc. destruct (int_char_decimal c Hc) as (d & -> & Hd).
  destruct (IH Hx) as (a & -> & Ha & Hl). exists (d :: a). simpl. by rewrite Hd, Ha, Hl.
Qed.

(** [int()] of a run of at most [MAX_STR_DIGITS] decimal digits succeeds. *)
Lemma py_int_decimal_run x : x <> [] -> forallb (fun c => bool_decide (is_Some (py_decimal c))) x = true ->
  (Z.of_nat (length x) <= MAX_STR_DIGITS)%Z -> exists n, py_int x = Done n.
Proof.
  intros Hne Hx Hl. destruct (int_ascii_decimal x Hx) as (a & Ea & Ha & Hla).
  destruct a as [|d a]; [destruct x; [done|discriminate]|].
  pose proof Ha as Ha'. simpl in Ha'. apply andb_prop in Ha' as [Hd _]. pose proof (digit_bounds d Hd) as Hb.
  assert (Hs : c_isspace d = false /\ (d =? 45)%N = false /\ (d =? 43)%N = false).
  { unfold c_isspace. split_and!; repeat case_cmp; (done || lia). }
  destruct Hs as (Hs & H45 & H43).
  unfold py_int. rewrite Ea. cbn -[digit_run is_digit]. rewrite Hs, H45, H43, Hd, digit_run_digits by exact Ha.
  destruct (Z.ltb_spec MAX_STR_DIGITS (Z.of_nat (length (d :: a)))); [rewrite Hla in *; lia|]. eauto.
Qed.

(** The two applications read [REDIS_PORT] alike: the integer default
    of [Config] and the string default of app.py give the same port. *)
Lemma redis_port_same e : getenv_int e "REDIS_PORT" 6379 = py_int (getenv e "REDIS_PORT" (lit "6379")).
Proof. unfold getenv_int, getenv. by destruct (e !! "REDIS_PORT"). Qed.

Lemma getenv_defaults_differ e n a b : a <> b -> getenv e n a = getenv e n b <-> is_Some (e !! n).
Proof. intros Hab. unfold getenv. destruct (e !! n); split; intros H; done || by destruct H. Qed.

(** ** Theorems *)

(** C21: [int()] reads back what [str()] writes: for every integer of at
    most [MAX_STR_DIGITS] digits and any padding of the whitespace
    [int()] skips ([Py_ISSPACE] below 127, [str.isspace] above, so not
    U+001C-U+001F), [int(p + str(n) + q) == n]. *)
Theorem py_int_roundtrip p q n :
  forallb int_space p = true -> forallb int_space q = true -> (- 10 ^ MAX_STR_DIGITS < n < 10 ^ MAX_STR_DIGITS)%Z ->
  py_int (p ++ int_repr n ++ q) = Done n.
Proof. apply py_int_repr_pad. Qed.

(** C32: which servers the two applications of the repository dial.
    For an environment both accept, the notes API's Redis client and the
    legacy app's probe dial the same host and port; the Postgres
    connections agree exactly when [POSTGRES_HOST] is set (the defaults
    are [db] and [postgres]) and [POSTGRES_PORT] is unset or written as
    [str()] writes its value (the API passes [int(port)], app.py the
    text itself). *)
Theorem apps_dial_servers e c lc :
  load_config e = Done c -> load_legacy_config e = Done lc ->
  rc_host (get_client c) = rc_host (legacy_redis_client lc) /\
  rc_port (get_client c) = rc_port (legacy_redis_client lc) /\
  (get_connection_args c = legacy_pg_args lc <->
   is_Some (e !! "POSTGRES_HOST") /\ getenv e "POSTGRES_PORT" (lit "5432") = int_repr (POSTGRES_PORT c)).
Proof.
  unfold load_config, load_legacy_config. rewrite redis_port_same.
  destruct (getenv_int e "POSTGRES_PORT" 5432) as [pp|x] eqn:Hpp; [|discriminate].
  destruct (py_int (getenv e "REDIS_PORT" (lit "6379"))) as [rp|x]; [|discriminate].
  destruct (py_int (getenv e "MYSQL_PORT" (lit "3306"))) as [mp|x]; [|discriminate].
  intros [= <-] [= <-]. unfold get_connection_args, legacy_pg_args, get_client, legacy_redis_client.
  cbn [rc_host rc_port POSTGRES_HOST POSTGRES_PORT POSTGRES_DB POSTGRES_USER POSTGRES_PASSWORD REDIS_HOST REDIS_PORT
       L_POSTGRES_HOST L_POSTGRES_PORT L_POSTGRES_DB L_POSTGRES_USER L_POSTGRES_PASS L_REDIS_HOST L_REDIS_PORT].
  split_and!; [done|done|].
  rewrite <- (getenv_defaults_differ e "POSTGRES_HOST" (lit "db") (lit "postgres")) by done.
  split; [intros H; injection H as Hh Hp; by split|intros [Hh Hp]; by rewrite Hh, Hp].
Qed.

(** ** Witnesses *)

(** An ideographic space before, a newline after. *)
Lemma py_int_roundtrip_witness : py_int ([12288%N] ++ int_repr (-5432) ++ [10%N]) = Done (-5432).
Proof. apply py_int_roundtrip; [reflexivity|reflexivity|pose proof max_str_digits_pow; lia]. Defined.

(** Only [POSTGRES_HOST] set: both apps dial the same servers. *)
Lemma apps_dial_servers_witness :
  let e : environ := {[ "POSTGRES_HOST" := lit "db" ]} in
  exists c lc, load_config e = Done c /\ load_legacy_config e = Done lc /\
    rc_host (get_client c) = rc_host (legacy_redis_client lc) /\
    rc_port (get_client c) = rc_port (legacy_redis_client lc) /\
    (get_connection_args c = legacy_pg_args lc <->
     is_Some (e !! "POSTGRES_HOST") /\ getenv e "POSTGRES_PORT" (lit "5432") = int_repr (POSTGRES_PORT c)).
Proof.
  intros e. eexists _, _. split; [reflexivity|]. split; [reflexivity|].
  apply apps_dial_servers; reflexivity.
Defined.
