(* ===== verification/Decode.v ===== *)
(** * Decode: [json.loads] on a Python string gives Python strings

    A request body reaches [create_note] as a Python [str], whose code
    points are at most U+10FFFF.  The decoder copies characters of the
    body, decodes [\uXXXX] escapes to values below 65536 and joins a
    surrogate pair to a value at most U+10FFFF, so every string of the
    decoded value (keys included) is again a Python string: the
    precondition of [db_service.insert_note_wf].

    The second half gives [json.loads] a grammar without fuel
    ([gvalue], [gitems], [gmembers]): the decoder at any fuel only
    accepts derivations of it ([parse_grammar]), a derivation is accepted
    at any fuel above the length it consumes ([grammar_parse]), so the
    fuel [S (length s)] of [loads] is never the reason a document is
    refused. *)

From S2P Require Import Spec2Rocq Json.

Local Open Scope N_scope.

(** Every string of a value, keys included, is a Python [str]. *)
Fixpoint py_json (v : json) : bool :=
  match v with
  | JStr s => py_str s
  | JArr l => forallb py_json l
  | JObj kvs => forallb (fun kv => py_str kv.1 && py_json kv.2) kvs
  | _ => true
  end.

(** The scalar literals a value may start with, in the order the decoder tries them. *)
Definition scan_atom (s : pystr) : option (json * pystr) :=
  match s with
  | [] => None
  | c :: t =>
      match strip_prefix kw_null s with
      | Some r => Some (JNull, r)
      | None =>
      match strip_prefix kw_true s with
      | Some r => Some (JBool true, r)
      | None =>
      match strip_prefix kw_false s with
      | Some r => Some (JBool false, r)
      | None => if (c =? 45)%N then match_int true t else match_int false s
      end end end
  end.

(** The JSON grammar the decoder accepts, without fuel: [gvalue s v r]
    holds when a value [v] can be read at the front of [s], leaving [r];
    [gitems] and [gmembers] read the elements of an array and the members
    of an object after the opening bracket, up to the closing one. *)
Inductive gvalue : pystr -> json -> pystr -> Prop :=
| g_str t str r : scanstring t [] = Some (str, r) -> gvalue (34%N :: t) (JStr str) r
| g_obj_empty t : head_is 125 (skip_ws t) = true ->
    gvalue (123%N :: t) (JObj []) (tail (skip_ws t))
| g_obj t kvs r : head_is 125 (skip_ws t) = false -> gmembers (skip_ws t) kvs r ->
    gvalue (123%N :: t) (JObj (dict_of_pairs kvs)) r
| g_arr_empty t : head_is 93 (skip_ws t) = true ->
    gvalue (91%N :: t) (JArr []) (tail (skip_ws t))
| g_arr t l r : head_is 93 (skip_ws t) = false -> gitems (skip_ws t) l r ->
    gvalue (91%N :: t) (JArr l) r
| g_atom c t v r : (c =? 34)%N = false -> (c =? 123)%N = false -> (c =? 91)%N = false ->
    scan_atom (c :: t) = Some (v, r) -> gvalue (c :: t) v r
with gitems : pystr -> list json -> pystr -> Prop :=
| g_items_more s v r r' vs r'' : gvalue s v r -> skip_ws r = 44%N :: r' ->
    gitems (skip_ws r') vs r'' -> gitems s (v :: vs) r''
| g_items_last s v r r' : gvalue s v r -> skip_ws r = 93%N :: r' -> gitems s [v] r'
with gmembers : pystr -> list (pystr * json) -> pystr -> Prop :=
| g_members_more t k r r1 v r2 r3 kvs r4 : scanstring t [] = Some (k, r) ->
    skip_ws r = 58%N :: r1 -> gvalue (skip_ws r1) v r2 -> skip_ws r2 = 44%N :: r3 ->
    gmembers (skip_ws r3) kvs r4 -> gmembers (34%N :: t) ((k, v) :: kvs) r4
| g_members_last t k r r1 v r2 r3 : scanstring t [] = Some (k, r) ->
    skip_ws r = 58%N :: r1 -> gvalue (skip_ws r1) v r2 -> skip_ws r2 = 125%N :: r3 ->
    gmembers (34%N :: t) [(k, v)] r3.

Scheme gvalue_mut := Induction for gvalue Sort Prop
with gitems_mut := Induction for gitems Sort Prop
with gmembers_mut := Induction for gmembers Sort Prop.
Combined Scheme grammar_mut from gvalue_mut, gitems_mut, gmembers_mut.

(** ** Lemmas *)

Lemma skip_ws_length s : (length (skip_ws s) <= length s)%nat.
Proof. induction s as [|c s IH]; simpl; [lia|]. destruct (is_json_ws c); simpl; lia. Qed.

Lemma scanstring_length n : forall s acc str r, (length s <= n)%nat ->
  scanstring s acc = Some (str, r) -> (length r < length s)%nat.
Proof.
  induction n as [|n IH]; intros [|c t] acc str r Hn H; simpl in Hn; try discriminate; try lia.
  cbn [scanstring] in H.
  repeat (case_match; simplify_eq); simpl; try lia;
  match goal with H : scanstring ?t _ = Some _ |- _ => apply IH in H; simpl in *; lia end.
Qed.

Lemma span_digits_length s : (length (span_digits s).2 <= length s)%nat.
Proof.
  induction s as [|c s IH]; simpl; [lia|]. destruct (is_digit c); [destruct (span_digits s) eqn:E; simpl in *; lia|simpl; lia].
Qed.

Lemma match_int_length neg s v r : match_int neg s = Some (v, r) -> (length r < length s)%nat.
Proof.
  unfold match_int. destruct s as [|c t]; [discriminate|].
  pose proof (span_digits_length t) as Hsp. cbn [span_digits].
  case_cmp; [destruct (float_follows t); intros; simplify_eq; simpl; lia|].
  destruct (is_digit c); [|discriminate]. destruct (span_digits t) as [ds r'] eqn:E. simpl in Hsp.
  destruct (float_follows r'); intros; simplify_eq; simpl; lia.
Qed.

Lemma strip_prefix_length p s r : strip_prefix p s = Some r -> (length r + length p = length s)%nat.
Proof.
  revert s. induction p as [|x p IH]; intros [|y s]; simpl; intros H; simplify_eq; auto.
  revert H. case_cmp; [|discriminate]. intros H. apply IH in H. lia.
Qed.


Lemma py_str_cons c s : py_str (c :: s) = (c <=? 1114111) && py_str s.
Proof. reflexivity. Qed.

Lemma py_str_app s1 s2 : py_str (s1 ++ s2) = py_str s1 && py_str s2.
Proof. apply forallb_app. Qed.

Lemma py_str_rev s : py_str (rev s) = py_str s.
Proof. induction s as [|c s IH]; [done|]. simpl. rewrite py_str_app, IH. simpl. by rewrite andb_true_r, andb_comm. Qed.

#[export] Hint Rewrite py_str_cons py_str_app py_str_rev : py_run.

(** Turn a goal or hypotheses on [py_str] of lists of known shape into
    bounds on their characters. *)
Ltac py_norm :=
  autorewrite with py_run in *; rewrite ?andb_true_iff, ?N.leb_le in *; destruct_and?; split_and?.

Lemma skip_ws_py s : py_str s = true -> py_str (skip_ws s) = true.
Proof. induction s as [|c s IH]; [done|]. simpl. intros H. py_norm. destruct (is_json_ws c); [auto|]. by py_norm. Qed.

Lemma tail_py s : py_str s = true -> py_str (tail s) = true.
Proof. destruct s; [done|]. intros H. by py_norm. Qed.

Lemma hex_val_bound c x : hex_val c = Some x -> x < 16.
Proof. unfold hex_val, is_digit. cmp_simpl; intros Hv; simplify_eq; lia. Qed.

Lemma hex4_bound a b c d u : hex4 a b c d = Some u -> u < 65536.
Proof.
  unfold hex4. destruct (hex_val a) eqn:Ha, (hex_val b) eqn:Hb, (hex_val c) eqn:Hc, (hex_val d) eqn:Hd;
    intros H; simplify_eq.
  apply hex_val_bound in Ha, Hb, Hc, Hd. nia.
Qed.

Lemma join_surrogates_bound hi lo : join_surrogates hi lo <= 1114111.
Proof.
  unfold join_surrogates. change 1023 with (N.ones 10).
  rewrite !N.land_ones, N.shiftl_mul_pow2, lor_low by (apply N.mod_lt; lia).
  pose proof (N.mod_lt hi (2 ^ 10) ltac:(lia)). pose proof (N.mod_lt lo (2 ^ 10) ltac:(lia)).
  change (2 ^ 10) with 1024 in *. nia.
Qed.

Lemma simple_escape_bound e ch : simple_escape e = Some ch -> ch < 128.
Proof. unfold simple_escape. cmp_simpl; intros Hv; simplify_eq; lia. Qed.

Lemma scanstring_py n : forall s acc str r, (length s <= n)%nat -> py_str s = true -> py_str acc = true ->
  scanstring s acc = Some (str, r) -> py_str str = true /\ py_str r = true.
Proof.
  induction n as [|n IH]; intros [|c t] acc str r Hn Hs Ha H; simpl in Hn; try discriminate; try lia.
  cbn [scanstring] in H. rewrite py_str_cons, andb_true_iff, N.leb_le in Hs. destruct Hs as [Hc Ht].
  repeat (case_match; simplify_eq); try (split; [by py_norm|done]);
  try match goal with H : scanstring _ _ = Some _ |- _ => apply IH in H; [exact H|..] end;
  repeat match goal with
  | H : hex4 _ _ _ _ = Some _ |- _ => apply hex4_bound in H
  | H : simple_escape _ = Some _ |- _ => apply simple_escape_bound in H
  | |- context [join_surrogates ?a ?b] =>
      lazymatch goal with
      | _ : join_surrogates a b <= _ |- _ => fail
      | _ => pose proof (join_surrogates_bound a b)
      end
  end; simpl in *; try lia; py_norm; split_and?; (done || lia).
Qed.

Lemma span_digits_py s : py_str s = true -> py_str (span_digits s).2 = true.
Proof.
  induction s as [|c s IH]; [done|]. simpl. intros H. py_norm.
  destruct (is_digit c); [destruct (span_digits s) eqn:E; simpl in *; auto|simpl; by py_norm].
Qed.

Lemma match_int_py neg s v r : py_str s = true -> match_int neg s = Some (v, r) -> py_str r = true /\ py_json v = true.
Proof.
  unfold match_int. intros Hs H. destruct s as [|c t]; [discriminate|].
  pose proof (span_digits_py _ Hs) as Hsp. revert H Hsp. cbn [span_digits].
  case_cmp; [destruct (float_follows t); intros; simplify_eq; py_norm; auto|].
  destruct (is_digit c); [|discriminate]. destruct (span_digits t) as [ds r'].
  destruct (float_follows r'); intros; simplify_eq; auto.
Qed.

Lemma strip_prefix_py p s r : py_str s = true -> strip_prefix p s = Some r -> py_str r = true.
Proof.
  revert s. induction p as [|x p IH]; intros [|y s] Hs; simpl; intros H; simplify_eq; auto.
  revert H. case_cmp; [|discriminate]. intros H. py_norm. eauto.
Qed.

Lemma dict_set_py k v d :
  forallb (fun kv => py_str kv.1 && py_json kv.2) d = true -> py_str k && py_json v = true ->
  forallb (fun kv => py_str kv.1 && py_json kv.2) (dict_set k v d) = true.
Proof.
  intros Hd Hkv. induction d as [|[k' v'] d IH]; simpl in *; [by rewrite Hkv|].
  apply andb_true_iff in Hd as [Hkv' Hd]. destruct (decide (k = k')); simpl; rewrite ?Hkv, ?Hkv', ?Hd; auto.
Qed.

Lemma dict_of_pairs_py kvs :
  forallb (fun kv => py_str kv.1 && py_json kv.2) kvs = true ->
  forallb (fun kv => py_str kv.1 && py_json kv.2) (dict_of_pairs kvs) = true.
Proof.
  unfold dict_of_pairs. enough (forall d, forallb (fun kv => py_str kv.1 && py_json kv.2) d = true ->
    forallb (fun kv => py_str kv.1 && py_json kv.2) kvs = true ->
    forallb (fun kv => py_str kv.1 && py_json kv.2)
      (fold_left (fun d kv => dict_set kv.1 kv.2 d) kvs d) = true) as H by (intros; by apply H).
  induction kvs as [|kv kvs IH]; intros d Hd H; simpl in *; [done|].
  apply andb_true_iff in H as [Hkv H]. apply IH; [|done]. by apply dict_set_py.
Qed.

Lemma py_str_tl c t : py_str (c :: t) = true -> py_str t = true.
Proof. rewrite py_str_cons, andb_true_iff. tauto. Qed.

Ltac py_fwd :=
  repeat match goal with
  | H : py_str (_ :: _) = true |- _ => apply py_str_tl in H
  | E : scanstring ?t [] = Some (_, _) |- _ =>
      apply (scanstring_py (length t)) in E; [destruct E|lia|done|done]
  | E : skip_ws ?r = _ |- _ =>
      let P := fresh in pose proof (skip_ws_py r ltac:(done)) as P; rewrite E in P; clear E
  | IH : forall s v r, py_str s = true -> parse_value ?f s = Some (v, r) -> _,
    E : parse_value ?f _ = Some _ |- _ => apply IH in E; [destruct E|first [done|by apply skip_ws_py]]
  | IH : forall s l r, py_str s = true -> parse_items ?f s = Some (l, r) -> _,
    E : parse_items ?f _ = Some _ |- _ => apply IH in E; [destruct E|first [done|by apply skip_ws_py]]
  | IH : forall s l r, py_str s = true -> parse_members ?f s = Some (l, r) -> _,
    E : parse_members ?f _ = Some _ |- _ => apply IH in E; [destruct E|first [done|by apply skip_ws_py]]
  end.

Lemma parse_py f :
  (forall s v r, py_str s = true -> parse_value f s = Some (v, r) -> py_json v = true /\ py_str r = true) /\
  (forall s l r, py_str s = true -> parse_items f s = Some (l, r) -> forallb py_json l = true /\ py_str r = true) /\
  (forall s kvs r, py_str s = true -> parse_members f s = Some (kvs, r) ->
     forallb (fun kv => py_str kv.1 && py_json kv.2) kvs = true /\ py_str r = true).
Proof.
  induction f as [|f (IHv & IHi & IHm)]; [repeat split; discriminate|].
  split_and!.
  - intros [|c t] v r Hs H; [discriminate|]. cbn [parse_value] in H.
    pose proof (py_str_tl _ _ Hs) as Ht. pose proof (skip_ws_py t Ht) as Hw. pose proof (tail_py _ Hw) as Htl.
    repeat (case_match; simplify_eq);
    first [ by split
          | match goal with
            | E : scanstring _ _ = Some _ |- _ => apply (scanstring_py (length t)) in E; auto
            | E : parse_members _ _ = Some _ |- _ =>
                apply IHm in E as [? ?]; [split; [by apply dict_of_pairs_py|done]|done]
            | E : parse_items _ _ = Some _ |- _ => apply IHi in E; auto
            | E : strip_prefix _ _ = Some _ |- _ => split; [done|exact (strip_prefix_py _ _ _ Hs E)]
            | E : match_int _ _ = Some _ |- _ => apply match_int_py in E as [? ?]; auto
            end ].
  - intros s l r Hs H. cbn [parse_items] in H. repeat (case_match; simplify_eq); py_fwd;
    simpl; rewrite ?andb_true_iff; split_and?; done.
  - intros s kvs r Hs H. cbn [parse_members] in H. repeat (case_match; simplify_eq); py_fwd;
    simpl; rewrite ?andb_true_iff; split_and?; done.
Qed.

(** A Python string given to [json.loads] decodes to a value whose
    strings are all Python strings. *)
Lemma loads_py s v : py_str s = true -> loads s = Some v -> py_json v = true.
Proof.
  unfold loads. intros Hs. destruct (head_is 65279 s); [discriminate|].
  destruct (parse_value _ (skip_ws s)) as [[v' r]|] eqn:E; [|discriminate].
  apply parse_py in E as [Hv _]; [|by apply skip_ws_py]. by destruct (skip_ws r); intros [= <-].
Qed.

(** ** The decoder and the grammar *)

Lemma head_is_tail k s : head_is k s = true -> (length (tail s) < length s)%nat.
Proof. destruct s; simpl; [discriminate|lia]. Qed.

Lemma scan_atom_length s v r : scan_atom s = Some (v, r) -> (length r < length s)%nat.
Proof.
  destruct s as [|c t]; [discriminate|]. cbn [scan_atom].
  repeat case_match; intros; simplify_eq;
    repeat match goal with
    | E : strip_prefix _ _ = Some _ |- _ => apply strip_prefix_length in E; simpl in E
    | E : match_int _ _ = Some _ |- _ => apply match_int_length in E; simpl in E
    end; simpl; lia.
Qed.

Lemma grammar_consumes :
  (forall s v r, gvalue s v r -> (length r < length s)%nat) /\
  (forall s l r, gitems s l r -> (length r < length s)%nat) /\
  (forall s kvs r, gmembers s kvs r -> (length r < length s)%nat).
Proof.
  apply grammar_mut; intros;
    repeat match goal with
    | E : scanstring ?t _ = Some (_, _) |- _ => apply (scanstring_length (length t)) in E; [|lia]
    | E : scan_atom _ = Some _ |- _ => apply scan_atom_length in E
    | E : head_is _ _ = true |- _ => apply head_is_tail in E
    | E : skip_ws ?x = _ |- _ =>
        let P := fresh in pose proof (skip_ws_length x) as P; rewrite E in P; simpl in P; clear E
    | |- context [skip_ws ?x] =>
        lazymatch goal with
        | _ : (length (skip_ws x) <= length x)%nat |- _ => fail
        | _ => pose proof (skip_ws_length x)
        end
    | H : context [skip_ws ?x] |- _ =>
        lazymatch goal with
        | _ : (length (skip_ws x) <= length x)%nat |- _ => fail
        | _ => pose proof (skip_ws_length x)
        end
    end; simpl in *; lia.
Qed.

Lemma parse_grammar f :
  (forall s v r, parse_value f s = Some (v, r) -> gvalue s v r) /\
  (forall s l r, parse_items f s = Some (l, r) -> gitems s l r) /\
  (forall s kvs r, parse_members f s = Some (kvs, r) -> gmembers s kvs r).
Proof.
  induction f as [|f (IHv & IHi & IHm)]; [repeat split; discriminate|].
  split_and!.
  - intros [|c t] v r H; [discriminate|]. cbn [parse_value] in H.
    destruct (c =? 34)%N eqn:E34; [apply N.eqb_eq in E34; subst; repeat (case_match; simplify_eq); by constructor|].
    destruct (c =? 123)%N eqn:E123; [apply N.eqb_eq in E123; subst|].
    { case_match; simplify_eq; [by constructor|]. repeat (case_match; simplify_eq). eauto using gvalue. }
    destruct (c =? 91)%N eqn:E91; [apply N.eqb_eq in E91; subst|].
    { case_match; simplify_eq; [by constructor|]. repeat (case_match; simplify_eq). eauto using gvalue. }
    by apply g_atom.
  - intros s l r H. cbn [parse_items] in H. repeat (case_match; simplify_eq); eauto using gitems.
  - intros s kvs r H. cbn [parse_members] in H. repeat (case_match; simplify_eq); eauto using gmembers.
Qed.

Ltac grammar_lengths :=
  repeat match goal with
  | H : gvalue ?s ?v ?r |- _ =>
      lazymatch goal with _ : (length r < length s)%nat |- _ => fail | _ => pose proof (proj1 grammar_consumes _ _ _ H) end
  | H : gitems ?s ?v ?r |- _ =>
      lazymatch goal with _ : (length r < length s)%nat |- _ => fail | _ => pose proof (proj1 (proj2 grammar_consumes) _ _ _ H) end
  | H : gmembers ?s ?v ?r |- _ =>
      lazymatch goal with _ : (length r < length s)%nat |- _ => fail | _ => pose proof (proj2 (proj2 grammar_consumes) _ _ _ H) end
  | E : scanstring ?t _ = Some (_, ?r) |- _ =>
      lazymatch goal with
      | _ : (length r < length t)%nat |- _ => fail
      | _ => pose proof (scanstring_length (length t) _ _ _ _ (le_n _) E)
      end
  | E : skip_ws ?x = _ :: _ |- _ =>
      lazymatch goal with
      | _ : length (skip_ws x) = _ |- _ => fail
      | _ => pose proof (f_equal (@length N) E); simpl in *
      end
  | H : context [skip_ws ?x] |- _ =>
      lazymatch goal with
      | _ : (length (skip_ws x) <= length x)%nat |- _ => fail
      | _ => pose proof (skip_ws_length x)
      end
  end.

Lemma grammar_parse :
  (forall s v r, gvalue s v r -> forall f, (length s - length r < f)%nat -> parse_value f s = Some (v, r)) /\
  (forall s l r, gitems s l r -> forall f, (length s - length r < f)%nat -> parse_items f s = Some (l, r)) /\
  (forall s kvs r, gmembers s kvs r -> forall f, (length s - length r < f)%nat -> parse_members f s = Some (kvs, r)).
Proof.
  apply grammar_mut; intros; (destruct f as [|f]; [lia|]); cbn [parse_value parse_items parse_members];
    grammar_lengths;
    repeat (match goal with
    | E : _ = true |- _ => rewrite E
    | E : _ = false |- _ => rewrite E
    | E : scanstring _ _ = Some _ |- _ => rewrite E
    | E : skip_ws _ = _ |- _ => rewrite E
    | IH : forall f, _ -> ?p f ?a = Some ?x |- context [?p ?f ?a] => rewrite (IH f); [|simpl in *; lia]
    end; simpl); done.
Qed.

(** ** Fuel *)

(** [loads] is the decoder with unbounded fuel: for every fuel [f]
    larger than the length of the text, [parse_value f s] returns what the
    fuel [S (length s)] of [loads] returns, so the fuel never turns a
    document Python accepts into a decode error. *)
Theorem parse_value_fuel_adequate f s :
  (length s < f)%nat -> parse_value f s = parse_value (S (length s)) s.
Proof.
  intros Hf.
  destruct (parse_value f s) as [[v r]|] eqn:E1.
  - apply (proj1 (parse_grammar f)) in E1. symmetry. apply (proj1 grammar_parse _ _ _ E1). lia.
  - destruct (parse_value (S (length s)) s) as [[v r]|] eqn:E2; [|done].
    apply (proj1 (parse_grammar _)) in E2.
    rewrite (proj1 grammar_parse _ _ _ E2 f) in E1; [discriminate|lia].
Qed.

(** ** Witnesses *)

Lemma parse_value_fuel_adequate_witness :
  parse_value 9 [91; 49; 93] = parse_value 4 [91; 49; 93] /\
  parse_value 4 [91; 49; 93] = Some (JArr [JInt 1%Z], []).
Proof.
  split; [apply (parse_value_fuel_adequate 9 [91; 49; 93]); simpl; lia | reflexivity].
Defined.
