(* ===== verification/Store.v ===== *)
(** * Store: the PostgreSQL notes table behind db_service.py

    The table [notes(id SERIAL PRIMARY KEY, content TEXT NOT NULL,
    author VARCHAR(80) NOT NULL DEFAULT 'Anonymous', created_at TIMESTAMP
    NOT NULL DEFAULT NOW())] of [init_db] is a [gmap Z note_row] keyed by
    the primary key; [None] before [CREATE TABLE] has run.  The SERIAL
    column draws from [notes_id_seq], an int4 sequence whose last value
    is [pg_seq].  A timestamp is what Postgres stores, the number of
    microseconds since 2000-01-01 00:00:00, and [created_at::text]
    renders it as [timestamp_out] does.

    Each function of [app/services/db_service.py] is an [st pg]
    operation in [Module db_service]: [get_connection] raises
    [OperationalError] when the server is down, a statement on a missing
    table raises [ProgrammingError], and [insert_note] raises what
    psycopg2 and the server raise on its parameters (NUL characters, lone
    surrogates, an author longer than 80 characters, an exhausted
    sequence).  The order of [ORDER BY created_at DESC] among equal
    timestamps is left to the server by SQL; the model breaks ties by the
    larger id, and [get_all_notes_newest_first] shows the listing meets the
    contract whatever the tie-break. *)

From S2P Require Import Spec2Rocq Json.

(** ** Data *)

Record note_row := {
  row_id : Z;
  row_content : pystr;
  row_author : pystr;
  row_created : Z
}.

Record pg := {
  pg_down : option pystr;            (* [Some msg]: connecting fails with [msg] *)
  pg_table : option (gmap Z note_row);
  pg_seq : Z
}.

Definition INT4_MAX : Z := 2147483647.

(** A fresh server with no table yet. *)
Definition pg_init : pg := {| pg_down := None; pg_table := None; pg_seq := 0 |}.

Definition set_table (t : gmap Z note_row) (s : pg) : pg :=
  {| pg_down := pg_down s; pg_table := Some t; pg_seq := pg_seq s |}.

Definition set_seq (n : Z) (s : pg) : pg :=
  {| pg_down := pg_down s; pg_table := pg_table s; pg_seq := n |}.

(** ** [created_at::text] *)

Definition pad2 (n : Z) : pystr := [48 + Z.to_N (n / 10); 48 + Z.to_N (n mod 10)]%N.

Definition pad4 (n : Z) : pystr :=
  if (n <? 10000)%Z then pad2 (n / 100) ++ pad2 (n mod 100) else int_repr n.

Fixpoint drop_zeros (l : pystr) : pystr :=
  match l with
  | c :: l' => if (c =? 48)%N then drop_zeros l' else l
  | [] => []
  end.

(** The six digits of the microseconds without their trailing zeros,
    after a point; nothing when they are all zero. *)
Definition frac_text (us : Z) : pystr :=
  match rev (drop_zeros (rev (pad2 (us / 10000) ++ pad2 ((us / 100) mod 100) ++ pad2 (us mod 100)))) with
  | [] => []
  | ds => 46%N :: ds
  end.

(** The proleptic Gregorian date of a day number counted from
    2000-01-01, as (year, month, day). *)
Definition civil_from_days (days : Z) : Z * Z * Z :=
  let z := days + 730425 in
  let era := z / 146097 in
  let doe := z - era * 146097 in
  let yoe := (doe - doe / 1460 + doe / 36524 - doe / 146096) / 365 in
  let doy := doe - (365 * yoe + yoe / 4 - yoe / 100) in
  let mp := (5 * doy + 2) / 153 in
  let d := doy - (153 * mp + 2) / 5 + 1 in
  let m := if mp <? 10 then mp + 3 else mp - 9 in
  let y := yoe + era * 400 in
  ((if m <=? 2 then y + 1 else y), m, d).

Definition USECS_PER_DAY : Z := 86400000000.

(** [timestamp_out] with [DateStyle = ISO]: the text of [created_at::text]. *)
Definition timestamp_text (ts : Z) : pystr :=
  let '(y, m, d) := civil_from_days (ts / USECS_PER_DAY) in
  let t := ts mod USECS_PER_DAY in
  let secs := t / 1000000 in
  pad4 (if y <=? 0 then 1 - y else y) ++ [45%N] ++ pad2 m ++ [45%N] ++ pad2 d ++ [32%N] ++
  pad2 (secs / 3600) ++ [58%N] ++ pad2 ((secs / 60) mod 60) ++ [58%N] ++ pad2 (secs mod 60) ++
  frac_text (t mod 1000000) ++ (if y <=? 0 then lit " BC" else []).

(** [dict(row)] of a [RealDictCursor] row of
    [SELECT id, content, author, created_at::text]. *)
Definition row_json (r : note_row) : json :=
  JObj [(lit "id", JInt (row_id r)); (lit "content", JStr (row_content r));
        (lit "author", JStr (row_author r)); (lit "created_at", JStr (timestamp_text (row_created r)))].

(** ** Parameters as psycopg2 sends them *)

(** psycopg2's [QuotedString] first encodes a string to UTF-8, which
    fails on a lone surrogate ([UnicodeEncodeError]), then refuses a NUL
    character in the encoded bytes ([ValueError]). *)
Definition has_nul (s : pystr) : bool := existsb (N.eqb 0) s.
Definition has_surrogate (s : pystr) : bool :=
  existsb (fun c => (55296 <=? c)%N && (c <=? 57343)%N) s.

Definition adapt_str (s : pystr) : outcome unit :=
  if has_surrogate s then Raised PyUnicodeEncodeError
  else if has_nul s then Raised (PyValueError (lit "A string literal cannot contain NUL (0x00) characters."))
  else Done tt.

(** The assignment cast to [VARCHAR(80)]: a longer value is an error
    unless what exceeds is spaces, which are cut. *)
Definition to_varchar80 (s : pystr) : outcome pystr :=
  if (length s <=? 80)%nat then Done s
  else if forallb (N.eqb 32) (drop 80 s) then Done (take 80 s)
  else Raised (PgDataError (lit "value too long for type character varying(80)")).

(** ** The listing order *)

(** [ORDER BY created_at DESC], ties broken by the larger id. *)
Definition newer (a b : note_row) : Prop :=
  row_created b < row_created a \/ (row_created a = row_created b /\ row_id b <= row_id a).

#[export] Instance newer_dec : RelDecision newer.
Proof. intros a b. unfold newer. apply _. Defined.

Definition sorted_rows (t : gmap Z note_row) : list note_row :=
  merge_sort newer (map snd (map_to_list t)).

(** ** Server messages *)

Definition quoted (s : string) : pystr := [34%N] ++ lit s ++ [34%N].

Definition msg_no_relation : pystr := lit "relation " ++ quoted "notes" ++ lit " does not exist".

Definition msg_seq_max : pystr :=
  lit "nextval: reached maximum value of sequence " ++ quoted "notes_id_seq" ++ lit " (2147483647)".

(** ** db_service.py *)

Module db_service.

(** [get_connection]: [psycopg2.connect] raises when the server is
    down; the rest of the function has no effect on the model. *)
Definition get_connection : st pg unit :=
  fun s => match pg_down s with
           | Some msg => (s, Raised (PgOperationalError msg))
           | None => (s, Done tt)
           end.

(** A statement on [notes]: the table must exist. *)
Definition notes_table : st pg (gmap Z note_row) :=
  fun s => match pg_table s with
           | Some t => (s, Done t)
           | None => (s, Raised (PgProgrammingError msg_no_relation))
           end.

(** [init_db]: [CREATE TABLE IF NOT EXISTS notes (...)]; the sequence
    is created with the table. *)
Definition init_db : st pg unit :=
  get_connection ;;
  fun s => match pg_table s with
           | Some _ => (s, Done tt)
           | None => (set_seq 0 (set_table ∅ s), Done tt)
           end.

(** [ping]: [SELECT 1], then [return True]. *)
Definition ping : st pg bool :=
  get_connection ;; st_ret true.

(** [get_all_notes]: the rows newest first, as dictionaries. *)
Definition get_all_notes : st pg (list json) :=
  get_connection ;;
  do t <- notes_table ;
  st_ret (map row_json (sorted_rows t)).

(** [insert_note(content, author)] at the transaction time [now]:
    [INSERT ... RETURNING id, created_at::text]. *)
Definition insert_note (now : Z) (content author : pystr) : st pg json :=
  get_connection ;;
  fun s =>
    match adapt_str content, adapt_str author with
    | Raised e, _ | _, Raised e => (s, Raised e)
    | Done _, Done _ =>
        match pg_table s with
        | None => (s, Raised (PgProgrammingError msg_no_relation))
        | Some t =>
            match to_varchar80 author with
            | Raised e => (s, Raised e)
            | Done a =>
                if (pg_seq s <? INT4_MAX)%Z then
                  let id := pg_seq s + 1 in
                  let r := {| row_id := id; row_content := content; row_author := a;
                              row_created := now |} in
                  (set_seq id (set_table (<[id := r]> t) s),
                   Done (JObj [(lit "id", JInt id); (lit "created_at", JStr (timestamp_text now))]))
                else (s, Raised (PgDataError
                        msg_seq_max))
            end
        end
    end.

(** [delete_note(note_id)]: [DELETE ... WHERE id = %s RETURNING id],
    then [fetchone() is not None]. *)
Definition delete_note (note_id : Z) : st pg bool :=
  get_connection ;;
  do t <- notes_table ;
  fun s => match t !! note_id with
           | Some _ => (set_table (delete note_id t) s, Done true)
           | None => (s, Done false)
           end.

(** [count_notes]: the [SELECT COUNT] of all rows. *)
Definition count_notes : st pg Z :=
  get_connection ;;
  do t <- notes_table ;
  st_ret (Z.of_nat (size t)).

End db_service.

(** ** Invariant of the store *)

(** The rows are keyed by their id, every id was drawn from the
    sequence, the sequence stays within int4, every author fits its
    column, and the stored texts are Unicode scalar values (the server
    stores UTF-8). *)
Definition store_wf (s : pg) : Prop :=
  (0 <= pg_seq s <= INT4_MAX)%Z /\
  match pg_table s with
  | None => pg_seq s = 0%Z
  | Some t => map_Forall (fun id r => row_id r = id /\ (1 <= id <= pg_seq s)%Z /\
                                      (length (row_author r) <= 80)%nat /\
                                      forallb scalar (row_content r) = true /\
                                      forallb scalar (row_author r) = true) t
  end.

Definition preserves {A} (c : st pg A) : Prop :=
  forall s, store_wf s -> store_wf (final (c s)).

(** ** A concrete server: two notes, ids 1 and 2 *)

Definition ex_row1 : note_row :=
  {| row_id := 1; row_content := lit "hi"; row_author := lit "Anonymous"; row_created := 0 |}.
Definition ex_row2 : note_row :=
  {| row_id := 2; row_content := lit "second"; row_author := lit "bob";
     row_created := 767881845123000 |}.
Definition ex_table : gmap Z note_row := <[2 := ex_row2]> (<[1 := ex_row1]> ∅).
Definition ex_pg : pg := {| pg_down := None; pg_table := Some ex_table; pg_seq := 2 |}.

(** ** Lemmas *)

Lemma get_all_notes_run s t :
  pg_down s = None -> pg_table s = Some t ->
  db_service.get_all_notes s = (s, Done (map row_json (sorted_rows t))).
Proof. intros Hd Ht. unfold db_service.get_all_notes, db_service.get_connection, db_service.notes_table, st_bind, st_ret. by rewrite Hd, Ht. Qed.

Lemma delete_note_run s t id :
  pg_down s = None -> pg_table s = Some t ->
  db_service.delete_note id s =
  match t !! id with
  | Some _ => (set_table (delete id t) s, Done true)
  | None => (s, Done false)
  end.
Proof. intros Hd Ht. unfold db_service.delete_note, db_service.get_connection, db_service.notes_table, st_bind. by rewrite Hd, Ht. Qed.

Lemma count_notes_run s t :
  pg_down s = None -> pg_table s = Some t -> db_service.count_notes s = (s, Done (Z.of_nat (size t))).
Proof. intros Hd Ht. unfold db_service.count_notes, db_service.get_connection, db_service.notes_table, st_bind, st_ret. by rewrite Hd, Ht. Qed.

Lemma to_varchar80_length a a' : to_varchar80 a = Done a' -> (length a' <= 80)%nat.
Proof.
  unfold to_varchar80. destruct (Nat.leb_spec (length a) 80); [intros [= <-]; lia|].
  destruct (forallb _ _); [intros [= <-]; rewrite length_take; lia|discriminate].
Qed.

(** The run of [insert_note] on a reachable server with a table. *)
Lemma insert_note_run s t now c a :
  pg_down s = None -> pg_table s = Some t ->
  db_service.insert_note now c a s =
  match adapt_str c, adapt_str a with
  | Raised e, _ | _, Raised e => (s, Raised e)
  | Done _, Done _ =>
      match to_varchar80 a with
      | Raised e => (s, Raised e)
      | Done a' =>
          if (pg_seq s <? INT4_MAX)%Z then
            (set_seq (pg_seq s + 1)
               (set_table (<[pg_seq s + 1 := {| row_id := pg_seq s + 1; row_content := c;
                                                row_author := a'; row_created := now |}]> t) s),
             Done (JObj [(lit "id", JInt (pg_seq s + 1));
                         (lit "created_at", JStr (timestamp_text now))]))
          else (s, Raised (PgDataError msg_seq_max))
      end
  end.
Proof.
  intros Hd Ht. unfold db_service.insert_note, db_service.get_connection, st_bind.
  rewrite Hd. destruct (adapt_str c), (adapt_str a); try reflexivity. by rewrite Ht.
Qed.

Lemma adapt_str_scalar s : adapt_str s = Done tt -> py_str s = true -> forallb scalar s = true.
Proof.
  unfold adapt_str, py_str, has_surrogate.
  destruct (existsb _ s) eqn:Hs; [discriminate|]. intros _ Hpy.
  apply forallb_forall. intros c Hc. apply existsb_false_forall with (x := c) in Hs; [|exact Hc].
  apply (proj1 (forallb_forall _ s)) with (x := c) in Hpy; [|exact Hc].
  apply scalar_iff. apply N.leb_le in Hpy. destruct (N.leb_spec 55296 c); simpl in Hs; [|lia].
  destruct (N.leb_spec c 57343); [discriminate|lia].
Qed.

Lemma to_varchar80_scalar a a' :
  to_varchar80 a = Done a' -> forallb scalar a = true -> forallb scalar a' = true.
Proof.
  unfold to_varchar80. destruct (Nat.leb _ _); [intros [= <-]; done|].
  destruct (forallb _ _); [intros [= <-]|discriminate].
  intros H. rewrite <- (take_drop 80 a), forallb_app in H. apply andb_true_iff in H. apply H.
Qed.

Lemma civil_bounds days :
  let '(y, m, d) := civil_from_days days in (m < 500000 /\ d < 500000)%Z.
Proof.
  unfold civil_from_days. cbv zeta. remember (days + 730425) as z.
  euclid z 146097 era rz. remember (z - era * 146097) as doe.
  assert (Hdoe : 0 <= doe < 146097) by lia.
  euclid doe 1460 q1 r1. euclid doe 36524 q2 r2. euclid doe 146096 q3 r3.
  remember (doe - q1 + q2 - q3) as num. euclid num 365 yoe r4.
  assert (Hyoe : 0 <= yoe) by nia.
  euclid yoe 4 q4 r5. euclid yoe 100 q5 r6.
  remember (doe - (365 * yoe + q4 - q5)) as doy.
  assert (Hdoy : doy < 146097) by lia.
  euclid (5 * doy + 2) 153 mp r7. euclid (153 * mp + 2) 5 q6 r8.
  repeat case_cmp; split; lia.
Qed.

Lemma pad2_scalar n : (n < 500000)%Z -> forallb scalar (pad2 n) = true.
Proof.
  intros Hn. pose proof (Z.mod_pos_bound n 10 ltac:(lia)).
  assert (n / 10 < 50000)%Z by (apply Z.div_lt_upper_bound; lia).
  unfold pad2. simpl. rewrite andb_true_r. apply andb_true_iff; split; apply scalar_iff; lia.
Qed.

Lemma digits_scalar ds : Forall (fun d => is_digit d = true) ds -> forallb scalar ds = true.
Proof.
  induction 1 as [|d ds Hd _ IH]; simpl; [done|]. rewrite IH, andb_true_r.
  apply scalar_iff. unfold is_digit in Hd. apply andb_true_iff in Hd as [_ Hd]. apply N.leb_le in Hd. lia.
Qed.

Lemma int_repr_scalar z : (0 <= z)%Z -> forallb scalar (int_repr z) = true.
Proof.
  intros Hz. destruct (int_repr_cases z) as [[? _]|[_ ->]]; [lia|].
  apply digits_scalar, List.Forall_rev, digits_rev_digits, Hz.
Qed.

Lemma drop_zeros_scalar l : forallb scalar l = true -> forallb scalar (drop_zeros l) = true.
Proof. induction l as [|c l IH]; simpl; [done|]. destruct (c =? 48)%N; [|done]. intros [_ ?]%andb_true_iff. auto. Qed.

Lemma forallb_rev {A} (f : A -> bool) l : forallb f (rev l) = forallb f l.
Proof. induction l as [|x l IH]; simpl; [done|]. rewrite forallb_app, IH. simpl. by rewrite andb_true_r, andb_comm. Qed.

Lemma timestamp_text_scalar ts : forallb scalar (timestamp_text ts) = true.
Proof.
  unfold timestamp_text. pose proof (civil_bounds (ts / USECS_PER_DAY)) as Hb.
  destruct (civil_from_days _) as [[y m] d]. destruct Hb as [Hm Hd].
  pose proof (Z.mod_pos_bound ts USECS_PER_DAY ltac:(unfold USECS_PER_DAY; lia)).
  set (t := ts mod USECS_PER_DAY) in *. unfold USECS_PER_DAY in *.
  assert (t / 1000000 < 86400)%Z by (apply Z.div_lt_upper_bound; lia).
  assert (0 <= t / 1000000)%Z by (apply Z.div_pos; lia).
  set (secs := t / 1000000) in *.
  assert (Hfrac : forallb scalar (frac_text (t mod 1000000)) = true).
  { pose proof (Z.mod_pos_bound t 1000000 ltac:(lia)). set (us := t mod 1000000) in *.
    unfold frac_text.
    assert (forallb scalar (pad2 (us / 10000) ++ pad2 ((us / 100) mod 100) ++ pad2 (us mod 100)) = true).
    { rewrite !forallb_app. rewrite !pad2_scalar; [done| | |].
      - pose proof (Z.mod_pos_bound us 100 ltac:(lia)). lia.
      - pose proof (Z.mod_pos_bound (us / 100) 100 ltac:(lia)). lia.
      - assert (us / 10000 < 100)%Z by (apply Z.div_lt_upper_bound; lia). lia. }
    destruct (rev (drop_zeros _)) as [|n l] eqn:E; [done|].
    change (scalar 46 && forallb scalar (n :: l) = true). rewrite <- E, forallb_rev.
    rewrite drop_zeros_scalar by (by rewrite forallb_rev). done. }
  assert (secs / 3600 < 24)%Z by (apply Z.div_lt_upper_bound; lia).
  pose proof (Z.mod_pos_bound secs 60 ltac:(lia)).
  pose proof (Z.mod_pos_bound (secs / 60) 60 ltac:(lia)).
  assert (Hy : forallb scalar (pad4 (if (y <=? 0)%Z then 1 - y else y)) = true).
  { set (Y := if (y <=? 0)%Z then 1 - y else y). assert (1 <= Y)%Z by (unfold Y; case_cmp; lia).
    unfold pad4. case_cmp.
    - rewrite forallb_app, !pad2_scalar; [done| |].
      + pose proof (Z.mod_pos_bound Y 100 ltac:(lia)). lia.
      + assert (Y / 100 < 100)%Z by (apply Z.div_lt_upper_bound; lia). lia.
    - apply int_repr_scalar. lia. }
  rewrite !forallb_app, Hfrac, Hy, !pad2_scalar by lia.
  by destruct (y <=? 0)%Z.
Qed.

(** A stored row is a well-formed JSON value. *)
Lemma row_json_wf r :
  forallb scalar (row_content r) = true -> forallb scalar (row_author r) = true ->
  wf_json (row_json r) = true.
Proof.
  intros Hc Ha. unfold row_json. cbn [wf_json forallb fst snd].
  rewrite Hc, Ha, timestamp_text_scalar. reflexivity.
Qed.

Lemma newer_total : Total newer.
Proof. intros a b. unfold newer. lia. Qed.

Lemma newer_created a b : newer a b -> (row_created b <= row_created a)%Z.
Proof. unfold newer. lia. Qed.

(** The listing holds exactly the rows of the table. *)
Lemma elem_of_sorted_rows t r : r ∈ sorted_rows t <-> exists id, t !! id = Some r.
Proof.
  unfold sorted_rows. rewrite (merge_sort_Permutation newer), list_elem_of_fmap.
  split.
  - intros ([id r'] & -> & Hin). apply elem_of_map_to_list in Hin. by exists id.
  - intros [id Hid]. exists (id, r). split; [done|]. by apply elem_of_map_to_list.
Qed.

Lemma ping_final s : final (db_service.ping s) = s.
Proof. unfold db_service.ping, db_service.get_connection, st_bind, st_ret. by destruct (pg_down s). Qed.

Lemma get_all_notes_final s : final (db_service.get_all_notes s) = s.
Proof.
  unfold db_service.get_all_notes, db_service.get_connection, db_service.notes_table, st_bind, st_ret.
  by destruct (pg_down s), (pg_table s).
Qed.

Lemma count_notes_final s : final (db_service.count_notes s) = s.
Proof.
  unfold db_service.count_notes, db_service.get_connection, db_service.notes_table, st_bind, st_ret.
  by destruct (pg_down s), (pg_table s).
Qed.

#[export] Hint Rewrite ping_final get_all_notes_final count_notes_final : py_run.

Lemma init_db_wf : preserves db_service.init_db.
Proof.
  intros s Hwf. unfold db_service.init_db, db_service.get_connection, st_bind.
  destruct (pg_down s); [exact Hwf|]. destruct (pg_table s) eqn:Ht; [exact Hwf|].
  unfold store_wf; simpl. split; [unfold INT4_MAX; lia|]. apply map_Forall_empty.
Qed.

(** A statement that raises leaves the server as it was. *)
Lemma insert_note_raised now c a s e :
  result (db_service.insert_note now c a s) = Raised e -> final (db_service.insert_note now c a s) = s.
Proof.
  unfold db_service.insert_note, db_service.get_connection, st_bind.
  destruct (pg_down s); [done|]. repeat case_match; simpl; congruence.
Qed.

Lemma delete_note_unchanged id s :
  result (db_service.delete_note id s) <> Done true -> final (db_service.delete_note id s) = s.
Proof.
  unfold db_service.delete_note, db_service.get_connection, db_service.notes_table, st_bind.
  destruct (pg_down s); [done|]. destruct (pg_table s) as [t|]; [|done]. simpl.
  destruct (t !! id); simpl; [congruence|done].
Qed.

Lemma insert_note_wf now c a :
  py_str c = true -> py_str a = true -> preserves (db_service.insert_note now c a).
Proof.
  intros Hc Ha s Hwf. destruct (pg_down s) eqn:Hd.
  { unfold db_service.insert_note, db_service.get_connection, st_bind. by rewrite Hd. }
  destruct (pg_table s) as [t|] eqn:Ht.
  2:{ unfold db_service.insert_note, db_service.get_connection, st_bind. rewrite Hd, Ht.
      by destruct (adapt_str c), (adapt_str a). }
  rewrite (insert_note_run s t) by assumption.
  destruct (adapt_str c) as [[]|] eqn:Hac, (adapt_str a) as [[]|] eqn:Haa; try exact Hwf.
  destruct (to_varchar80 a) as [a'|] eqn:Ha'; [|exact Hwf].
  case_cmp; [|exact Hwf].
  destruct Hwf as [Hseq Hrows]. rewrite Ht in Hrows. unfold store_wf; simpl. split; [lia|].
  apply map_Forall_insert_2.
  - simpl. split; [done|]. split; [lia|]. split; [by apply to_varchar80_length in Ha'|].
    split; [by apply adapt_str_scalar|].
    eapply to_varchar80_scalar; [exact Ha'|]. by apply adapt_str_scalar.
  - eapply map_Forall_impl; [exact Hrows|]. simpl. intros i r (? & ? & ? & ? & ?).
    repeat split; (done || lia).
Qed.

Lemma delete_note_wf id : preserves (db_service.delete_note id).
Proof.
  intros s Hwf. destruct (pg_down s) eqn:Hd.
  { unfold db_service.delete_note, db_service.get_connection, st_bind. by rewrite Hd. }
  destruct (pg_table s) as [t|] eqn:Ht.
  2:{ unfold db_service.delete_note, db_service.get_connection, db_service.notes_table, st_bind.
      by rewrite Hd, Ht. }
  rewrite (delete_note_run s t) by assumption.
  destruct (t !! id); [|exact Hwf].
  destruct Hwf as [Hseq Hrows]. rewrite Ht in Hrows. split; [exact Hseq|].
  by apply map_Forall_delete.
Qed.

(** Every row of a well-formed table gives well-formed JSON, so its
    listing does. *)
Lemma listing_wf s t :
  store_wf s -> pg_table s = Some t -> wf_json (JArr (map row_json (sorted_rows t))) = true.
Proof.
  intros [_ Hrows] Ht. rewrite Ht in Hrows. cbn [wf_json].
  apply forallb_forall. intros v Hv. apply in_map_iff in Hv as (r & <- & Hr).
  unfold sorted_rows in Hr. apply (Permutation_in _ (merge_sort_Permutation _ _)) in Hr.
  apply in_map_iff in Hr as ([i r'] & <- & Hin). apply list_elem_of_In, elem_of_map_to_list in Hin.
  destruct (Hrows i r' Hin) as (_ & _ & _ & Hc & Ha).
  by apply row_json_wf.
Qed.

(** ** Theorems *)

(** C29: the two writes of db_service.py do what their SQL says.  On a
    reachable server with the notes table, [insert_note] succeeds exactly
    when psycopg2 accepts both texts, the author fits [VARCHAR(80)] (after
    the cut of trailing spaces) and the sequence is below the int4
    maximum; it then stores exactly one new row, under the next value of
    the sequence, an id no stored row has, holding the content, the
    author and the transaction time, and answers that id and the
    rendered time.  [delete_note] answers whether a row had the id and
    removes exactly that row. *)
Theorem db_service_writes_spec s t now c a id :
  store_wf s -> pg_down s = None -> pg_table s = Some t ->
  (forall s' res, db_service.insert_note now c a s = (s', Done res) <->
     exists a', adapt_str c = Done tt /\ adapt_str a = Done tt /\ to_varchar80 a = Done a' /\
       (pg_seq s < INT4_MAX)%Z /\
       s' = set_seq (pg_seq s + 1)
              (set_table (<[pg_seq s + 1 := {| row_id := pg_seq s + 1; row_content := c;
                                               row_author := a'; row_created := now |}]> t) s) /\
       res = JObj [(lit "id", JInt (pg_seq s + 1)); (lit "created_at", JStr (timestamp_text now))]) /\
  t !! (pg_seq s + 1) = None /\
  db_service.delete_note id s = (set_table (delete id t) s, Done (bool_decide (is_Some (t !! id)))).
Proof.
  intros Hwf Hd Ht. split_and!.
  - intros s' res. rewrite (insert_note_run s t) by done. split.
    + destruct (adapt_str c) as [[]|], (adapt_str a) as [[]|]; try discriminate.
      destruct (to_varchar80 a) as [a'|]; [|discriminate].
      destruct (Z.ltb_spec (pg_seq s) INT4_MAX); [|discriminate].
      intros [= <- <-]. eauto 10.
    + intros (a' & -> & -> & -> & Hlt & -> & ->). by rewrite (proj2 (Z.ltb_lt _ _) Hlt).
  - destruct Hwf as [_ Hrows]. rewrite Ht in Hrows.
    destruct (t !! (pg_seq s + 1)) as [r|] eqn:E; [|done].
    destruct (Hrows _ _ E) as (_ & [_ Hle] & _). lia.
  - rewrite (delete_note_run s t) by done. destruct (t !! id) eqn:Hid.
    + by rewrite bool_decide_eq_true_2 by eauto.
    + rewrite bool_decide_eq_false_2 by (intros [? ?]; discriminate).
      rewrite delete_id by exact Hid. destruct s; simpl in *; by subst.
Qed.

(** C30: [get_all_notes] implements the contract "newest first": on a
    reachable server it returns, as dictionaries, a permutation of the
    stored rows sorted by [created_at] descending, and changes nothing. *)
Theorem get_all_notes_newest_first s t :
  pg_down s = None -> pg_table s = Some t ->
  exists rows, db_service.get_all_notes s = (s, Done (map row_json rows)) /\
    rows ≡ₚ map snd (map_to_list t) /\
    Sorted (fun a b => (row_created b <= row_created a)%Z) rows.
Proof.
  intros Hd Ht. exists (sorted_rows t). rewrite (get_all_notes_run s t) by assumption.
  split; [done|]. split; [apply merge_sort_Permutation|].
  eapply Sorted_weaken; [exact newer_created|]. apply Sorted_merge_sort, newer_total.
Qed.

(** [count_notes] agrees with the listing: it is the number of notes
    [get_all_notes] returns. *)
Theorem count_notes_listing s t :
  pg_down s = None -> pg_table s = Some t ->
  exists l, db_service.get_all_notes s = (s, Done l) /\
            db_service.count_notes s = (s, Done (Z.of_nat (length l))).
Proof.
  intros Hd Ht. eexists. rewrite (get_all_notes_run s t), (count_notes_run s t) by assumption.
  split; [reflexivity|]. unfold sorted_rows.
  rewrite length_map, (Permutation_length (merge_sort_Permutation _ _)), length_map.
  by rewrite length_map_to_list.
Qed.

Lemma ex_pg_wf : store_wf ex_pg.
Proof.
  split; [unfold INT4_MAX; simpl; lia|]. simpl. unfold ex_table.
  repeat apply map_Forall_insert_2; try apply map_Forall_empty; simpl;
    (split; [lia|]); (split; [lia|]); (split; [lia|]); split; reflexivity.
Qed.

(** ** Witnesses *)

Lemma db_service_writes_spec_witness :
  store_wf ex_pg /\ pg_down ex_pg = None /\ pg_table ex_pg = Some ex_table /\
  (forall s' res, db_service.insert_note 5 (lit "hey") (lit "ann") ex_pg = (s', Done res) <->
     exists a', adapt_str (lit "hey") = Done tt /\ adapt_str (lit "ann") = Done tt /\
       to_varchar80 (lit "ann") = Done a' /\ (pg_seq ex_pg < INT4_MAX)%Z /\
       s' = set_seq (pg_seq ex_pg + 1)
              (set_table (<[pg_seq ex_pg + 1 := {| row_id := pg_seq ex_pg + 1; row_content := lit "hey";
                                                   row_author := a'; row_created := 5 |}]> ex_table) ex_pg) /\
       res = JObj [(lit "id", JInt (pg_seq ex_pg + 1)); (lit "created_at", JStr (timestamp_text 5))]) /\
  ex_table !! (pg_seq ex_pg + 1) = None /\
  db_service.delete_note 1 ex_pg = (set_table (delete 1 ex_table) ex_pg, Done (bool_decide (is_Some (ex_table !! 1)))).
Proof.
  split; [exact ex_pg_wf|]. split; [reflexivity|]. split; [reflexivity|].
  exact (db_service_writes_spec ex_pg ex_table 5 (lit "hey") (lit "ann") 1 ex_pg_wf eq_refl eq_refl).
Defined.

Lemma get_all_notes_newest_first_witness :
  pg_down ex_pg = None /\ pg_table ex_pg = Some ex_table /\
  exists rows, db_service.get_all_notes ex_pg = (ex_pg, Done (map row_json rows)) /\
    rows ≡ₚ map snd (map_to_list ex_table) /\
    Sorted (fun a b => (row_created b <= row_created a)%Z) rows.
Proof.
  split; [reflexivity|]. split; [reflexivity|].
  exact (get_all_notes_newest_first ex_pg ex_table eq_refl eq_refl).
Defined.

Lemma count_notes_listing_witness :
  pg_down ex_pg = None /\ pg_table ex_pg = Some ex_table /\
  exists l, db_service.get_all_notes ex_pg = (ex_pg, Done l) /\
            db_service.count_notes ex_pg = (ex_pg, Done (Z.of_nat (length l))).
Proof.
  split; [reflexivity|]. split; [reflexivity|].
  exact (count_notes_listing ex_pg ex_table eq_refl eq_refl).
Defined.
