(* ===== verification/Cache.v ===== *)
(** * Cache: the Redis server and cache_service.py

    [Module Redis] models the server commands the service sends, as the
    Redis server executes them: a keyspace of string values with an
    optional absolute expiry in milliseconds, expired keys removed lazily
    when a command looks them up ([expireIfNeeded]) or by the periodic
    active expiry, the [keyspace_hits]/[keyspace_misses] counters that
    read lookups ([GET], [TTL]) increment, [TTL] rounding the remaining
    milliseconds to the nearest second, [SETEX] refusing a non-positive
    time, and [FLUSHDB] emptying the keyspace without touching the
    counters.  When the server is unreachable every command raises
    [ConnectionError].

    [Module cache_service] is app/services/cache_service.py: one key
    [NOTES_CACHE_KEY] holding [json.dumps(notes)] for [Config.CACHE_TTL]
    seconds. *)

From S2P Require Import Spec2Rocq Json.

(** ** Data *)

Record redis_entry := {
  re_value : pystr;
  re_expire : option Z         (* absolute time in ms; [None]: persistent *)
}.

Record redis := {
  r_down : option pystr;       (* [Some msg]: every command raises [msg] *)
  r_now : Z;                   (* the server clock, in ms *)
  r_db : gmap pystr redis_entry;
  r_hits : Z;
  r_misses : Z
}.

(** [Config.CACHE_TTL]. *)
Definition CACHE_TTL : Z := 15.

(** [NOTES_CACHE_KEY]. *)
Definition NOTES_CACHE_KEY : pystr := lit "notes:all".

Definition set_db (db : gmap pystr redis_entry) (r : redis) : redis :=
  {| r_down := r_down r; r_now := r_now r; r_db := db; r_hits := r_hits r; r_misses := r_misses r |}.

Definition count_hit (hit : bool) (r : redis) : redis :=
  {| r_down := r_down r; r_now := r_now r; r_db := r_db r;
     r_hits := if hit then r_hits r + 1 else r_hits r;
     r_misses := if hit then r_misses r else r_misses r + 1 |}.

(** [keyIsExpired]: the key is gone once the clock is past its expiry. *)
Definition expired (now : Z) (e : redis_entry) : bool :=
  match re_expire e with Some t => t <? now | None => false end.

Module Redis.

(** A command reaches the server or raises [ConnectionError]. *)
Definition connect : st redis unit :=
  fun r => match r_down r with
           | Some msg => (r, Raised (RedisConnectionError msg))
           | None => (r, Done tt)
           end.

(** [expireIfNeeded] then the key, without touching the counters. *)
Definition lookup_write (k : pystr) : st redis (option redis_entry) :=
  fun r => match r_db r !! k with
           | Some e => if expired (r_now r) e then (set_db (delete k (r_db r)) r, Done None)
                       else (r, Done (Some e))
           | None => (r, Done None)
           end.

(** [lookupKeyRead]: as [lookup_write], and count a hit or a miss. *)
Definition lookup_read (k : pystr) : st redis (option redis_entry) :=
  do o <- lookup_write k ;
  fun r => (count_hit (bool_decide (is_Some o)) r, Done o).

(** [GET key]. *)
Definition get (k : pystr) : st redis (option pystr) :=
  connect ;; do o <- lookup_read k ; st_ret (re_value <$> o).

(** [TTL key]: -2 when missing, -1 without expiry, else the seconds
    left rounded to the nearest. *)
Definition ttl (k : pystr) : st redis Z :=
  connect ;;
  do o <- lookup_read k ;
  fun r => (r, Done (match o with
                     | None => -2
                     | Some e => match re_expire e with
                                 | None => -1
                                 | Some t => (Z.max 0 (t - r_now r) + 500) / 1000
                                 end
                     end)).

(** [SETEX key seconds value]. *)
Definition setex (k : pystr) (secs : Z) (v : pystr) : st redis unit :=
  connect ;;
  fun r => if secs <=? 0
           then (r, Raised (RedisResponseError (lit "invalid expire time in 'setex' command")))
           else (set_db (<[k := {| re_value := v; re_expire := Some (r_now r + secs * 1000) |}]> (r_db r)) r,
                 Done tt).

(** [DEL key]: the number of keys removed. *)
Definition del (k : pystr) : st redis Z :=
  connect ;;
  do o <- lookup_write k ;
  fun r => match o with
           | Some _ => (set_db (delete k (r_db r)) r, Done 1)
           | None => (r, Done 0)
           end.

(** [FLUSHDB]. *)
Definition flushdb : st redis unit :=
  connect ;; fun r => (set_db ∅ r, Done tt).

(** [PING]: redis-py returns [True] on [PONG]. *)
Definition ping : st redis bool :=
  connect ;; st_ret true.

(** [INFO stats] and [INFO keyspace]: the counters and the number of
    keys of db0 (expired keys not yet removed included). *)
Definition info : st redis (Z * Z * Z) :=
  connect ;; fun r => (r, Done (r_hits r, r_misses r, Z.of_nat (size (r_db r)))).

(** The environment: the clock advances by [dt] ms. *)
Definition tick (dt : Z) (r : redis) : redis :=
  {| r_down := r_down r; r_now := r_now r + Z.max 0 dt; r_db := r_db r;
     r_hits := r_hits r; r_misses := r_misses r |}.

(** The environment: the active expiry cycle removes expired keys. *)
Definition active_expire (r : redis) : redis :=
  set_db (filter (fun ke => expired (r_now r) ke.2 = false) (r_db r)) r.

(** The environment: the server becomes unreachable, or reachable
    again with its keyspace as it was. *)
Definition set_down (down : option pystr) (r : redis) : redis :=
  {| r_down := down; r_now := r_now r; r_db := r_db r; r_hits := r_hits r; r_misses := r_misses r |}.

End Redis.

(** ** cache_service.py *)

Module cache_service.

(** [ping]. *)
Definition ping : st redis bool := Redis.ping.

(** [get_notes]: [json.loads(raw) if raw else None], with Python's
    [None] as [JNull] (which is also what [json.loads("null")] gives); a
    value that is not JSON raises [JSONDecodeError]. *)
Definition get_notes : st redis json :=
  do raw <- Redis.get NOTES_CACHE_KEY ;
  match raw with
  | None | Some [] => st_ret JNull
  | Some s => match loads s with
              | Some v => st_ret v
              | None => st_raise JSONDecodeError
              end
  end.

(** [get_notes_ttl]. *)
Definition get_notes_ttl : st redis Z := Redis.ttl NOTES_CACHE_KEY.

(** [set_notes(notes)]: [setex(NOTES_CACHE_KEY, CACHE_TTL, json.dumps(notes))]. *)
Definition set_notes (notes : list json) : st redis unit :=
  Redis.setex NOTES_CACHE_KEY CACHE_TTL (dumps (JArr notes)) ;; st_ret tt.

(** [invalidate_notes]. *)
Definition invalidate_notes : st redis unit :=
  Redis.del NOTES_CACHE_KEY ;; st_ret tt.

(** [flush_all]. *)
Definition flush_all : st redis unit := Redis.flushdb.

(** [get_stats]: the dictionary it returns. *)
Definition get_stats : st redis (list (pystr * json)) :=
  do '(hits, misses, keys) <- Redis.info ;
  st_ret [(lit "redis_hits", JInt hits); (lit "redis_misses", JInt misses);
          (lit "redis_keys", JInt keys)].

End cache_service.

(** A Redis server at time 0 with an empty keyspace. *)
Definition ex_redis : redis :=
  {| r_down := None; r_now := 0; r_db := ∅; r_hits := 0; r_misses := 0 |}.

(** The notes key holding an empty list, 400 ms before it expires. *)
Definition ex_cached_redis : redis :=
  set_db {[ NOTES_CACHE_KEY := {| re_value := lit "[]"; re_expire := Some 400 |} ]} ex_redis.

(** ** Invariant: the notes key always expires within [CACHE_TTL] *)

Definition ttl_bounded (r : redis) : Prop :=
  forall e, r_db r !! NOTES_CACHE_KEY = Some e ->
            exists t, re_expire e = Some t /\ (t <= r_now r + CACHE_TTL * 1000)%Z.

(** The notes key holds a live value. *)
Definition live_notes (r : redis) : option redis_entry :=
  match r_db r !! NOTES_CACHE_KEY with
  | Some e => if expired (r_now r) e then None else Some e
  | None => None
  end.

Definition keeps_ttl {A} (c : st redis A) : Prop :=
  forall r, ttl_bounded r -> ttl_bounded (final (c r)).

(** ** Lemmas *)

Lemma lookup_write_run r k :
  Redis.lookup_write k r =
  match r_db r !! k with
  | Some e => if expired (r_now r) e then (set_db (delete k (r_db r)) r, Done None) else (r, Done (Some e))
  | None => (r, Done None)
  end.
Proof. reflexivity. Qed.

Lemma redis_get_run r k :
  r_down r = None ->
  Redis.get k r =
  match r_db r !! k with
  | Some e => if expired (r_now r) e then (count_hit false (set_db (delete k (r_db r)) r), Done None)
              else (count_hit true r, Done (Some (re_value e)))
  | None => (count_hit false r, Done None)
  end.
Proof.
  intros Hd. unfold Redis.get, Redis.lookup_read, Redis.connect, st_bind, st_ret. rewrite Hd.
  rewrite lookup_write_run. destruct (r_db r !! k) as [e|]; [|reflexivity].
  by destruct (expired (r_now r) e).
Qed.

Lemma redis_setex_run r k secs v :
  r_down r = None -> (0 < secs)%Z ->
  Redis.setex k secs v r =
  (set_db (<[k := {| re_value := v; re_expire := Some (r_now r + secs * 1000) |}]> (r_db r)) r, Done tt).
Proof.
  intros Hd Hs. unfold Redis.setex, Redis.connect, st_bind. rewrite Hd. by case_cmp.
Qed.

Lemma redis_del_run r k :
  r_down r = None ->
  final (Redis.del k r) = set_db (delete k (r_db r)) r /\ exists n, result (Redis.del k r) = Done n.
Proof.
  intros Hd. unfold Redis.del, Redis.connect, st_bind. rewrite Hd, lookup_write_run.
  destruct (r_db r !! k) as [e|] eqn:He; [destruct (expired (r_now r) e)|]; simpl.
  - split; eauto.
  - split; eauto.
  - split; eauto. rewrite delete_id by exact He. by destruct r.
Qed.

Lemma invalidate_notes_run r :
  r_down r = None ->
  cache_service.invalidate_notes r = (set_db (delete NOTES_CACHE_KEY (r_db r)) r, Done tt).
Proof.
  intros Hd. destruct (redis_del_run r NOTES_CACHE_KEY Hd) as [Hf [n Hn]].
  unfold cache_service.invalidate_notes, st_bind. unfold final, result in Hf, Hn.
  destruct (Redis.del _ r) as [r' o]. simpl in *. by subst.
Qed.

(** A value just written with [SETEX] for [CACHE_TTL] seconds is live. *)
Lemma live_notes_setex r v :
  live_notes (set_db (<[NOTES_CACHE_KEY := {| re_value := v; re_expire := Some (r_now r + CACHE_TTL * 1000) |}]>
                       (r_db r)) r) =
  Some {| re_value := v; re_expire := Some (r_now r + CACHE_TTL * 1000) |}.
Proof.
  unfold live_notes. simpl. rewrite lookup_insert_eq. unfold expired. simpl.
  case_cmp; [unfold CACHE_TTL in *; lia|reflexivity].
Qed.

Lemma ttl_bounded_setex r v :
  ttl_bounded (set_db (<[NOTES_CACHE_KEY := {| re_value := v; re_expire := Some (r_now r + CACHE_TTL * 1000) |}]>
                        (r_db r)) r).
Proof. intros e. simpl. rewrite lookup_insert_eq. intros [= <-]. eexists; split; [reflexivity|lia]. Qed.

Lemma set_notes_run r notes :
  r_down r = None ->
  cache_service.set_notes notes r =
  (set_db (<[NOTES_CACHE_KEY := {| re_value := dumps (JArr notes);
                                  re_expire := Some (r_now r + CACHE_TTL * 1000) |}]> (r_db r)) r,
   Done tt).
Proof.
  intros Hd. unfold cache_service.set_notes, st_bind, st_ret.
  by rewrite redis_setex_run by (done || unfold CACHE_TTL; lia).
Qed.

Lemma get_notes_live r e :
  r_down r = None -> live_notes r = Some e ->
  cache_service.get_notes r =
  (count_hit true r, match re_value e with
                     | [] => Done JNull
                     | s => match loads s with Some v => Done v | None => Raised JSONDecodeError end
                     end).
Proof.
  unfold live_notes. intros Hd Hl. unfold cache_service.get_notes, st_bind.
  rewrite redis_get_run by exact Hd. destruct (r_db r !! NOTES_CACHE_KEY) as [e'|]; [|discriminate].
  destruct (expired (r_now r) e'); [discriminate|]. injection Hl as ->.
  destruct (re_value e) as [|c s]; [reflexivity|]. unfold st_ret, st_raise. by destruct (loads (c :: s)).
Qed.

Lemma get_notes_dead r :
  r_down r = None -> live_notes r = None ->
  result (cache_service.get_notes r) = Done JNull /\
  live_notes (final (cache_service.get_notes r)) = None /\
  r_now (final (cache_service.get_notes r)) = r_now r /\
  r_down (final (cache_service.get_notes r)) = r_down r.
Proof.
  unfold live_notes. intros Hd Hl. unfold cache_service.get_notes, st_bind.
  rewrite redis_get_run by exact Hd.
  destruct (r_db r !! NOTES_CACHE_KEY) as [e|] eqn:He; [destruct (expired (r_now r) e) eqn:Hx|];
    simpl; try discriminate.
  - by rewrite lookup_delete_eq.
  - by rewrite He.
Qed.

Lemma get_notes_ttl_live r e t :
  r_down r = None -> live_notes r = Some e -> re_expire e = Some t ->
  cache_service.get_notes_ttl r = (count_hit true r, Done ((Z.max 0 (t - r_now r) + 500) / 1000)%Z).
Proof.
  unfold live_notes. intros Hd Hl Ht.
  unfold cache_service.get_notes_ttl, Redis.ttl, Redis.lookup_read, Redis.connect, st_bind.
  rewrite Hd, lookup_write_run. destruct (r_db r !! NOTES_CACHE_KEY) as [e'|]; [|discriminate].
  destruct (expired (r_now r) e'); [discriminate|]. injection Hl as ->. simpl. by rewrite Ht.
Qed.

(** A change of the keyspace that only removes or keeps the notes key,
    with a clock that does not go back, keeps the bound. *)
Lemma ttl_bounded_mono r r' :
  (forall e, r_db r' !! NOTES_CACHE_KEY = Some e -> r_db r !! NOTES_CACHE_KEY = Some e) ->
  (r_now r <= r_now r')%Z -> ttl_bounded r -> ttl_bounded r'.
Proof.
  intros Hsub Hnow Hb e He. destruct (Hb e (Hsub e He)) as (t & Ht & Hle). exists t. split; [done|lia].
Qed.

Lemma ttl_bounded_count_hit b r : ttl_bounded r -> ttl_bounded (count_hit b r).
Proof. apply ttl_bounded_mono; [auto|reflexivity]. Qed.

Lemma ttl_bounded_delete k r : ttl_bounded r -> ttl_bounded (set_db (delete k (r_db r)) r).
Proof.
  apply ttl_bounded_mono; [|reflexivity]. simpl. intros e.
  destruct (decide (k = NOTES_CACHE_KEY)) as [->|Hne].
  - by rewrite lookup_delete_eq.
  - by rewrite lookup_delete_ne.
Qed.

#[export] Hint Resolve ttl_bounded_count_hit ttl_bounded_delete : py_db.

Lemma lookup_read_ttl_bounded k r : ttl_bounded r -> ttl_bounded (final (Redis.lookup_read k r)).
Proof.
  intros Hb. unfold Redis.lookup_read, st_bind. rewrite lookup_write_run.
  destruct (r_db r !! k) as [e|]; [destruct (expired (r_now r) e)|]; simpl; auto with py_db.
Qed.

#[export] Hint Resolve lookup_read_ttl_bounded : py_db.

Lemma connect_then_keeps {A} (c : st redis A) :
  keeps_ttl c -> keeps_ttl (Redis.connect ;; c).
Proof.
  intros Hc r Hb. unfold Redis.connect, st_bind. destruct (r_down r); [exact Hb|]. by apply Hc.
Qed.

Lemma bind_keeps {A B} (c : st redis A) (k : A -> st redis B) :
  keeps_ttl c -> (forall a, keeps_ttl (k a)) -> keeps_ttl (st_bind c k).
Proof.
  intros Hc Hk r Hb. unfold st_bind. specialize (Hc r Hb). unfold final in Hc.
  destruct (c r) as [r' [a|e]]; simpl in *; [by apply Hk|exact Hc].
Qed.

Lemma ret_keeps {A} (a : A) : keeps_ttl (st_ret a).
Proof. intros r Hb. exact Hb. Qed.

Lemma raise_keeps {A} e : keeps_ttl (@st_raise redis A e).
Proof. intros r Hb. exact Hb. Qed.

Lemma lookup_read_keeps k : keeps_ttl (Redis.lookup_read k).
Proof. intros r. apply lookup_read_ttl_bounded. Qed.

#[export] Hint Resolve connect_then_keeps bind_keeps ret_keeps raise_keeps lookup_read_keeps : py_db.

Lemma ping_keeps : keeps_ttl cache_service.ping.
Proof. unfold cache_service.ping, Redis.ping. auto with py_db. Qed.

Lemma get_notes_keeps : keeps_ttl cache_service.get_notes.
Proof.
  unfold cache_service.get_notes, Redis.get. apply bind_keeps; [auto with py_db|].
  intros [[|c s]|]; auto with py_db. destruct (loads (c :: s)); auto with py_db.
Qed.

Lemma get_notes_ttl_keeps : keeps_ttl cache_service.get_notes_ttl.
Proof.
  unfold cache_service.get_notes_ttl, Redis.ttl. apply connect_then_keeps, bind_keeps; [auto with py_db|].
  intros o r Hb. exact Hb.
Qed.

Lemma set_notes_keeps notes : keeps_ttl (cache_service.set_notes notes).
Proof.
  intros r Hb. destruct (r_down r) eqn:Hd.
  - unfold cache_service.set_notes, Redis.setex, Redis.connect, st_bind. by rewrite Hd.
  - rewrite set_notes_run by exact Hd. intros e. simpl. rewrite lookup_insert_eq.
    intros [= <-]. eexists; split; [reflexivity|lia].
Qed.

Lemma invalidate_notes_keeps : keeps_ttl cache_service.invalidate_notes.
Proof.
  intros r Hb. unfold cache_service.invalidate_notes, st_bind. destruct (r_down r) eqn:Hd.
  - unfold Redis.del, Redis.connect, st_bind. by rewrite Hd.
  - destruct (redis_del_run r NOTES_CACHE_KEY Hd) as [Hf [n Hn]].
    unfold final, result in Hf, Hn. destruct (Redis.del _ r) as [r' o]. simpl in *. subst.
    unfold final. simpl. auto with py_db.
Qed.

Lemma flush_all_keeps : keeps_ttl cache_service.flush_all.
Proof.
  intros r Hb. unfold cache_service.flush_all, Redis.flushdb, Redis.connect, st_bind.
  destruct (r_down r); [exact Hb|]. intros e. simpl. by rewrite lookup_empty.
Qed.

Lemma get_stats_keeps : keeps_ttl cache_service.get_stats.
Proof.
  unfold cache_service.get_stats, Redis.info. apply bind_keeps; [|intros [[? ?] ?]; auto with py_db].
  apply connect_then_keeps. intros r Hb. exact Hb.
Qed.

Lemma tick_keeps dt r : ttl_bounded r -> ttl_bounded (Redis.tick dt r).
Proof. apply ttl_bounded_mono; [auto|simpl; lia]. Qed.

Lemma active_expire_keeps r : ttl_bounded r -> ttl_bounded (Redis.active_expire r).
Proof.
  apply ttl_bounded_mono; [|reflexivity]. simpl. intros e He.
  apply map_lookup_filter_Some in He. apply He.
Qed.

(** [TTL]'s rounding of at most [CACHE_TTL] seconds left. *)
Lemma ttl_round_bound t now :
  (t <= now + CACHE_TTL * 1000)%Z -> (0 <= (Z.max 0 (t - now) + 500) / 1000 <= CACHE_TTL)%Z.
Proof.
  unfold CACHE_TTL. intros Ht. split; [apply Z.div_pos; lia|].
  assert ((Z.max 0 (t - now) + 500) / 1000 < 16)%Z by (apply Z.div_lt_upper_bound; lia). lia.
Qed.

Lemma ttl_reply_bound r v :
  ttl_bounded r -> result (cache_service.get_notes_ttl r) = Done v ->
  v = (-2)%Z \/ (0 <= v <= CACHE_TTL)%Z.
Proof.
  intros Hb. unfold cache_service.get_notes_ttl, Redis.ttl, Redis.lookup_read, Redis.connect, st_bind.
  destruct (r_down r); [discriminate|]. rewrite lookup_write_run.
  destruct (r_db r !! NOTES_CACHE_KEY) as [e|] eqn:He; [destruct (expired (r_now r) e)|];
    simpl; intros [= <-]; auto.
  right. destruct (Hb e He) as (t & -> & Ht). by apply ttl_round_bound.
Qed.

(** ** Theorems *)

(** Every function of cache_service.py, the passing of time and
    the active expiry keep the notes key expiring within [CACHE_TTL]
    seconds of the server clock. *)
Theorem cache_service_keeps_ttl_bounded :
  keeps_ttl cache_service.ping /\ keeps_ttl cache_service.get_notes /\
  keeps_ttl cache_service.get_notes_ttl /\ (forall notes, keeps_ttl (cache_service.set_notes notes)) /\
  keeps_ttl cache_service.invalidate_notes /\ keeps_ttl cache_service.flush_all /\
  keeps_ttl cache_service.get_stats /\
  (forall dt r, ttl_bounded r -> ttl_bounded (Redis.tick dt r)) /\
  (forall r, ttl_bounded r -> ttl_bounded (Redis.active_expire r)).
Proof.
  repeat split; auto using ping_keeps, get_notes_keeps, get_notes_ttl_keeps, set_notes_keeps,
    invalidate_notes_keeps, flush_all_keeps, get_stats_keeps, tick_keeps, active_expire_keeps.
Qed.

(** The TTL that [get_notes_ttl] reports is -2 (no key) or a whole
    number of seconds between 0 and [CACHE_TTL]: never -1, never more
    than the configured TTL, and 0 in the last half second. *)
Theorem get_notes_ttl_bound r v :
  ttl_bounded r -> result (cache_service.get_notes_ttl r) = Done v ->
  v = (-2)%Z \/ (0 <= v <= CACHE_TTL)%Z.
Proof. apply ttl_reply_bound. Qed.

Lemma dumps_nonempty v : dumps v <> [].
Proof.
  destruct v as [| [] | z | s | l | kvs]; simpl; try discriminate.
  destruct (int_repr_cases z) as [[_ ->]|[Hz ->]]; [discriminate|].
  destruct (digits_head z Hz) as (d & ds & -> & _). discriminate.
Qed.

(** What [set_notes] writes, [get_notes] reads back: the cached
    list decodes to the very notes that were stored, and [if raw] never
    mistakes it for a miss, even for an empty list. *)
Theorem set_notes_get_notes r notes :
  r_down r = None -> wf_json (JArr notes) = true ->
  result (st_bind (cache_service.set_notes notes) (fun _ => cache_service.get_notes) r) =
  Done (JArr notes).
Proof.
  intros Hd Hwf. unfold st_bind at 1. rewrite set_notes_run by exact Hd.
  set (r' := set_db _ r).
  assert (Hl : live_notes r' = Some {| re_value := dumps (JArr notes);
                                       re_expire := Some (r_now r + CACHE_TTL * 1000) |}).
  { unfold live_notes, r'. simpl. rewrite lookup_insert_eq. unfold expired. simpl.
    case_cmp; [unfold CACHE_TTL in *; lia|reflexivity]. }
  rewrite (get_notes_live r' _ Hd Hl). cbn [result snd re_value].
  destruct (dumps (JArr notes)) as [|c s] eqn:E; [by apply dumps_nonempty in E|].
  cbn -[loads]. rewrite <- E, loads_dumps_wf by exact Hwf. reflexivity.
Qed.

(** Once more than [CACHE_TTL] seconds have passed since
    [set_notes], [get_notes] misses: the cached list is gone. *)
Theorem get_notes_after_ttl r notes dt :
  r_down r = None -> (CACHE_TTL * 1000 < dt)%Z ->
  result (cache_service.get_notes (Redis.tick dt (final (cache_service.set_notes notes r)))) = Done JNull.
Proof.
  intros Hd Hdt. rewrite set_notes_run by exact Hd. apply get_notes_dead; [exact Hd|].
  unfold live_notes. simpl. rewrite lookup_insert_eq. unfold expired. simpl.
  case_cmp. reflexivity.
Qed.

(** [flush_all] empties the cache, so [get_notes] misses next, and
    leaves the hit and miss counters as they were. *)
Theorem flush_all_spec r :
  r_down r = None ->
  r_hits (final (cache_service.flush_all r)) = r_hits r /\
  r_misses (final (cache_service.flush_all r)) = r_misses r /\
  result (cache_service.get_notes (final (cache_service.flush_all r))) = Done JNull.
Proof.
  intros Hd. unfold cache_service.flush_all, Redis.flushdb, Redis.connect, st_bind.
  rewrite Hd. simpl. split; [done|]. split; [done|].
  apply get_notes_dead; [exact Hd|]. unfold live_notes. simpl. by rewrite lookup_empty.
Qed.

(** ** Witnesses *)

Lemma ex_cached_redis_bounded : ttl_bounded ex_cached_redis.
Proof.
  intros e. simpl. rewrite lookup_singleton_eq. intros [= <-]. eexists; split; [reflexivity|].
  unfold CACHE_TTL. simpl. lia.
Qed.

Lemma get_notes_ttl_bound_witness :
  (0 : Z) = (-2)%Z \/ (0 <= 0 <= CACHE_TTL)%Z.
Proof. apply (get_notes_ttl_bound ex_cached_redis 0); [exact ex_cached_redis_bounded|vm_compute; reflexivity]. Defined.

Lemma set_notes_get_notes_witness :
  result (st_bind (cache_service.set_notes [JStr (lit "hi"); JInt 3]) (fun _ => cache_service.get_notes) ex_redis) =
  Done (JArr [JStr (lit "hi"); JInt 3]).
Proof. apply set_notes_get_notes; vm_compute; reflexivity. Defined.

Lemma get_notes_after_ttl_witness :
  result (cache_service.get_notes (Redis.tick 15001 (final (cache_service.set_notes [JInt 3] ex_redis)))) = Done JNull.
Proof. apply get_notes_after_ttl; [reflexivity|vm_compute; reflexivity]. Defined.

Lemma flush_all_spec_witness :
  r_hits (final (cache_service.flush_all ex_cached_redis)) = r_hits ex_cached_redis /\
  r_misses (final (cache_service.flush_all ex_cached_redis)) = r_misses ex_cached_redis /\
  result (cache_service.get_notes (final (cache_service.flush_all ex_cached_redis))) = Done JNull.
Proof. apply flush_all_spec. reflexivity. Defined.
