(* ===== verification/App.v ===== *)
(** * App: the world the handlers run in, and Flask's error handling

    A request handler of the Flask application reads and writes the two
    servers, so it is an [st world] computation where [world] holds the
    PostgreSQL and the Redis state; [on_pg] and [on_redis] run an
    operation of [db_service] or [cache_service] on its server.  A
    response is a status and the JSON value given to [jsonify].  An
    exception that escapes a handler becomes Flask's 500 response
    ([handle_user_exception] with no error handler registered), except
    werkzeug's [BadRequest] which is a 400; whatever the handler wrote
    before raising stays written (db_service connections autocommit). *)

From S2P Require Import Spec2Rocq Json Store Cache.

Record world := {
  w_pg : pg;
  w_redis : redis
}.

Definition set_pg (p : pg) (w : world) : world := {| w_pg := p; w_redis := w_redis w |}.
Definition set_redis (r : redis) (w : world) : world := {| w_pg := w_pg w; w_redis := r |}.

Definition on_pg {A} (c : st pg A) : st world A := st_focus w_pg set_pg c.
Definition on_redis {A} (c : st redis A) : st world A := st_focus w_redis set_redis c.

Record response := {
  status : Z;
  body : json
}.

Definition resp (code : Z) (kvs : list (pystr * json)) : response :=
  {| status := code; body := JObj kvs |}.

(** The body of Flask's default error pages, as far as the model needs
    it: only the status is observable through the JSON API. *)
Definition error_page (code : Z) : response := {| status := code; body := JNull |}.

(** [Flask.handle_user_exception] for an application without error
    handlers. *)
Definition flask_dispatch (h : st world response) : st world response :=
  fun w => match h w with
           | (w', Done r) => (w', Done r)
           | (w', Raised BadRequest) => (w', Done (error_page 400))
           | (w', Raised _) => (w', Done (error_page 500))
           end.

(** ** Lemmas *)

Lemma on_pg_run {A} (c : st pg A) w :
  on_pg c w = (set_pg (final (c (w_pg w))) w, result (c (w_pg w))).
Proof. unfold on_pg, st_focus, final, result. by destruct (c (w_pg w)). Qed.

Lemma on_redis_run {A} (c : st redis A) w :
  on_redis c w = (set_redis (final (c (w_redis w))) w, result (c (w_redis w))).
Proof. unfold on_redis, st_focus, final, result. by destruct (c (w_redis w)). Qed.

Lemma set_pg_id w : set_pg (w_pg w) w = w.
Proof. by destruct w. Qed.

Lemma set_redis_id w : set_redis (w_redis w) w = w.
Proof. by destruct w. Qed.

Lemma flask_final h w : final (flask_dispatch h w) = final (h w).
Proof. unfold flask_dispatch, final. destruct (h w) as [w' [r|[]]]; reflexivity. Qed.

#[export] Hint Rewrite @on_pg_run @on_redis_run set_pg_id set_redis_id : py_run.
