(* ===== verification/Notes.v ===== *)
(** * Notes: the handlers of app/routes/notes.py

    [list_notes] is the cache-aside read: [get_notes] from Redis, on a
    hit the cached value and [get_notes_ttl], on a miss [get_all_notes]
    from Postgres, [set_notes] into Redis and the configured TTL.
    [create_note] parses the body as [request.get_json(force=True)] does,
    trims [content] and [author] with the Python semantics of [or] and
    [.strip()] (which raises on a value that is not a string), answers 400
    on an empty content, else inserts and then invalidates the cache.
    [delete_note] deletes and invalidates only when a row was removed.
    Each handler is an [st world response]; [flask_dispatch] turns what
    it raises into the 500 (or 400) response. *)

From S2P Require Import Spec2Rocq PyStr Json Decode Store Cache App.

(** ** Python values decoded from JSON *)

(** [bool(v)]. *)
Definition truthy (v : json) : bool :=
  match v with
  | JNull => false
  | JBool b => b
  | JInt z => negb (z =? 0)
  | JStr s => negb (bool_decide (s = []))
  | JArr l => negb (bool_decide (l = []))
  | JObj kvs => negb (bool_decide (kvs = []))
  end.

(** [type(v).__name__]. *)
Definition type_name (v : json) : pystr :=
  match v with
  | JNull => lit "NoneType" | JBool _ => lit "bool" | JInt _ => lit "int"
  | JStr _ => lit "str" | JArr _ => lit "list" | JObj _ => lit "dict"
  end.

Definition no_attribute (v : json) (attr : string) : exn :=
  PyAttributeError (lit "'" ++ type_name v ++ lit "' object has no attribute '" ++ lit attr ++ lit "'").

(** [d.get(k)]: [None] when the key is missing. *)
Definition dict_get (k : pystr) (kvs : list (pystr * json)) : json :=
  match list_find (fun kv => kv.1 = k) kvs with
  | Some (_, (_, v)) => v
  | None => JNull
  end.

(** [(v or default).strip()]. *)
Definition or_strip (v : json) (dflt : pystr) : outcome pystr :=
  match (if truthy v then v else JStr dflt) with
  | JStr s => Done (strip s)
  | x => Raised (no_attribute x "strip")
  end.

(** [request.get_json(force=True)]: werkzeug gives the body's bytes to
    [json.loads], whose [detect_encoding] decodes a UTF-8 body as
    [utf-8-sig], dropping a leading byte order mark.  [raw] is the body
    decoded as UTF-8, a byte order mark included as U+FEFF (a body whose
    first bytes are NUL, which [detect_encoding] takes for UTF-16 or
    UTF-32, is outside the model). *)
Definition get_json (raw : pystr) : option json :=
  loads (match raw with c :: r => if (c =? 65279)%N then r else raw | [] => raw end).

(** ** notes.py *)

Module notes.

(** [list_notes], lines 8-27. *)
Definition list_notes : st world response :=
  do cached <- on_redis cache_service.get_notes ;
  match cached with
  | JNull =>
      do notes <- on_pg db_service.get_all_notes ;
      on_redis (cache_service.set_notes notes) ;;
      st_ret (resp 200 [(lit "notes", JArr notes); (lit "source", JStr (lit "database"));
                        (lit "cache_ttl", JInt CACHE_TTL)])
  | _ =>
      do ttl <- on_redis cache_service.get_notes_ttl ;
      st_ret (resp 200 [(lit "notes", cached); (lit "source", JStr (lit "cache"));
                        (lit "cache_ttl", JInt ttl)])
  end.

(** [create_note], lines 30-48, for a request body [raw_body] handled
    at the database time [now]. *)
Definition create_note (now : Z) (raw_body : pystr) : st world response :=
  match get_json raw_body with
  | None => st_raise BadRequest
  | Some (JObj kvs) =>
      match or_strip (dict_get (lit "content") kvs) [] with
      | Raised e => st_raise e
      | Done content =>
          match or_strip (dict_get (lit "author") kvs) (lit "Anonymous") with
          | Raised e => st_raise e
          | Done a =>
              let author := str_or a (lit "Anonymous") in
              match content with
              | [] => st_ret (resp 400 [(lit "error", JStr (lit "content is required"))])
              | _ =>
                  do result <- on_pg (db_service.insert_note now content author) ;
                  on_redis cache_service.invalidate_notes ;;
                  let field k := match result with JObj r => dict_get k r | _ => JNull end in
                  st_ret (resp 201 [(lit "id", field (lit "id")); (lit "content", JStr content);
                                    (lit "author", JStr author);
                                    (lit "created_at", field (lit "created_at"))])
              end
          end
      end
  | Some data => st_raise (no_attribute data "get")
  end.

(** [delete_note(note_id)], lines 51-59. *)
Definition delete_note (note_id : Z) : st world response :=
  do deleted <- on_pg (db_service.delete_note note_id) ;
  if negb deleted then st_ret (resp 404 [(lit "error", JStr (lit "Note not found"))])
  else on_redis cache_service.invalidate_notes ;;
       st_ret (resp 200 [(lit "deleted", JInt note_id)]).

End notes.

(** ** The coherence invariant *)

(** The JSON list of the current rows, newest first. *)
Definition listing (t : gmap Z note_row) : json := JArr (map row_json (sorted_rows t)).

(** A live cached value is the encoding of the current listing. *)
Definition coherent (w : world) : Prop :=
  forall e, live_notes (w_redis w) = Some e ->
    exists t, pg_table (w_pg w) = Some t /\ re_value e = dumps (listing t).

Definition world_inv (w : world) : Prop :=
  store_wf (w_pg w) /\ ttl_bounded (w_redis w) /\ coherent w.

(** The body [list_notes] answers with. *)
Definition list_body (notes : json) (src : string) (ttl : Z) : response :=
  resp 200 [(lit "notes", notes); (lit "source", JStr (lit src)); (lit "cache_ttl", JInt ttl)].

(** ** Concrete worlds *)

(** Postgres holds two notes, the cache is cold. *)
Definition ex_world : world := {| w_pg := ex_pg; w_redis := ex_redis |}.

(** The same notes, cached with 400 ms left. *)
Definition ex_cached_world : world :=
  {| w_pg := ex_pg;
     w_redis := set_db {[ NOTES_CACHE_KEY := {| re_value := dumps (listing ex_table); re_expire := Some 400 |} ]}
                       ex_redis |}.

(** The body of a [POST /notes] request, [{"content": "hi"}], and one
    with a blank content, [{"content": "  "}] (34 is the double quote). *)
Definition ex_post : pystr := lit "{" ++ [34%N] ++ lit "content" ++ [34%N] ++ lit ": " ++ [34%N] ++ lit "hi" ++ [34%N] ++ lit "}".
Definition ex_post_blank : pystr :=
  lit "{" ++ [34%N] ++ lit "content" ++ [34%N] ++ lit ": " ++ [34%N] ++ lit "  " ++ [34%N] ++ lit "}".

(** [{"content": "hi", "author": "aa...a"}] with 81 letters. *)
Definition ex_post_long : pystr :=
  lit "{" ++ [34%N] ++ lit "content" ++ [34%N] ++ lit ": " ++ [34%N] ++ lit "hi" ++ [34%N] ++ lit ", " ++
  [34%N] ++ lit "author" ++ [34%N] ++ lit ": " ++ [34%N] ++ replicate 81 97%N ++ [34%N] ++ lit "}".

(** What [create_note] answers to [ex_post] on [ex_world]: the third note. *)
Definition ex_created : response :=
  resp 201 [(lit "id", JInt 3); (lit "content", JStr (lit "hi")); (lit "author", JStr (lit "Anonymous"));
            (lit "created_at", JStr (timestamp_text 0))].

(** ** Lemmas *)

Lemma live_notes_count_hit b r : live_notes (count_hit b r) = live_notes r.
Proof. reflexivity. Qed.

Lemma coherent_redis w r :
  (live_notes r = None \/ live_notes r = live_notes (w_redis w)) -> coherent w -> coherent (set_redis r w).
Proof.
  intros [Hn|He] Hc e; simpl; [by rewrite Hn|]. rewrite He. apply Hc.
Qed.

Lemma listing_loads s t :
  store_wf s -> pg_table s = Some t ->
  match dumps (listing t) with
  | [] => Done JNull
  | raw => match loads raw with Some v => Done v | None => Raised JSONDecodeError end
  end = Done (listing t).
Proof.
  intros Hwf Ht. destruct (dumps (listing t)) as [|c s'] eqn:E; [by apply dumps_nonempty in E|].
  cbn -[loads]. rewrite <- E, loads_dumps_wf; [reflexivity|]. exact (listing_wf s t Hwf Ht).
Qed.

(** On a hit, the cached value is the current listing. *)
(** [list_notes] on a hit, whatever the store now holds: the listing
    the key holds and the key's remaining time, two reads of the key and
    nothing else. *)
Lemma list_notes_hit_value w e s t texp :
  r_down (w_redis w) = None -> live_notes (w_redis w) = Some e -> re_expire e = Some texp ->
  store_wf s -> pg_table s = Some t -> re_value e = dumps (listing t) ->
  notes.list_notes w =
  (set_redis (count_hit true (count_hit true (w_redis w))) w,
   Done (list_body (listing t) "cache" ((Z.max 0 (texp - r_now (w_redis w)) + 500) / 1000))).
Proof.
  intros Hd Hl Hx Hwf Ht Hv.
  unfold notes.list_notes, st_bind at 1. rewrite on_redis_run, (get_notes_live _ e Hd Hl), Hv, (listing_loads s t Hwf Ht).
  cbn [final result fst snd]. unfold listing at 1. cbv iota. unfold st_bind. rewrite on_redis_run. simpl w_redis.
  rewrite (get_notes_ttl_live _ e texp) by (done || by rewrite live_notes_count_hit).
  reflexivity.
Qed.

(** [list_notes] on a hit under the invariant: the current listing. *)
Lemma list_notes_hit w e :
  world_inv w -> r_down (w_redis w) = None -> live_notes (w_redis w) = Some e ->
  exists t texp, pg_table (w_pg w) = Some t /\ re_expire e = Some texp /\
    (texp <= r_now (w_redis w) + CACHE_TTL * 1000)%Z /\
    notes.list_notes w =
    (set_redis (count_hit true (count_hit true (w_redis w))) w,
     Done (list_body (listing t) "cache" ((Z.max 0 (texp - r_now (w_redis w)) + 500) / 1000))).
Proof.
  intros (Hwf & Hb & Hc) Hd Hl. destruct (Hc e Hl) as (t & Ht & Hv).
  assert (He : r_db (w_redis w) !! NOTES_CACHE_KEY = Some e).
  { unfold live_notes in Hl. destruct (r_db _ !! _); [|discriminate]. by destruct (expired _ _); inversion Hl. }
  destruct (Hb e He) as (texp & Hx & Hle). exists t, texp. split_and!; [done|done|done|].
  exact (list_notes_hit_value w e (w_pg w) t texp Hd Hl Hx Hwf Ht Hv).
Qed.

Lemma get_all_notes_done s l :
  result (db_service.get_all_notes s) = Done l ->
  exists t, pg_down s = None /\ pg_table s = Some t /\ l = map row_json (sorted_rows t).
Proof.
  unfold db_service.get_all_notes, db_service.get_connection, db_service.notes_table, st_bind, st_ret.
  destruct (pg_down s); [discriminate|]. destruct (pg_table s) as [t|]; [|discriminate].
  intros [= <-]. eauto.
Qed.

(** [list_notes] on a miss with both servers up: the current listing
    from Postgres, cached for [CACHE_TTL] seconds. *)
Lemma list_notes_miss w t :
  r_down (w_redis w) = None -> live_notes (w_redis w) = None ->
  pg_down (w_pg w) = None -> pg_table (w_pg w) = Some t ->
  let r1 := final (cache_service.get_notes (w_redis w)) in
  notes.list_notes w =
  (set_redis (set_db (<[NOTES_CACHE_KEY := {| re_value := dumps (listing t);
                         re_expire := Some (r_now r1 + CACHE_TTL * 1000) |}]> (r_db r1)) r1) w,
   Done (list_body (listing t) "database" CACHE_TTL)).
Proof.
  intros Hd Hl Hpd Ht r1. destruct (get_notes_dead _ Hd Hl) as (Hg & _ & Hn & Hd1).
  unfold notes.list_notes, st_bind at 1. rewrite on_redis_run, Hg.
  cbn [result]. fold r1. cbv iota. unfold st_bind. rewrite on_pg_run. simpl w_pg.
  rewrite (get_all_notes_run _ t) by done. cbn [final result fst snd].
  rewrite on_redis_run. simpl w_redis.
  rewrite set_notes_run by (subst r1; by rewrite Hd1). cbn [final result fst snd].
  reflexivity.
Qed.

(** [list_notes] when Redis is down: [ConnectionError], nothing changed. *)
Lemma list_notes_redis_down w msg :
  r_down (w_redis w) = Some msg -> notes.list_notes w = (w, Raised (RedisConnectionError msg)).
Proof.
  intros Hd. unfold notes.list_notes, st_bind. rewrite on_redis_run.
  unfold cache_service.get_notes, Redis.get, Redis.connect, st_bind. rewrite Hd. simpl.
  by rewrite set_redis_id.
Qed.

(** [list_notes] on a miss: either the current listing, cached, or the
    exception of the store, with the key left as the lookup left it. *)
Lemma list_notes_miss_cases w :
  r_down (w_redis w) = None -> live_notes (w_redis w) = None ->
  let r1 := final (cache_service.get_notes (w_redis w)) in
  (exists t, pg_down (w_pg w) = None /\ pg_table (w_pg w) = Some t /\
     notes.list_notes w =
     (set_redis (set_db (<[NOTES_CACHE_KEY := {| re_value := dumps (listing t);
                           re_expire := Some (r_now r1 + CACHE_TTL * 1000) |}]> (r_db r1)) r1) w,
      Done (list_body (listing t) "database" CACHE_TTL))) \/
  (exists ex, notes.list_notes w = (set_redis r1 w, Raised ex)).
Proof.
  intros Hd Hl r1. destruct (get_notes_dead _ Hd Hl) as (Hg & _ & _ & _).
  destruct (result (db_service.get_all_notes (w_pg w))) as [l|ex] eqn:Er.
  - destruct (get_all_notes_done _ _ Er) as (t & Hpd & Ht & _). left. exists t. split_and!; [done|done|].
    by apply list_notes_miss.
  - right. exists ex. unfold notes.list_notes, st_bind at 1. rewrite on_redis_run, Hg. fold r1. cbv iota.
    unfold st_bind. rewrite on_pg_run. simpl w_pg. rewrite Er, get_all_notes_final. reflexivity.
Qed.

Lemma get_json_py raw v : py_str raw = true -> get_json raw = Some v -> py_json v = true.
Proof.
  unfold get_json. intros Hr. destruct raw as [|c r]; [by apply loads_py|].
  destruct (c =? 65279)%N; apply loads_py; [|exact Hr]. by apply andb_true_iff in Hr as [_ Hr].
Qed.

Lemma dict_get_py k kvs :
  forallb (fun kv => py_str kv.1 && py_json kv.2) kvs = true -> py_json (dict_get k kvs) = true.
Proof.
  unfold dict_get. intros H. destruct (list_find _ kvs) as [[i [k' v]]|] eqn:E; [|done].
  apply list_find_Some in E as (Hi & _ & _). apply list_elem_of_lookup_2, list_elem_of_In in Hi.
  rewrite forallb_forall in H. apply H in Hi. by apply andb_true_iff in Hi as [_ Hv].
Qed.

Lemma or_strip_py v d s : py_json v = true -> py_str d = true -> or_strip v d = Done s -> py_str s = true.
Proof.
  unfold or_strip. intros Hv Hd. destruct (truthy v); [destruct v|]; intros; simplify_eq;
    by apply strip_forallb.
Qed.

Lemma str_or_py a b : py_str a = true -> py_str b = true -> py_str (str_or a b) = true.
Proof. by destruct a. Qed.

(** A write to the store followed by a successful invalidation keeps
    the invariant. *)
Lemma world_inv_invalidate w s' :
  store_wf s' -> ttl_bounded (w_redis w) -> r_down (w_redis w) = None ->
  world_inv (set_redis (set_db (delete NOTES_CACHE_KEY (r_db (w_redis w))) (w_redis w)) (set_pg s' w)).
Proof.
  intros Hwf Hb Hd. split_and!; [done|by apply ttl_bounded_delete|].
  intros e. unfold live_notes. simpl. by rewrite lookup_delete_eq.
Qed.


(** [create_note] keeps the invariant when Redis is reachable. *)
Lemma create_note_inv now body w :
  world_inv w -> r_down (w_redis w) = None -> py_str body = true ->
  world_inv (final (notes.create_note now body w)).
Proof.
  intros Hinv Hd Hb. unfold notes.create_note.
  destruct (get_json body) as [v|] eqn:El; [|exact Hinv].
  pose proof (get_json_py _ _ Hb El) as Hv.
  destruct v as [| | | | | kvs]; try exact Hinv. simpl in Hv.
  destruct (or_strip (dict_get _ kvs) []) as [c|e] eqn:Ec; [|exact Hinv].
  destruct (or_strip (dict_get _ kvs) (lit "Anonymous")) as [a|e] eqn:Ea; [|exact Hinv].
  destruct c as [|c0 cs]; [exact Hinv|].
  unfold st_bind. rewrite on_pg_run.
  assert (Hwf' : store_wf (final (db_service.insert_note now (c0 :: cs) (str_or a (lit "Anonymous")) (w_pg w)))).
  { apply insert_note_wf; [| |apply Hinv].
    - exact (or_strip_py _ [] _ (dict_get_py _ _ Hv) eq_refl Ec).
    - apply str_or_py; [|done]. exact (or_strip_py _ (lit "Anonymous") _ (dict_get_py _ _ Hv) eq_refl Ea). }
  destruct (result (db_service.insert_note _ _ _ _)) as [j|e] eqn:Er.
  - rewrite on_redis_run. simpl w_redis. rewrite (invalidate_notes_run _ Hd). cbn [final result fst snd].
    apply world_inv_invalidate; [done|apply Hinv|done].
  - cbn [final fst]. rewrite (insert_note_raised _ _ _ _ _ Er). by rewrite set_pg_id.
Qed.

(** [delete_note] keeps the invariant when Redis is reachable. *)
Lemma delete_note_inv id w :
  world_inv w -> r_down (w_redis w) = None -> world_inv (final (notes.delete_note id w)).
Proof.
  intros Hinv Hd. unfold notes.delete_note, st_bind. rewrite on_pg_run.
  pose proof (delete_note_wf id (w_pg w) (proj1 Hinv)) as Hwf'.
  destruct (result (db_service.delete_note id (w_pg w))) as [[|]|e] eqn:Er; cbn [negb].
  - rewrite on_redis_run. simpl w_redis. rewrite (invalidate_notes_run _ Hd). cbn [final result fst snd].
    apply world_inv_invalidate; [done|apply Hinv|done].
  - cbn [final fst st_ret]. rewrite delete_note_unchanged by (rewrite Er; discriminate). by rewrite set_pg_id.
  - cbn [final fst]. rewrite delete_note_unchanged by (rewrite Er; discriminate). by rewrite set_pg_id.
Qed.

(** [list_notes] keeps the invariant, whatever the servers' state. *)
Lemma list_notes_inv w : world_inv w -> world_inv (final (notes.list_notes w)).
Proof.
  intros Hinv. destruct (r_down (w_redis w)) as [msg|] eqn:Hd; [by rewrite (list_notes_redis_down _ msg)|].
  destruct (live_notes (w_redis w)) as [e|] eqn:Hl.
  { destruct (list_notes_hit w e Hinv Hd Hl) as (t & texp & Ht & Hx & _ & ->). cbn [final fst].
    destruct Hinv as (Hwf & Hb & Hc). split_and!; [done|by do 2 apply ttl_bounded_count_hit|].
    apply coherent_redis; [|done]. right. reflexivity. }
  destruct (get_notes_dead _ Hd Hl) as (_ & Hl1 & _ & _).
  pose proof (get_notes_keeps _ (proj1 (proj2 Hinv))) as Hb1.
  destruct (list_notes_miss_cases w Hd Hl) as [(t & _ & Ht & ->)|(ex & ->)]; cbn [final fst];
    split_and!; try apply Hinv; try done.
  - apply ttl_bounded_setex.
  - intros e'. simpl w_redis. rewrite live_notes_setex. intros [= <-]. by exists t.
  - intros e'. simpl. by rewrite Hl1.
Qed.

(** A stripped author is stored as it is: [VARCHAR(80)] only cuts
    trailing spaces, and a stripped string has none. *)
Lemma to_varchar80_trimmed s s' : trimmed s = true -> to_varchar80 s = Done s' -> s' = s.
Proof.
  unfold to_varchar80. intros Htr. case_match eqn:L; [by intros [= ->]|].
  case_match eqn:F; [|discriminate]. exfalso. apply Nat.leb_gt in L.
  destruct (drop 80 s) as [|d ds] eqn:Ed; [apply (f_equal length) in Ed; rewrite length_drop in Ed; simpl in Ed; lia|].
  destruct (exists_last (l := d :: ds) ltac:(discriminate)) as (u & x & Eu).
  rewrite Eu, forallb_app in F. apply andb_true_iff in F as [_ F]. cbn [forallb] in F.
  rewrite andb_true_r in F. apply N.eqb_eq in F as <-.
  pose proof (take_drop 80 s) as Hs. rewrite Ed, Eu in Hs.
  destruct s as [|c s0]; [done|]. unfold trimmed in Htr. rewrite <- Hs, app_assoc, List.last_last in Htr.
  by apply andb_true_iff in Htr as [_ Htr].
Qed.

Lemma or_strip_trimmed v d s : or_strip v d = Done s -> trimmed s = true.
Proof. unfold or_strip. destruct (truthy v); [destruct v|]; intros; simplify_eq; apply strip_trimmed. Qed.

Lemma str_or_trimmed a b : trimmed a = true -> trimmed b = true -> trimmed (str_or a b) = true.
Proof. by destruct a. Qed.

Lemma to_varchar80_long a :
  trimmed a = true -> (80 < length a)%nat ->
  to_varchar80 a = Raised (PgDataError (lit "value too long for type character varying(80)")).
Proof.
  intros Htr Hl. destruct (to_varchar80 a) as [a'|e] eqn:Hv.
  - exfalso. pose proof (to_varchar80_trimmed _ _ Htr Hv) as ->. unfold to_varchar80 in Hv.
    destruct (length a <=? 80)%nat eqn:L; [apply Nat.leb_le in L; lia|].
    destruct (forallb _ _); [|discriminate]. injection Hv as Hv.
    apply (f_equal length) in Hv. rewrite length_take in Hv. lia.
  - unfold to_varchar80 in Hv. destruct (length a <=? 80)%nat; [discriminate|].
    destruct (forallb _ _); congruence.
Qed.

Lemma create_note_success now raw w w' r :
  r_down (w_redis w) = None -> pg_down (w_pg w) = None ->
  notes.create_note now raw w = (w', Done r) -> status r = 201 ->
  exists t row, pg_table (w_pg w) = Some t /\ row_id row = pg_seq (w_pg w) + 1 /\ row_created row = now /\
    w_pg w' = set_seq (row_id row) (set_table (<[row_id row := row]> t) (w_pg w)) /\
    w_redis w' = set_db (delete NOTES_CACHE_KEY (r_db (w_redis w))) (w_redis w) /\
    body r = row_json row /\ row_content row <> [] /\
    exists kvs a, get_json raw = Some (JObj kvs) /\
      or_strip (dict_get (lit "content") kvs) [] = Done (row_content row) /\
      or_strip (dict_get (lit "author") kvs) (lit "Anonymous") = Done a /\
      row_author row = str_or a (lit "Anonymous").
Proof.
  intros Hd Hpd. unfold notes.create_note.
  destruct (get_json raw) as [[| | | | | kvs]|] eqn:El; try discriminate.
  destruct (or_strip (dict_get _ kvs) []) as [c|e] eqn:Ec; [|discriminate].
  destruct (or_strip (dict_get _ kvs) (lit "Anonymous")) as [a|e] eqn:Ea; [|discriminate].
  destruct c as [|c0 cs]; [by intros [= <- <-]|].
  unfold st_bind. rewrite on_pg_run.
  destruct (pg_table (w_pg w)) as [t|] eqn:Ht.
  2:{ unfold db_service.insert_note, db_service.get_connection, st_bind. rewrite Hpd, Ht.
      by destruct (adapt_str (c0 :: cs)), (adapt_str (str_or a (lit "Anonymous"))). }
  rewrite (insert_note_run _ t) by done.
  destruct (adapt_str (c0 :: cs)) as [[]|], (adapt_str (str_or a (lit "Anonymous"))) as [[]|]; try discriminate.
  destruct (to_varchar80 (str_or a (lit "Anonymous"))) as [a'|] eqn:Hv; [|discriminate].
  case_cmp; [|discriminate].
  rewrite on_redis_run. simpl w_redis. rewrite invalidate_notes_run by done. cbn [final result fst snd].
  intros [= <- <-] _.
  eexists t, {| row_id := _; row_content := c0 :: cs; row_author := a'; row_created := now |}.
  rewrite (to_varchar80_trimmed _ _ (str_or_trimmed _ (lit "Anonymous") (or_strip_trimmed _ _ _ Ea) eq_refl) Hv).
  split_and!; try reflexivity; [discriminate|by exists kvs, a].
Qed.

Lemma delete_note_present id w t row :
  r_down (w_redis w) = None -> pg_down (w_pg w) = None -> pg_table (w_pg w) = Some t -> t !! id = Some row ->
  notes.delete_note id w =
  (set_redis (set_db (delete NOTES_CACHE_KEY (r_db (w_redis w))) (w_redis w))
             (set_pg (set_table (delete id t) (w_pg w)) w),
   Done (resp 200 [(lit "deleted", JInt id)])).
Proof.
  intros Hd Hpd Ht Hid. unfold notes.delete_note, st_bind. rewrite on_pg_run, (delete_note_run _ t), Hid by done.
  cbn [final result fst snd negb]. rewrite on_redis_run. simpl w_redis. by rewrite invalidate_notes_run.
Qed.

Lemma delete_note_missing id w t :
  pg_down (w_pg w) = None -> pg_table (w_pg w) = Some t -> t !! id = None ->
  notes.delete_note id w = (w, Done (resp 404 [(lit "error", JStr (lit "Note not found"))])).
Proof.
  intros Hpd Ht Hid. unfold notes.delete_note, st_bind.
  rewrite on_pg_run, (delete_note_run _ t), Hid by done. simpl. by rewrite set_pg_id.
Qed.

Lemma or_strip_content v c : or_strip v [] = Done c -> c <> [] -> exists s, v = JStr s /\ c = strip s.
Proof.
  unfold or_strip. destruct (truthy v); [destruct v|]; intros; simplify_eq; eauto.
Qed.

Lemma or_strip_author v a :
  or_strip v (lit "Anonymous") = Done a ->
  (forall s, v = JStr s -> str_or a (lit "Anonymous") = str_or (strip s) (lit "Anonymous")) /\
  (truthy v = false -> str_or a (lit "Anonymous") = lit "Anonymous").
Proof.
  unfold or_strip. destruct (truthy v) eqn:Hv; [destruct v|]; intros Ha; simplify_eq; split; intros; simplify_eq; try done.
  simpl in Hv. apply negb_false_iff, bool_decide_eq_true in Hv as ->. reflexivity.
Qed.

Lemma or_strip_blank v d :
  (truthy v = false \/ exists s, v = JStr s /\ all_space s = true) -> all_space d = true ->
  or_strip v d = Done [].
Proof.
  unfold or_strip. intros [Hf|(s & -> & Hs)] Hd.
  - rewrite Hf. f_equal. by apply strip_nil_iff.
  - destruct (truthy (JStr s)); f_equal; by apply strip_nil_iff.
Qed.

Lemma invalidate_notes_fails_down r msg :
  r_down r = Some msg -> cache_service.invalidate_notes r = (r, Raised (RedisConnectionError msg)).
Proof. intros Hd. unfold cache_service.invalidate_notes, Redis.del, Redis.connect, st_bind. by rewrite Hd. Qed.

Lemma set_down_none r : r_down r = None -> Redis.set_down None r = r.
Proof. destruct r; simpl. by intros ->. Qed.

(** A request that [create_note] answers 201 with both servers up, sent
    while Redis is down: the row is inserted as before, then the
    invalidation raises [ConnectionError]. *)
Lemma create_note_redis_down now raw w w' r msg :
  r_down (w_redis w) = None -> notes.create_note now raw w = (w', Done r) -> status r = 201 ->
  notes.create_note now raw (set_redis (Redis.set_down (Some msg) (w_redis w)) w) =
  (set_pg (w_pg w') (set_redis (Redis.set_down (Some msg) (w_redis w)) w), Raised (RedisConnectionError msg)).
Proof.
  intros Hd. unfold notes.create_note.
  destruct (get_json raw) as [[| | | | | kvs]|]; try discriminate.
  destruct (or_strip _ []) as [c|ex]; [|discriminate].
  destruct (or_strip _ (lit "Anonymous")) as [a|ex]; [|discriminate].
  destruct c as [|c0 cs]; [by intros [= <- <-]|].
  unfold st_bind. rewrite !on_pg_run. cbn [w_pg set_redis].
  destruct (db_service.insert_note now (c0 :: cs) (str_or a (lit "Anonymous")) (w_pg w)) as [s' [j|ex]];
    cbn [final result fst snd]; [|discriminate].
  rewrite !on_redis_run. cbn [w_redis set_pg]. rewrite invalidate_notes_run by done.
  rewrite (invalidate_notes_fails_down _ msg) by reflexivity. cbn [final result fst snd]. intros [= <- _] _. reflexivity.
Qed.

(** A row drawn from the sequence is not among the stored ones. *)
Lemma fresh_row_absent s t row :
  store_wf s -> pg_table s = Some t -> row_id row = pg_seq s + 1 ->
  t !! row_id row = None /\ row_json row ∉ map row_json (sorted_rows t).
Proof.
  intros [_ Hrows] Ht Hid. rewrite Ht in Hrows. split.
  - destruct (t !! row_id row) as [r'|] eqn:E; [|done]. destruct (Hrows _ _ E) as (_ & [_ Hle] & _). lia.
  - intros Hin. apply list_elem_of_In, in_map_iff in Hin as (r' & Hj & Hin).
    apply list_elem_of_In, elem_of_sorted_rows in Hin as (id & Hr').
    destruct (Hrows _ _ Hr') as (Hri & [_ Hle] & _). unfold row_json in Hj. injection Hj as Hj. lia.
Qed.

(** Every answer of [list_notes] under the invariant: the current
    listing, from the database or from the cache. *)
Lemma list_notes_answers w r :
  world_inv w -> result (notes.list_notes w) = Done r ->
  exists t, pg_table (w_pg w) = Some t /\
    (r = list_body (listing t) "database" CACHE_TTL \/
     exists ttl, (0 <= ttl <= CACHE_TTL)%Z /\ r = list_body (listing t) "cache" ttl).
Proof.
  intros Hinv. destruct (r_down (w_redis w)) as [msg|] eqn:Hd; [by rewrite (list_notes_redis_down _ msg)|].
  destruct (live_notes (w_redis w)) as [e|] eqn:Hl.
  - destruct (list_notes_hit w e Hinv Hd Hl) as (t & texp & Ht & _ & Hle & ->). intros [= <-].
    exists t. split; [done|]. right. eexists; split; [by apply ttl_round_bound|reflexivity].
  - destruct (list_notes_miss_cases w Hd Hl) as [(t & _ & Ht & ->)|(ex & ->)]; [|discriminate].
    intros [= <-]. exists t. auto.
Qed.

Lemma ex_world_inv : world_inv ex_world.
Proof.
  split_and!; [exact ex_pg_wf| |].
  - intros e. simpl. by rewrite lookup_empty.
  - intros e. unfold live_notes. simpl. by rewrite lookup_empty.
Qed.

Lemma ex_cached_world_inv : world_inv ex_cached_world.
Proof.
  split_and!; [exact ex_pg_wf| |].
  - intros e. simpl. rewrite lookup_singleton_eq. intros [= <-]. eexists; split; [reflexivity|]. unfold CACHE_TTL. simpl. lia.
  - intros e. unfold live_notes. simpl. rewrite lookup_singleton_eq. simpl. intros [= <-]. by exists ex_table.
Qed.

(** ** Theorems *)

(** C1: cache-aside reads are correct.  In a world satisfying the
    invariant, every successful [list_notes] answers the current rows of
    the store, newest first: either from the database with
    [cache_ttl = CACHE_TTL], or from the cache with a [cache_ttl] between
    0 and [CACHE_TTL] seconds. *)
Theorem list_notes_sound w r :
  world_inv w -> result (notes.list_notes w) = Done r ->
  exists t, pg_table (w_pg w) = Some t /\
    (r = list_body (listing t) "database" CACHE_TTL \/
     exists ttl, (0 <= ttl <= CACHE_TTL)%Z /\ r = list_body (listing t) "cache" ttl).
Proof. apply list_notes_answers. Qed.

(** C2: read-your-writes.  After [create_note] answers 201 (both
    servers up), the note it returns is a row of the store, and the next
    [list_notes] answers the whole current listing, from the database. *)
Theorem create_note_then_list now raw w w' r :
  r_down (w_redis w) = None -> pg_down (w_pg w) = None ->
  notes.create_note now raw w = (w', Done r) -> status r = 201 ->
  exists t, pg_table (w_pg w') = Some t /\ body r ∈ map row_json (sorted_rows t) /\
    result (notes.list_notes w') = Done (list_body (listing t) "database" CACHE_TTL).
Proof.
  intros Hd Hpd Hc Hs. destruct (create_note_success _ _ _ _ _ Hd Hpd Hc Hs)
    as (t & row & Ht & _ & _ & Hpg & Hr & -> & _ & _).
  exists (<[row_id row := row]> t). split_and!.
  - by rewrite Hpg.
  - apply list_elem_of_fmap_2, elem_of_sorted_rows. exists (row_id row). apply lookup_insert_eq.
  - rewrite (list_notes_miss w' (<[row_id row := row]> t)); [done|by rewrite Hr| |by rewrite Hpg|by rewrite Hpg].
    rewrite Hr. unfold live_notes. simpl. by rewrite lookup_delete_eq.
Qed.

(** C13: after [delete_note] answers 200 (both servers up), the row is
    gone and the next [list_notes] answers the current listing from the
    database. *)
Theorem delete_note_then_list id w w' r :
  r_down (w_redis w) = None -> pg_down (w_pg w) = None ->
  notes.delete_note id w = (w', Done r) -> status r = 200 ->
  exists t, pg_table (w_pg w') = Some t /\ t !! id = None /\
    result (notes.list_notes w') = Done (list_body (listing t) "database" CACHE_TTL).
Proof.
  intros Hd Hpd. destruct (pg_table (w_pg w)) as [t|] eqn:Ht.
  2:{ unfold notes.delete_note, st_bind. rewrite on_pg_run.
      unfold db_service.delete_note, db_service.get_connection, db_service.notes_table, st_bind.
      by rewrite Hpd, Ht. }
  destruct (t !! id) as [row|] eqn:Hid; [|by rewrite (delete_note_missing id w t); [intros [= _ <-]| | |]].
  rewrite (delete_note_present id w t row) by done. intros [= <- <-] _.
  exists (delete id t). split_and!; [done|apply lookup_delete_eq|].
  rewrite (list_notes_miss _ (delete id t)); [done|done| |done|done].
  unfold live_notes. simpl. by rewrite lookup_delete_eq.
Qed.

(** C5: the invariant (store well formed, cached key expiring within
    [CACHE_TTL], a live cached list equal to the current listing) holds
    after every request as Flask runs it: [list_notes] always,
    [create_note] and [delete_note] whenever Redis is reachable. *)
Theorem handlers_keep_world_inv w :
  world_inv w ->
  world_inv (final (flask_dispatch notes.list_notes w)) /\
  (r_down (w_redis w) = None -> forall now raw, py_str raw = true ->
     world_inv (final (flask_dispatch (notes.create_note now raw) w))) /\
  (r_down (w_redis w) = None -> forall id, world_inv (final (flask_dispatch (notes.delete_note id) w))).
Proof.
  intros Hinv. split_and!; [|intros Hd now raw Hr|intros Hd id]; rewrite flask_final.
  - by apply list_notes_inv.
  - by apply create_note_inv.
  - by apply delete_note_inv.
Qed.

(** C18: with both servers up, [list_notes] succeeds and answers the
    current listing. *)
Theorem list_notes_current w t :
  world_inv w -> r_down (w_redis w) = None -> pg_down (w_pg w) = None -> pg_table (w_pg w) = Some t ->
  exists src ttl, result (notes.list_notes w) = Done (list_body (listing t) src ttl).
Proof.
  intros Hinv Hd Hpd Ht. destruct (live_notes (w_redis w)) as [e|] eqn:Hl.
  - destruct (list_notes_hit w e Hinv Hd Hl) as (t' & texp & Ht' & _ & _ & ->).
    rewrite Ht in Ht'. injection Ht' as <-. eauto.
  - rewrite (list_notes_miss w t) by done. eauto.
Qed.

(** C16: a write whose invalidation fails leaves a stale cache.  Take
    a coherent world with the notes cached and any request that
    [create_note] answers 201 there.  Sent while Redis is down, the
    request commits the row and answers 500; once Redis is back,
    [list_notes] answers the cached listing, which lacks the committed
    note, although the store holds it. *)
Theorem failed_invalidation_serves_stale now raw msg w w' r e :
  world_inv w -> r_down (w_redis w) = None -> pg_down (w_pg w) = None -> live_notes (w_redis w) = Some e ->
  notes.create_note now raw w = (w', Done r) -> status r = 201 ->
  let w1 := set_redis (Redis.set_down (Some msg) (w_redis w)) w in
  let w2 := final (flask_dispatch (notes.create_note now raw) w1) in
  let w3 := set_redis (Redis.set_down None (w_redis w2)) w2 in
  result (flask_dispatch (notes.create_note now raw) w1) = Done (error_page 500) /\
  exists t row ttl, pg_table (w_pg w) = Some t /\ body r = row_json row /\
    pg_table (w_pg w3) = Some (<[row_id row := row]> t) /\ t !! row_id row = None /\
    result (notes.list_notes w3) = Done (list_body (listing t) "cache" ttl) /\
    body r ∉ map row_json (sorted_rows t).
Proof.
  intros Hinv Hd Hpd Hl Hc Hs w1 w2 w3.
  destruct (create_note_success _ _ _ _ _ Hd Hpd Hc Hs) as (t & row & Ht & Hid & _ & Hpg & _ & Hb & _).
  assert (E1 : flask_dispatch (notes.create_note now raw) w1 = (set_pg (w_pg w') w1, Done (error_page 500))).
  { unfold flask_dispatch. subst w1. by rewrite (create_note_redis_down _ _ _ _ _ msg Hd Hc Hs). }
  assert (Hw3 : w3 = set_pg (w_pg w') w).
  { subst w3 w2. rewrite E1. subst w1. cbn [final fst w_redis set_pg set_redis].
    change (Redis.set_down None (Redis.set_down (Some msg) (w_redis w))) with (Redis.set_down None (w_redis w)).
    rewrite set_down_none by done. by destruct w. }
  split; [by rewrite E1|].
  destruct Hinv as (Hwf & Hbd & Hcoh). destruct (Hcoh e Hl) as (t0 & Ht0 & Hv).
  rewrite Ht in Ht0. injection Ht0 as <-.
  assert (He : r_db (w_redis w) !! NOTES_CACHE_KEY = Some e).
  { unfold live_notes in Hl. destruct (r_db _ !! _); [|discriminate]. by destruct (expired _ _); inversion Hl. }
  destruct (Hbd e He) as (texp & Hx & _).
  destruct (fresh_row_absent _ _ row Hwf Ht Hid) as [Hfresh Hnot].
  eexists t, row, _. rewrite Hb, Hw3. split_and!; [done|done| |done| |done].
  - rewrite Hpg. reflexivity.
  - by rewrite (list_notes_hit_value _ e (w_pg w) t texp).
Qed.

(** C23: a 201 from [create_note] stores what the request asked for: the
    content is the stripped [content] string (never empty), the author
    the stripped [author] string or ["Anonymous"] when that is empty or
    falsy, and the response body is the stored row. *)
Theorem create_note_stores_request now raw w w' r kvs :
  r_down (w_redis w) = None -> pg_down (w_pg w) = None -> get_json raw = Some (JObj kvs) ->
  notes.create_note now raw w = (w', Done r) -> status r = 201 ->
  exists t row, pg_table (w_pg w') = Some t /\ t !! row_id row = Some row /\ body r = row_json row /\
    (exists c, dict_get (lit "content") kvs = JStr c /\ row_content row = strip c /\ row_content row <> []) /\
    (forall a, dict_get (lit "author") kvs = JStr a -> row_author row = str_or (strip a) (lit "Anonymous")) /\
    (truthy (dict_get (lit "author") kvs) = false -> row_author row = lit "Anonymous").
Proof.
  intros Hd Hpd El Hc Hs. destruct (create_note_success _ _ _ _ _ Hd Hpd Hc Hs)
    as (t & row & _ & _ & _ & Hpg & _ & Hb & Hne & kvs' & a & El' & Ec & Ea & Hra).
  rewrite El in El'. injection El' as <-.
  exists (<[row_id row := row]> t), row. rewrite Hpg. split_and!; [done|apply lookup_insert_eq|done| | |].
  - destruct (or_strip_content _ _ Ec Hne) as (c & Hc' & Hrc). by exists c.
  - intros a' Ha'. rewrite Hra. exact (proj1 (or_strip_author _ _ Ea) a' Ha').
  - intros Hf. rewrite Hra. exact (proj2 (or_strip_author _ _ Ea) Hf).
Qed.

(** C24: a missing, falsy or blank [content] is answered 400 "content is
    required" with the world unchanged (once [author] has been read
    without error). *)
Theorem create_note_blank_content now raw w kvs a :
  get_json raw = Some (JObj kvs) ->
  (truthy (dict_get (lit "content") kvs) = false \/
   exists s, dict_get (lit "content") kvs = JStr s /\ all_space s = true) ->
  or_strip (dict_get (lit "author") kvs) (lit "Anonymous") = Done a ->
  notes.create_note now raw w = (w, Done (resp 400 [(lit "error", JStr (lit "content is required"))])).
Proof.
  intros El Hc Ha. unfold notes.create_note. rewrite El, or_strip_blank, Ha by done. reflexivity.
Qed.

(** C25: deleting an id that is not in the table answers 404 and
    changes nothing, not even the cache. *)
Theorem delete_note_absent id w t :
  pg_down (w_pg w) = None -> pg_table (w_pg w) = Some t -> t !! id = None ->
  notes.delete_note id w = (w, Done (resp 404 [(lit "error", JStr (lit "Note not found"))])).
Proof. apply delete_note_missing. Qed.

(** A body that is not JSON is answered 400 by Flask, and nothing
    is written. *)
Theorem create_note_bad_json now raw w :
  get_json raw = None -> flask_dispatch (notes.create_note now raw) w = (w, Done (error_page 400)).
Proof. intros El. unfold flask_dispatch, notes.create_note. by rewrite El.
Qed.

(** C34: an author longer than 80 characters after stripping fails the
    [VARCHAR(80)] column: the request answers 500 and nothing is written
    (the specification does not mention the limit). *)
Theorem create_note_long_author now raw w kvs c a :
  pg_down (w_pg w) = None -> pg_table (w_pg w) <> None ->
  get_json raw = Some (JObj kvs) ->
  or_strip (dict_get (lit "content") kvs) [] = Done c -> c <> [] -> adapt_str c = Done tt ->
  or_strip (dict_get (lit "author") kvs) (lit "Anonymous") = Done a -> adapt_str a = Done tt ->
  (80 < length a)%nat ->
  flask_dispatch (notes.create_note now raw) w = (w, Done (error_page 500)).
Proof.
  intros Hpd Ht El Ec Hc Hac Ea Haa Hl. destruct (pg_table (w_pg w)) as [t|] eqn:Ht'; [|done].
  assert (Hsa : str_or a (lit "Anonymous") = a) by (destruct a; [simpl in Hl; lia|done]).
  pose proof (to_varchar80_long a (or_strip_trimmed _ _ _ Ea) Hl) as He.
  unfold flask_dispatch, notes.create_note. rewrite El, Ec, Ea, Hsa.
  destruct c as [|c0 cs]; [congruence|]. unfold st_bind. rewrite on_pg_run, (insert_note_run _ t) by done.
  rewrite Hac, Haa, He. simpl. by rewrite set_pg_id.
Qed.

(** C35: a cache hit in the last half second of the key reports
    [cache_ttl = 0], although the key is still live: Redis rounds the
    remaining milliseconds to the nearest second.  For every coherent
    world whose notes key has less than 500 ms left, [list_notes]
    answers the current listing from the cache with [cache_ttl = 0]. *)
Theorem list_notes_zero_ttl w e texp :
  world_inv w -> r_down (w_redis w) = None -> live_notes (w_redis w) = Some e -> re_expire e = Some texp ->
  (texp - r_now (w_redis w) < 500)%Z ->
  exists t, pg_table (w_pg w) = Some t /\ result (notes.list_notes w) = Done (list_body (listing t) "cache" 0).
Proof.
  intros Hinv Hd Hl Hx Hlt. destruct (list_notes_hit w e Hinv Hd Hl) as (t & texp' & Ht & Hx' & _ & ->).
  rewrite Hx in Hx'. injection Hx' as <-. exists t. split; [done|].
  cbn [result snd]. do 3 f_equal. apply Z.div_small. lia.
Qed.

(** ** Witnesses *)

Lemma list_notes_sound_witness :
  exists t, pg_table (w_pg ex_cached_world) = Some t /\
    (list_body (listing ex_table) "cache" 0 = list_body (listing t) "database" CACHE_TTL \/
     exists ttl, (0 <= ttl <= CACHE_TTL)%Z /\ list_body (listing ex_table) "cache" 0 = list_body (listing t) "cache" ttl).
Proof.
  apply list_notes_sound; [exact ex_cached_world_inv|vm_compute; reflexivity].
Defined.

Lemma create_note_then_list_witness :
  exists t, pg_table (w_pg (final (notes.create_note 0 ex_post ex_world))) = Some t /\
    body ex_created ∈ map row_json (sorted_rows t) /\
    result (notes.list_notes (final (notes.create_note 0 ex_post ex_world))) =
    Done (list_body (listing t) "database" CACHE_TTL).
Proof.
  apply (create_note_then_list 0 ex_post ex_world _ ex_created); [reflexivity|reflexivity|vm_compute; reflexivity|reflexivity].
Defined.

Lemma delete_note_then_list_witness :
  exists t, pg_table (w_pg (final (notes.delete_note 1 ex_world))) = Some t /\ t !! 1 = None /\
    result (notes.list_notes (final (notes.delete_note 1 ex_world))) = Done (list_body (listing t) "database" CACHE_TTL).
Proof.
  apply (delete_note_then_list 1 ex_world _ (resp 200 [(lit "deleted", JInt 1)]));
    [reflexivity|reflexivity|vm_compute; reflexivity|reflexivity].
Defined.

Lemma handlers_keep_world_inv_witness :
  world_inv (final (flask_dispatch notes.list_notes ex_world)) /\
  (r_down (w_redis ex_world) = None -> forall now raw, py_str raw = true ->
     world_inv (final (flask_dispatch (notes.create_note now raw) ex_world))) /\
  (r_down (w_redis ex_world) = None -> forall id, world_inv (final (flask_dispatch (notes.delete_note id) ex_world))).
Proof. apply handlers_keep_world_inv. exact ex_world_inv. Defined.

Lemma list_notes_current_witness :
  exists src ttl, result (notes.list_notes ex_world) = Done (list_body (listing ex_table) src ttl).
Proof. apply list_notes_current; [exact ex_world_inv|reflexivity|reflexivity|reflexivity]. Defined.

Lemma create_note_stores_request_witness :
  exists t row, pg_table (w_pg (final (notes.create_note 0 ex_post ex_world))) = Some t /\ t !! row_id row = Some row /\
    body ex_created = row_json row /\
    (exists c, dict_get (lit "content") [(lit "content", JStr (lit "hi"))] = JStr c /\ row_content row = strip c /\
               row_content row <> []) /\
    (forall a, dict_get (lit "author") [(lit "content", JStr (lit "hi"))] = JStr a ->
               row_author row = str_or (strip a) (lit "Anonymous")) /\
    (truthy (dict_get (lit "author") [(lit "content", JStr (lit "hi"))]) = false -> row_author row = lit "Anonymous").
Proof.
  apply (create_note_stores_request 0 ex_post ex_world _ ex_created);
    [reflexivity|reflexivity|vm_compute; reflexivity|vm_compute; reflexivity|reflexivity].
Defined.

Lemma create_note_blank_content_witness :
  notes.create_note 0 ex_post_blank ex_world = (ex_world, Done (resp 400 [(lit "error", JStr (lit "content is required"))])).
Proof.
  apply (create_note_blank_content 0 ex_post_blank ex_world [(lit "content", JStr (lit "  "))] (lit "Anonymous")).
  - vm_compute. reflexivity.
  - right. exists (lit "  "). split; reflexivity.
  - vm_compute. reflexivity.
Defined.

Lemma delete_note_absent_witness :
  notes.delete_note 7 ex_world = (ex_world, Done (resp 404 [(lit "error", JStr (lit "Note not found"))])).
Proof. apply (delete_note_absent 7 ex_world ex_table); reflexivity. Defined.

Lemma create_note_bad_json_witness :
  flask_dispatch (notes.create_note 0 (lit "oops")) ex_world = (ex_world, Done (error_page 400)).
Proof. apply create_note_bad_json. vm_compute. reflexivity. Defined.

(** The cached world with Redis down during [POST /notes] with
    [{"content": "hi"}]. *)
Lemma failed_invalidation_serves_stale_witness :
  let w1 := set_redis (Redis.set_down (Some (lit "Connection refused")) (w_redis ex_cached_world)) ex_cached_world in
  let w2 := final (flask_dispatch (notes.create_note 0 ex_post) w1) in
  let w3 := set_redis (Redis.set_down None (w_redis w2)) w2 in
  result (flask_dispatch (notes.create_note 0 ex_post) w1) = Done (error_page 500) /\
  exists t row ttl, pg_table (w_pg ex_cached_world) = Some t /\ body ex_created = row_json row /\
    pg_table (w_pg w3) = Some (<[row_id row := row]> t) /\ t !! row_id row = None /\
    result (notes.list_notes w3) = Done (list_body (listing t) "cache" ttl) /\
    body ex_created ∉ map row_json (sorted_rows t).
Proof.
  apply (failed_invalidation_serves_stale 0 ex_post (lit "Connection refused") ex_cached_world
           (final (notes.create_note 0 ex_post ex_cached_world)) ex_created
           {| re_value := dumps (listing ex_table); re_expire := Some 400 |});
    [exact ex_cached_world_inv|reflexivity|reflexivity|reflexivity|vm_compute; reflexivity|reflexivity].
Defined.

(** The cached world: 400 ms left. *)
Lemma list_notes_zero_ttl_witness :
  exists t, pg_table (w_pg ex_cached_world) = Some t /\
    result (notes.list_notes ex_cached_world) = Done (list_body (listing t) "cache" 0).
Proof.
  apply (list_notes_zero_ttl ex_cached_world {| re_value := dumps (listing ex_table); re_expire := Some 400 |} 400);
    [exact ex_cached_world_inv|reflexivity|reflexivity|reflexivity|simpl; lia].
Defined.

Lemma create_note_long_author_witness :
  flask_dispatch (notes.create_note 0 ex_post_long) ex_world = (ex_world, Done (error_page 500)).
Proof.
  apply (create_note_long_author 0 ex_post_long ex_world
           [(lit "content", JStr (lit "hi")); (lit "author", JStr (replicate 81 97%N))] (lit "hi") (replicate 81 97%N));
    (discriminate || vm_compute; reflexivity || lia).
Defined.
