(* ===== verification/Contract.v ===== *)
(** * Contract: the Cache contract of the spec and cache-aside over it

    Section 4.2 of the spec states what the cache promises the notes
    service: [get] answers the snapshot or nothing, [put] overwrites it,
    [invalidate] and [flush_all] remove it, [remaining_ttl] is at most
    the configured TTL while a snapshot is present, and every operation
    fails when the server cannot be reached.  [CacheOps] is that
    interface on a cache state [C], [c_snapshot] the snapshot a state
    holds; [CacheLaws] are the promises, under an invariant [inv] of the
    implementation.

    [cache_aside_list] is section 4.3's [list_notes] written against the
    interface, on a state pairing the store with any cache; its
    correctness ([cache_aside_current]) is proved from the laws alone.
    The Redis-backed [cache_service] is an instance: its laws are proved
    from the Redis model ([redis_cache_laws]). *)

From S2P Require Import Spec2Rocq Json Store Cache App Notes.

(** ** The interface *)

Class CacheOps (C : Type) := {
  c_up : C -> bool;
  c_snapshot : C -> option (list json);
  c_get : st C json;
  c_put : list json -> st C unit;
  c_ttl : st C Z;
  c_invalidate : st C unit;
  c_flush : st C unit
}.

(** What [get] answers for a snapshot: the list, or [None]. *)
Definition from_snapshot (o : option (list json)) : json :=
  match o with Some l => JArr l | None => JNull end.

(** An operation that succeeds with [a] on a reachable cache and leaves
    it reachable, satisfying [inv], with the snapshot [snap]. *)
Definition op_ok {C A} `{CacheOps C} (inv : C -> Prop) (c : st C A) (s : C) (a : A)
    (snap : option (list json)) : Prop :=
  result (c s) = Done a /\ c_snapshot (final (c s)) = snap /\ inv (final (c s)) /\ c_up (final (c s)) = true.

(** An operation on an unreachable cache raises and changes nothing. *)
Definition op_down {C A} (c : st C A) (s : C) : Prop :=
  exists e, c s = (s, Raised e).

Class CacheLaws (C : Type) `{CacheOps C} (inv : C -> Prop) : Prop := {
  get_law : forall s, inv s -> c_up s = true -> op_ok inv c_get s (from_snapshot (c_snapshot s)) (c_snapshot s);
  put_law : forall s l, inv s -> c_up s = true -> wf_json (JArr l) = true -> op_ok inv (c_put l) s tt (Some l);
  ttl_law : forall s, inv s -> c_up s = true ->
    exists t, op_ok inv c_ttl s t (c_snapshot s) /\ (c_snapshot s <> None -> (0 <= t <= CACHE_TTL)%Z);
  invalidate_law : forall s, inv s -> c_up s = true -> op_ok inv c_invalidate s tt None;
  flush_law : forall s, inv s -> c_up s = true -> op_ok inv c_flush s tt None;
  down_law : forall s, c_up s = false ->
    op_down c_get s /\ op_down c_ttl s /\ op_down c_invalidate s /\ op_down c_flush s /\
    forall l, op_down (c_put l) s
}.

(** ** Cache-aside against the interface *)

Section cache_aside.

Context {C : Type} `{CacheOps C}.

Definition on_store {A} (c : st pg A) : st (pg * C) A := st_focus fst (fun p s => (p, s.2)) c.
Definition on_cache {A} (c : st C A) : st (pg * C) A := st_focus snd (fun k s => (s.1, k)) c.

(** Section 4.3, [list_notes()]. *)
Definition cache_aside_list : st (pg * C) response :=
  do cached <- on_cache c_get ;
  match cached with
  | JNull =>
      do notes <- on_store db_service.get_all_notes ;
      on_cache (c_put notes) ;;
      st_ret (list_body (JArr notes) "database" CACHE_TTL)
  | _ =>
      do ttl <- on_cache c_ttl ;
      st_ret (list_body cached "cache" ttl)
  end.

(** The snapshot, when there is one, is the current listing. *)
Definition snapshot_current (s : pg * C) : Prop :=
  forall l, c_snapshot s.2 = Some l -> exists t, pg_table s.1 = Some t /\ JArr l = listing t.

End cache_aside.

(** ** The Redis-backed cache of cache_service.py *)

(** The snapshot Redis holds: the live value of the key, decoded. *)
Definition redis_snapshot (r : redis) : option (list json) :=
  match live_notes r with
  | Some e => match loads (re_value e) with Some (JArr l) => Some l | _ => None end
  | None => None
  end.

(** The live value is the encoding of a list of well-formed values. *)
Definition redis_inv (r : redis) : Prop :=
  ttl_bounded r /\
  forall e, live_notes r = Some e -> exists l, wf_json (JArr l) = true /\ re_value e = dumps (JArr l).

#[export] Instance redis_cache_ops : CacheOps redis := {
  c_up r := bool_decide (r_down r = None);
  c_snapshot := redis_snapshot;
  c_get := cache_service.get_notes;
  c_put := cache_service.set_notes;
  c_ttl := cache_service.get_notes_ttl;
  c_invalidate := cache_service.invalidate_notes;
  c_flush := cache_service.flush_all
}.

(** ** Lemmas: the Redis-backed cache keeps the contract *)

(** Expose the Redis meaning of the interface's projections in a law. *)
Ltac redis_law_unfold :=
  unfold op_ok in *; change (@c_snapshot redis _) with redis_snapshot in *;
  change (@c_up redis _) with (fun r => bool_decide (r_down r = None)) in *; cbv beta in *.

Lemma dumps_decode v : wf_json v = true ->
  match dumps v with
  | [] => Done JNull
  | s => match loads s with Some v' => Done v' | None => Raised JSONDecodeError end
  end = Done v.
Proof.
  intros Hwf. destruct (dumps v) as [|c t] eqn:E; [by apply dumps_nonempty in E|].
  cbn -[loads]. by rewrite <- E, loads_dumps_wf.
Qed.

Lemma redis_snapshot_live r e l :
  live_notes r = Some e -> re_value e = dumps (JArr l) -> wf_json (JArr l) = true -> redis_snapshot r = Some l.
Proof. intros Hl Hv Hwf. unfold redis_snapshot. by rewrite Hl, Hv, loads_dumps_wf. Qed.

Lemma redis_snapshot_dead r : live_notes r = None -> redis_snapshot r = None.
Proof. unfold redis_snapshot. by intros ->. Qed.

Lemma redis_inv_dead r : ttl_bounded r -> live_notes r = None -> redis_inv r.
Proof. intros Hb Hl. split; [done|]. intros e. by rewrite Hl. Qed.

Lemma get_notes_ttl_live_same r :
  r_down r = None -> live_notes (final (cache_service.get_notes_ttl r)) = live_notes r /\
  r_down (final (cache_service.get_notes_ttl r)) = r_down r.
Proof.
  intros Hd. unfold cache_service.get_notes_ttl, Redis.ttl, Redis.lookup_read, Redis.connect, st_bind.
  rewrite Hd, lookup_write_run. unfold live_notes.
  destruct (r_db r !! NOTES_CACHE_KEY) as [e|] eqn:He; [destruct (expired (r_now r) e) eqn:Hx|];
    simpl; rewrite ?lookup_delete_eq, ?He, ?Hx; done.
Qed.

Lemma flush_all_run r : r_down r = None -> cache_service.flush_all r = (set_db ∅ r, Done tt).
Proof. intros Hd. unfold cache_service.flush_all, Redis.flushdb, Redis.connect, st_bind. by rewrite Hd. Qed.

Lemma redis_get_law r : redis_inv r -> c_up r = true ->
  op_ok redis_inv cache_service.get_notes r (from_snapshot (redis_snapshot r)) (redis_snapshot r).
Proof.
  redis_law_unfold.
  intros [Hb Hc] Hup. apply bool_decide_eq_true in Hup.
  destruct (live_notes r) as [e|] eqn:Hl.
  + destruct (Hc e eq_refl) as (l & Hwf & Hv).
    rewrite (get_notes_live r e Hup Hl), (redis_snapshot_live r e l Hl Hv Hwf), Hv.
    cbn [result final fst snd]. rewrite dumps_decode by done.
    split_and!; [done| |split; [by apply ttl_bounded_count_hit|]|by apply bool_decide_eq_true].
    * by apply (redis_snapshot_live _ e).
    * intros e0 He0. rewrite live_notes_count_hit, Hl in He0. injection He0 as <-. eauto.
  + destruct (get_notes_dead r Hup Hl) as (Hr & Hl' & _ & Hd').
    rewrite Hr, (redis_snapshot_dead r Hl), (redis_snapshot_dead _ Hl').
    split_and!; [done|done| |by apply bool_decide_eq_true; rewrite Hd'].
    apply redis_inv_dead; [by apply get_notes_keeps|done].
Qed.

Lemma redis_put_law r l : redis_inv r -> c_up r = true -> wf_json (JArr l) = true ->
  op_ok redis_inv (cache_service.set_notes l) r tt (Some l).
Proof.
  redis_law_unfold.
  intros [Hb Hc] Hup Hwf. apply bool_decide_eq_true in Hup.
  rewrite set_notes_run by done. cbn [result final fst snd].
  split_and!; [done| | |by apply bool_decide_eq_true].
  + eapply redis_snapshot_live; [apply live_notes_setex|done|done].
  + split; [apply ttl_bounded_setex|]. rewrite live_notes_setex. intros e [= <-]. eauto.
Qed.

Lemma redis_ttl_law r : redis_inv r -> c_up r = true ->
  exists t, op_ok redis_inv cache_service.get_notes_ttl r t (redis_snapshot r) /\
    (redis_snapshot r <> None -> (0 <= t <= CACHE_TTL)%Z).
Proof.
  redis_law_unfold.
  intros [Hb Hc] Hup. apply bool_decide_eq_true in Hup.
  destruct (live_notes r) as [e|] eqn:Hl.
  + destruct (Hb e) as (t & Ht & Hle).
    { unfold live_notes in Hl. destruct (r_db r !! NOTES_CACHE_KEY); [|discriminate].
      by destruct (expired _ _); inversion Hl. }
    destruct (Hc e eq_refl) as (l & Hwf & Hv).
    rewrite (get_notes_ttl_live r e t Hup Hl Ht). eexists. cbn [result final fst snd].
    split; [split_and!; [done| |split; [by apply ttl_bounded_count_hit|]|by apply bool_decide_eq_true]|].
    * rewrite (redis_snapshot_live r e l Hl Hv Hwf). apply (redis_snapshot_live _ e); [|done..].
      by rewrite live_notes_count_hit.
    * intros e0 He0. rewrite live_notes_count_hit, Hl in He0. injection He0 as <-. eauto.
    * intros _. by apply ttl_round_bound.
  + destruct (get_notes_ttl_live_same r Hup) as [Hs Hs']. rewrite Hl in Hs.
    destruct (cache_service.get_notes_ttl r) as [r' [t|ex]] eqn:E.
    * exists t. cbn [result final fst snd] in *. rewrite (redis_snapshot_dead r Hl), (redis_snapshot_dead r' Hs).
      split; [|done]. split_and!; [done|done| |].
      -- apply redis_inv_dead; [|done]. pose proof (get_notes_ttl_keeps r Hb) as Hk. by rewrite E in Hk.
      -- apply bool_decide_eq_true. simpl in Hs'. by rewrite Hs'.
    * exfalso. revert E. unfold cache_service.get_notes_ttl, Redis.ttl, Redis.lookup_read, Redis.connect, st_bind.
      rewrite Hup, lookup_write_run. repeat case_match; discriminate.
Qed.

Lemma redis_invalidate_law r : redis_inv r -> c_up r = true -> op_ok redis_inv cache_service.invalidate_notes r tt None.
Proof.
  redis_law_unfold.
  intros [Hb Hc] Hup. apply bool_decide_eq_true in Hup. rewrite invalidate_notes_run by done.
  cbn [result final fst snd]. assert (Hl : live_notes (set_db (delete NOTES_CACHE_KEY (r_db r)) r) = None).
  { unfold live_notes. simpl. by rewrite lookup_delete_eq. }
  split_and!; [done|by apply redis_snapshot_dead|apply redis_inv_dead; [by apply ttl_bounded_delete|done]|].
  by apply bool_decide_eq_true.
Qed.

Lemma redis_flush_law r : redis_inv r -> c_up r = true -> op_ok redis_inv cache_service.flush_all r tt None.
Proof.
  redis_law_unfold.
  intros [Hb Hc] Hup. apply bool_decide_eq_true in Hup. rewrite flush_all_run by done.
  cbn [result final fst snd]. assert (Hl : live_notes (set_db ∅ r) = None).
  { unfold live_notes. simpl. by rewrite lookup_empty. }
  split_and!; [done|by apply redis_snapshot_dead| |by apply bool_decide_eq_true].
  apply redis_inv_dead; [|done]. intros e. simpl. by rewrite lookup_empty.
Qed.

Lemma redis_down_law r : c_up r = false ->
  op_down cache_service.get_notes r /\ op_down cache_service.get_notes_ttl r /\
  op_down cache_service.invalidate_notes r /\ op_down cache_service.flush_all r /\
  forall l, op_down (cache_service.set_notes l) r.
Proof.
  redis_law_unfold.
  intros Hup. destruct (r_down r) as [m|] eqn:Hd; [|by rewrite bool_decide_eq_true_2 in Hup].
  unfold op_down. split_and!; try intros l; exists (RedisConnectionError m);
  unfold cache_service.get_notes, cache_service.get_notes_ttl, cache_service.invalidate_notes,
    cache_service.flush_all, cache_service.set_notes, Redis.get, Redis.ttl, Redis.del, Redis.flushdb,
    Redis.setex, Redis.lookup_read, Redis.connect, st_bind; by rewrite Hd.
Qed.

Lemma redis_cache_laws : CacheLaws redis redis_inv.
Proof.
  split; [exact redis_get_law|exact redis_put_law|exact redis_ttl_law|exact redis_invalidate_law
         |exact redis_flush_law|exact redis_down_law].
Qed.

#[export] Instance redis_cache_laws_inst : CacheLaws redis redis_inv := redis_cache_laws.

(** ** Theorems *)

(** C7: refinement of the Cache contract.  cache_service.py on the Redis
    model keeps every promise of section 4.2 under the invariant that the
    notes key expires within [CACHE_TTL] and holds the encoding of a
    list: [get_notes] answers the snapshot or [None] and keeps it,
    [set_notes] overwrites it, [get_notes_ttl] keeps it and reports at
    most [CACHE_TTL] while it is present, [invalidate_notes] and
    [flush_all] remove it, and every operation raises, changing nothing,
    when the server is unreachable. *)
Theorem cache_service_contract : CacheLaws redis redis_inv.
Proof. exact redis_cache_laws. Qed.

Section client.
Context {C : Type} `{CacheLaws C inv}.

Lemma on_cache_run {A} (c : st C A) (s : pg * C) : on_cache c s = ((s.1, final (c s.2)), result (c s.2)).
Proof. unfold on_cache, st_focus, final, result. by destruct (c s.2). Qed.

Lemma on_store_run {A} (c : st pg A) (s : pg * C) : on_store c s = ((final (c s.1), s.2), result (c s.1)).
Proof. unfold on_store, st_focus, final, result. by destruct (c s.1). Qed.

Lemma run_done {S A} (c : st S A) s a : result (c s) = Done a -> c s = (final (c s), Done a).
Proof. unfold result, final. destruct (c s); simpl; congruence. Qed.

(** Cache-aside on a hit: the snapshot with its remaining TTL. *)
Lemma cache_aside_hit p c l :
  inv c -> c_up c = true -> c_snapshot c = Some l ->
  exists c' v, cache_aside_list (p, c) = ((p, c'), Done (list_body (JArr l) "cache" v)) /\
    c_snapshot c' = Some l /\ inv c' /\ (0 <= v <= CACHE_TTL)%Z.
Proof.
  intros Hinv Hup Es. destruct (get_law c Hinv Hup) as (Hg & Hgs & Hgi & Hgu). rewrite Es in Hg, Hgs.
  destruct (ttl_law _ Hgi Hgu) as (v & (Ht & Hts & Hti & _) & Hb).
  exists (final (c_ttl (final (c_get c)))), v. split_and!; [|by rewrite Hts|done|apply Hb; congruence..].
  unfold cache_aside_list. rewrite (st_bind_done _ _ _ _ _ (eq_trans (on_cache_run _ _) (f_equal _ Hg))).
  cbn. rewrite (st_bind_done _ _ _ _ _ (eq_trans (on_cache_run _ _) (f_equal _ Ht))). reflexivity.
Qed.

(** Cache-aside on a miss with the store up: the listing, now cached. *)
Lemma cache_aside_miss p c t :
  inv c -> c_up c = true -> c_snapshot c = None -> store_wf p ->
  pg_down p = None -> pg_table p = Some t ->
  exists c', cache_aside_list (p, c) = ((p, c'), Done (list_body (listing t) "database" CACHE_TTL)) /\
    c_snapshot c' = Some (map row_json (sorted_rows t)) /\ inv c'.
Proof.
  intros Hinv Hup Es Hwf Hpd Ht. destruct (get_law c Hinv Hup) as (Hg & Hgs & Hgi & Hgu). rewrite Es in Hg.
  assert (Hw : wf_json (JArr (map row_json (sorted_rows t))) = true) by exact (listing_wf p t Hwf Ht).
  destruct (put_law _ _ Hgi Hgu Hw) as (Hp & Hps & Hpi & _).
  exists (final (c_put (map row_json (sorted_rows t)) (final (c_get c)))). split_and!; [|done|done].
  unfold cache_aside_list. rewrite (st_bind_done _ _ _ _ _ (eq_trans (on_cache_run _ _) (f_equal _ Hg))).
  cbn. assert (Ea : on_store (C := C) db_service.get_all_notes (p, final (c_get c)) =
                    ((p, final (c_get c)), Done (map row_json (sorted_rows t)))).
  { rewrite on_store_run. cbn [fst snd]. by rewrite (get_all_notes_run p t). }
  rewrite (st_bind_done _ _ _ _ _ Ea).
  rewrite (st_bind_done _ _ _ _ _ (eq_trans (on_cache_run _ _) (f_equal _ Hp))). reflexivity.
Qed.

(** Cache-aside on a miss with the store failing: its exception. *)
Lemma cache_aside_store_error p c e :
  inv c -> c_up c = true -> c_snapshot c = None -> result (db_service.get_all_notes p) = Raised e ->
  result (cache_aside_list (p, c)) = Raised e.
Proof.
  intros Hinv Hup Es He. destruct (get_law c Hinv Hup) as (Hg & _). rewrite Es in Hg.
  unfold cache_aside_list. rewrite (st_bind_done _ _ _ _ _ (eq_trans (on_cache_run _ _) (f_equal _ Hg))).
  cbn. unfold st_bind at 1. rewrite on_store_run. cbn [fst snd]. rewrite He. reflexivity.
Qed.

(** C8: cache-aside against the contract.  For any cache that keeps the
    laws of section 4.2, with the cache reachable, the store well formed
    and any snapshot the current listing, a successful [list_notes]
    answers the listing, either from the database with the full TTL or
    from the cache with a TTL in [0, CACHE_TTL], and leaves the snapshot
    current and the cache's invariant intact. *)
Theorem cache_aside_current (s : pg * C) r :
  inv s.2 -> c_up s.2 = true -> store_wf s.1 -> snapshot_current s ->
  result (cache_aside_list s) = Done r ->
  exists t, pg_table s.1 = Some t /\ snapshot_current (final (cache_aside_list s)) /\
    inv (final (cache_aside_list s)).2 /\
    (r = list_body (listing t) "database" CACHE_TTL \/
     exists ttl, (0 <= ttl <= CACHE_TTL)%Z /\ r = list_body (listing t) "cache" ttl).
Proof.
  destruct s as [p c]. cbn [fst snd]. intros Hinv Hup Hwf Hcur.
  destruct (c_snapshot c) as [l|] eqn:Es.
  - destruct (Hcur l Es) as (t & Ht & Hl).
    destruct (cache_aside_hit p c l Hinv Hup Es) as (c' & v & -> & Hs & Hi & Hb).
    intros [= <-]. exists t. split_and!; [done| |done|].
    + intros l' Hl'. cbn [fst snd final] in Hl'. rewrite Hs in Hl'. injection Hl' as <-. eauto.
    + right. exists v. by rewrite Hl.
  - destruct (result (db_service.get_all_notes p)) as [rows|e] eqn:Ea.
    + destruct (get_all_notes_done _ _ Ea) as (t & Hpd & Ht & _).
      destruct (cache_aside_miss p c t Hinv Hup Es Hwf Hpd Ht) as (c' & -> & Hs & Hi).
      intros [= <-]. exists t. split_and!; [done| |done|by left].
      intros l' Hl'. cbn [fst snd final] in Hl'. rewrite Hs in Hl'. injection Hl' as <-. eauto.
    + by rewrite (cache_aside_store_error p c e).
Qed.
End client.

(** The Redis-backed service on a cold cache over [ex_pg]. *)
Lemma cache_aside_current_witness :
  result (cache_aside_list (ex_pg, ex_redis)) = Done (list_body (listing ex_table) "database" CACHE_TTL) /\
  exists t, pg_table ex_pg = Some t /\ snapshot_current (final (cache_aside_list (ex_pg, ex_redis))) /\
    redis_inv (final (cache_aside_list (ex_pg, ex_redis))).2 /\
    (list_body (listing ex_table) "database" CACHE_TTL = list_body (listing t) "database" CACHE_TTL \/
     exists ttl, (0 <= ttl <= CACHE_TTL)%Z /\
       list_body (listing ex_table) "database" CACHE_TTL = list_body (listing t) "cache" ttl).
Proof.
  split; [vm_compute; reflexivity|].
  apply (cache_aside_current (ex_pg, ex_redis)).
  - destruct ex_world_inv as (_ & Hb & _). apply redis_inv_dead; [exact Hb|reflexivity].
  - vm_compute. reflexivity.
  - exact ex_pg_wf.
  - intros l Hl. vm_compute in Hl. discriminate.
  - vm_compute. reflexivity.
Defined.
