(* ===== verification/System.v ===== *)
(** * System: the handlers of app/routes/system.py

    [health] pings Postgres and then Redis, each in its own [try], and
    records in the status dictionary either [True] or the exception's
    text under [postgres_error] / [redis_error]; it answers 200 when both
    answered and 503 otherwise.  [stats] counts the notes and merges the
    Redis counters; [flush_cache] empties Redis.  The status dictionary is
    built with [dict_set], which is Python's item assignment: an existing
    key keeps its place, a new key goes last. *)

From S2P Require Import Spec2Rocq Json Store Cache App Notes.

(** [str(e)] for the exceptions the pings raise: the driver's message.
    The [int()] errors are raised at import time only; their text quotes
    the value as [repr] does for a string without quotes or backslashes. *)
Definition exn_str (e : exn) : pystr :=
  match e with
  | PgOperationalError m | PgProgrammingError m | PgDataError m | PyValueError m
  | RedisConnectionError m | RedisResponseError m | PyAttributeError m => m
  | PyUnicodeEncodeError => lit "UnicodeEncodeError"
  | JSONDecodeError => lit "JSONDecodeError"
  | BadRequest => lit "400 Bad Request"
  | PySystemExit _ => lit "1"
  | PyIntLiteralError v => lit "invalid literal for int() with base 10: '" ++ v ++ lit "'"
  | PyIntDigitsLimit n => lit "Exceeds the limit (4300 digits) for integer string conversion: value has " ++
                          int_repr n ++ lit " digits; use sys.set_int_max_str_digits() to increase the limit"
  end.

(** One [try: ping(); status[key] = True / except Exception as e:
    status[err_key] = str(e)] block. *)
Definition probe (ping : st world bool) (key err_key : string) (status : list (pystr * json)) :
  st world (list (pystr * json)) :=
  fun w => match ping w with
           | (w', Done _) => (w', Done (dict_set (lit key) (JBool true) status))
           | (w', Raised e) => (w', Done (dict_set (lit err_key) (JStr (exn_str e)) status))
           end.

Module system.

(** [health()], lines 8-30, at the time whose ISO text is [timestamp]. *)
Definition health (timestamp : pystr) : st world response :=
  do status <- probe (on_pg db_service.ping) "postgres" "postgres_error"
                 [(lit "postgres", JBool false); (lit "redis", JBool false); (lit "timestamp", JStr timestamp)] ;
  do status <- probe (on_redis cache_service.ping) "redis" "redis_error" status ;
  let ok := truthy (dict_get (lit "postgres") status) && truthy (dict_get (lit "redis") status) in
  st_ret {| status := if ok then 200 else 503; body := JObj status |}.

(** [stats()], lines 33-39: the dictionary display evaluates
    [count_notes()] before [get_stats()]. *)
Definition stats : st world response :=
  do n <- on_pg db_service.count_notes ;
  do kvs <- on_redis cache_service.get_stats ;
  st_ret (resp 200 ((lit "postgres_notes", JInt n) :: kvs)).

(** [flush_cache()], lines 42-46. *)
Definition flush_cache : st world response :=
  on_redis cache_service.flush_all ;;
  st_ret (resp 200 [(lit "message", JStr (lit "Cache flushed"))]).

End system.

(** The status map [health] answers, from which server is down and why. *)
Definition health_body (timestamp : pystr) (pg_err redis_err : option pystr) : list (pystr * json) :=
  [(lit "postgres", JBool (bool_decide (pg_err = None))); (lit "redis", JBool (bool_decide (redis_err = None)));
   (lit "timestamp", JStr timestamp)] ++
  match pg_err with Some m => [(lit "postgres_error", JStr m)] | None => [] end ++
  match redis_err with Some m => [(lit "redis_error", JStr m)] | None => [] end.

(** ** Lemmas *)

Lemma db_ping_run s :
  db_service.ping s = (s, match pg_down s with Some m => Raised (PgOperationalError m) | None => Done true end).
Proof. unfold db_service.ping, db_service.get_connection, st_bind, st_ret. by destruct (pg_down s). Qed.

Lemma redis_ping_run r :
  cache_service.ping r = (r, match r_down r with Some m => Raised (RedisConnectionError m) | None => Done true end).
Proof. unfold cache_service.ping, Redis.ping, Redis.connect, st_bind, st_ret. by destruct (r_down r). Qed.

Lemma get_stats_run r :
  r_down r = None ->
  cache_service.get_stats r =
  (r, Done [(lit "redis_hits", JInt (r_hits r)); (lit "redis_misses", JInt (r_misses r));
            (lit "redis_keys", JInt (Z.of_nat (size (r_db r))))]).
Proof. intros Hd. unfold cache_service.get_stats, Redis.info, Redis.connect, st_bind, st_ret. by rewrite Hd. Qed.

Lemma flush_cache_run w :
  r_down (w_redis w) = None ->
  system.flush_cache w = (set_redis (set_db ∅ (w_redis w)) w, Done (resp 200 [(lit "message", JStr (lit "Cache flushed"))])).
Proof.
  intros Hd. unfold system.flush_cache, st_bind. rewrite on_redis_run.
  unfold cache_service.flush_all, Redis.flushdb, Redis.connect, st_bind. by rewrite Hd.
Qed.

Lemma health_run ts w :
  system.health ts w =
  (w, Done {| status := if bool_decide (pg_down (w_pg w) = None) && bool_decide (r_down (w_redis w) = None)
                        then 200 else 503;
              body := JObj (health_body ts (pg_down (w_pg w)) (r_down (w_redis w))) |}).
Proof.
  unfold system.health, probe, st_bind. rewrite on_pg_run, db_ping_run. cbn [final result fst snd].
  rewrite set_pg_id. destruct (pg_down (w_pg w)); rewrite on_redis_run, redis_ping_run; cbn [final result fst snd];
    rewrite set_redis_id; destruct (r_down (w_redis w)); reflexivity.
Qed.

(** ** Theorems *)

(** C26: [/health] never fails and changes nothing; it reports each
    server independently ([True], or [False] with the driver's message
    under [postgres_error] / [redis_error]) and answers 200 exactly when
    both answered, 503 otherwise. *)
Theorem health_spec ts w :
  system.health ts w =
  (w, Done {| status := if bool_decide (pg_down (w_pg w) = None) && bool_decide (r_down (w_redis w) = None)
                        then 200 else 503;
              body := JObj (health_body ts (pg_down (w_pg w)) (r_down (w_redis w))) |}).
Proof. apply health_run. Qed.

(** C27: [POST /cache/flush] keeps the invariant, and the next
    [list_notes] answers the current listing from the database. *)
Theorem flush_then_list w t :
  r_down (w_redis w) = None -> pg_down (w_pg w) = None -> pg_table (w_pg w) = Some t ->
  world_inv w ->
  world_inv (final (system.flush_cache w)) /\
  result (notes.list_notes (final (system.flush_cache w))) = Done (list_body (listing t) "database" CACHE_TTL).
Proof.
  intros Hd Hpd Ht Hinv. rewrite flush_cache_run by done. cbn [final fst]. split.
  - split_and!; [apply Hinv| |]; intros e; unfold live_notes; simpl; by rewrite lookup_empty.
  - rewrite (list_notes_miss _ t); [done|done| |done|done]. unfold live_notes. simpl. by rewrite lookup_empty.
Qed.

(** C28: with Redis unreachable, [GET /notes] answers 500 and changes
    nothing, even when Postgres is up: the read path does not fail open. *)
Theorem list_notes_redis_outage w msg :
  r_down (w_redis w) = Some msg -> flask_dispatch notes.list_notes w = (w, Done (error_page 500)).
Proof. intros Hd. unfold flask_dispatch. by rewrite (list_notes_redis_down _ msg). Qed.

(** [/stats] is read-only (it does not move the hit and miss
    counters) and reports as [postgres_notes] the number of notes the
    listing holds, with the Redis counters and key count. *)
Theorem stats_spec w t :
  pg_down (w_pg w) = None -> pg_table (w_pg w) = Some t -> r_down (w_redis w) = None ->
  system.stats w =
  (w, Done (resp 200 [(lit "postgres_notes", JInt (Z.of_nat (length (sorted_rows t))));
                      (lit "redis_hits", JInt (r_hits (w_redis w))); (lit "redis_misses", JInt (r_misses (w_redis w)));
                      (lit "redis_keys", JInt (Z.of_nat (size (r_db (w_redis w)))))])).
Proof.
  intros Hpd Ht Hd. unfold system.stats, st_bind. rewrite on_pg_run, (count_notes_run _ t) by done.
  cbn [final result fst snd]. rewrite set_pg_id, on_redis_run, get_stats_run by done. cbn [final result fst snd].
  rewrite set_redis_id. unfold st_ret. do 5 f_equal.
  unfold sorted_rows. rewrite (merge_sort_Permutation newer), length_map, length_map_to_list. reflexivity.
Qed.

(** ** Witnesses *)

Lemma flush_then_list_witness :
  world_inv (final (system.flush_cache ex_cached_world)) /\
  result (notes.list_notes (final (system.flush_cache ex_cached_world))) =
  Done (list_body (listing ex_table) "database" CACHE_TTL).
Proof. apply flush_then_list; [reflexivity|reflexivity|reflexivity|exact ex_cached_world_inv]. Defined.

Lemma list_notes_redis_outage_witness :
  flask_dispatch notes.list_notes (set_redis (Redis.set_down (Some (lit "Connection refused")) ex_redis) ex_world) =
  (set_redis (Redis.set_down (Some (lit "Connection refused")) ex_redis) ex_world, Done (error_page 500)).
Proof. apply (list_notes_redis_outage _ (lit "Connection refused")). reflexivity. Defined.

Lemma stats_spec_witness :
  system.stats ex_world =
  (ex_world, Done (resp 200 [(lit "postgres_notes", JInt (Z.of_nat (length (sorted_rows ex_table))));
                             (lit "redis_hits", JInt 0); (lit "redis_misses", JInt 0); (lit "redis_keys", JInt 0)])).
Proof. apply (stats_spec ex_world ex_table); reflexivity. Defined.
