(* ===== verification/Startup.v ===== *)
(** * Startup: the [init_db] retry loop of main.py

    [main.py] calls [db_service.init_db()] up to ten times; after a
    failure it sleeps two seconds, and once the ten attempts have failed
    it raises [SystemExit(1)].  What Postgres becomes during a sleep is
    the environment's business: the Section's variable [wait] maps the
    server to the server two seconds later (it may come up, go down, or
    be changed by someone else).  The prints are not modelled. *)

From S2P Require Import Spec2Rocq PyStr Json Config Store.

(** [for attempt in range(10)]. *)
Definition MAX_ATTEMPTS : nat := 10.

Section startup.

Variable wait : pg -> pg.

(** The loop with [n] attempts left: [True] once [init_db] returned, the
    server after each failed attempt being the one after the sleep. *)
Fixpoint init_attempts (n : nat) : st pg bool :=
  match n with
  | O => st_ret false
  | S n' => fun s => match db_service.init_db s with
                     | (s', Done _) => (s', Done true)
                     | (s', Raised _) => init_attempts n' (wait s')
                     end
  end.

(** The module-level code of main.py up to [create_app()]: the loop and
    its [else: raise SystemExit(1)]. *)
Definition startup : st pg unit :=
  do ok <- init_attempts MAX_ATTEMPTS ;
  if ok then st_ret tt else st_raise (PySystemExit 1).

(** [main.py] as a whole: [from app import create_app] (line 2) imports
    [app.config], whose class body reads the environment [e]; an [int()]
    that fails there ends the program before any connection.  Then the
    loop runs, and [create_app()] (line 19) builds the application
    without touching the servers. *)
Definition main_py (e : environ) : st pg unit :=
  fun s => match load_config e with
           | Raised x => (s, Raised x)
           | Done _ => startup s
           end.

(** ** Lemmas *)

Lemma init_db_run s :
  db_service.init_db s =
  match pg_down s with
  | Some m => (s, Raised (PgOperationalError m))
  | None => match pg_table s with
            | Some _ => (s, Done tt)
            | None => (set_seq 0 (set_table ∅ s), Done tt)
            end
  end.
Proof. unfold db_service.init_db, db_service.get_connection, st_bind. by destruct (pg_down s). Qed.

(** The attempts see the server at 0, 2, 4, ... seconds; the loop
    succeeds exactly when one of them finds it reachable, and the table
    exists afterwards. *)
Lemma init_attempts_spec n s :
  (result (init_attempts n s) = Done true <-> exists i, (i < n)%nat /\ pg_down (Nat.iter i wait s) = None) /\
  (result (init_attempts n s) = Done true -> pg_table (final (init_attempts n s)) <> None) /\
  (result (init_attempts n s) = Done true \/ result (init_attempts n s) = Done false).
Proof.
  revert s. induction n as [|n IH]; intros s; simpl.
  - split_and!; [split; [discriminate|intros (i & Hi & _); lia]|discriminate|auto].
  - rewrite init_db_run. destruct (pg_down s) eqn:Hd.
    + destruct (IH (wait s)) as ([H1 H2] & H3 & H4). split_and!; [|exact H3|exact H4]. split.
      * intros H. destruct (H1 H) as (i & Hi & Hw). exists (S i). split; [lia|]. by rewrite Nat.iter_succ_r.
      * intros ([|i] & Hi & Hw); [simpl in Hw; congruence|]. apply H2. exists i.
        split; [lia|]. by rewrite <- Nat.iter_succ_r.
    + destruct (pg_table s) eqn:Ht; simpl; (split_and!; [split; [intros _; exists 0%nat; split; [lia|done]|done]| |auto]).
      * intros _. by rewrite Ht.
      * intros _. discriminate.
Qed.

End startup.

(** ** Theorems *)

(** C31: the startup loop terminates after at most [MAX_ATTEMPTS]
    attempts: it starts the application exactly when one of the ten
    attempts (at 0, 2, ..., 18 seconds) finds Postgres reachable, the
    notes table exists then, and otherwise it raises [SystemExit(1)]. *)
Theorem startup_spec wait s :
  (result (startup wait s) = Done tt <->
   exists i, (i < MAX_ATTEMPTS)%nat /\ pg_down (Nat.iter i wait s) = None) /\
  (result (startup wait s) = Done tt -> pg_table (final (startup wait s)) <> None) /\
  (result (startup wait s) <> Done tt -> result (startup wait s) = Raised (PySystemExit 1)).
Proof.
  unfold startup, st_bind. destruct (init_attempts_spec wait MAX_ATTEMPTS s) as (Hiff & Ht & Hb).
  destruct (init_attempts wait MAX_ATTEMPTS s) as [s' [[|]|e]]; cbn [final result fst snd] in *;
    unfold st_ret, st_raise; cbn [final result fst snd].
  - split_and!; [|intros _; by apply Ht|done]. rewrite <- Hiff. done.
  - split_and!; [|discriminate|done]. rewrite <- Hiff. split; discriminate.
  - destruct Hb; discriminate.
Qed.

(** C22: the configuration decides whether the start-up loop runs: with
    every port variable that is set holding an integer literal, [main.py]
    behaves as the loop; with [POSTGRES_PORT] set to a text [int()]
    refuses, it stops with that [ValueError] before its first connection
    attempt, leaving the server as it was. *)
Theorem main_py_config wait e s :
  ((forall v, e !! "POSTGRES_PORT" = Some v -> exists n, py_int v = Done n) ->
   (forall v, e !! "REDIS_PORT" = Some v -> exists n, py_int v = Done n) ->
   main_py wait e s = startup wait s) /\
  (forall v x, e !! "POSTGRES_PORT" = Some v -> py_int v = Raised x -> main_py wait e s = (s, Raised x)).
Proof.
  unfold main_py, load_config, getenv_int. split.
  - intros Hp Hr. destruct (e !! "POSTGRES_PORT") as [v|] eqn:Ev; [destruct (Hp v eq_refl) as (n & ->)|];
      (destruct (e !! "REDIS_PORT") as [v'|] eqn:Ev'; [destruct (Hr v' eq_refl) as (n' & ->)|]); done.
  - intros v x -> Hx. by rewrite Hx.
Qed.

(** Postgres comes up after the third sleep: the fourth attempt creates
    the table. *)
Lemma startup_late_server :
  result (startup (fun s => {| pg_down := if (pg_seq s <? 3)%Z then pg_down s else None;
                               pg_table := pg_table s; pg_seq := pg_seq s + 1 |})
                  {| pg_down := Some (lit "Connection refused"); pg_table := None; pg_seq := 0 |}) = Done tt.
Proof. reflexivity. Qed.

(** Postgres never comes up: [SystemExit(1)]. *)
Lemma startup_no_server :
  result (startup (fun s => s) {| pg_down := Some (lit "Connection refused"); pg_table := None; pg_seq := 0 |}) =
  Raised (PySystemExit 1).
Proof. reflexivity. Qed.

(** A [POSTGRES_PORT] of [5432x] stops [main.py] at the import. *)
Lemma main_py_config_witness :
  main_py (fun s => s) {[ "POSTGRES_PORT" := lit "5432x" ]} ex_pg = (ex_pg, Raised (PyIntLiteralError (lit "5432x"))).
Proof. apply (proj2 (main_py_config (fun s => s) {[ "POSTGRES_PORT" := lit "5432x" ]} ex_pg) (lit "5432x")); reflexivity. Defined.
