(* ===== verification/Legacy.v ===== *)
(** * Legacy: the standalone health application docker-practice-app/app/app.py

    An older Flask application that only probes its dependencies.  Each
    [check_*] helper opens a connection (or sends [PING]) inside a [try]
    and answers ["connected"], or ["stopped"] on any exception; [health]
    aggregates PostgreSQL, Redis and MySQL and answers 200 when all are
    connected and 207 otherwise.  The servers are the [pg] and [redis] of
    the other files and a MySQL server that is reachable or not.  The
    [HealthAggregator] of the specification is the rule both this
    [health] and [system.health] implement: healthy exactly when every
    probe succeeded. *)

From S2P Require Import Spec2Rocq Json Store Cache App System.

(** The three servers the application dials. *)
Record services := {
  sv_pg : pg;
  sv_redis : redis;
  sv_mysql_down : option pystr     (* [Some msg]: [pymysql.connect] raises *)
}.

Definition CONNECTED : pystr := lit "connected".
Definition STOPPED : pystr := lit "stopped".

(** The aggregation rule of the HealthAggregator: healthy iff every
    probe reports connected. *)
Definition aggregate (probes : list bool) : bool := forallb (fun b => b) probes.

Module legacy.

(** [check_postgres()], lines 37-47: [psycopg2.connect], [close]. *)
Definition check_postgres (s : pg) : pystr :=
  match db_service.get_connection s with (_, Done _) => CONNECTED | (_, Raised _) => STOPPED end.

(** [check_redis()], lines 51-57: [r.ping()]. *)
Definition check_redis (r : redis) : pystr :=
  match Redis.ping r with (_, Done _) => CONNECTED | (_, Raised _) => STOPPED end.

(** [check_mysql()], lines 60-75. *)
Definition check_mysql (m : option pystr) : pystr :=
  match m with None => CONNECTED | Some _ => STOPPED end.

(** [index()], lines 79-85, at the time whose ISO text is [timestamp]. *)
Definition index (timestamp : pystr) : response :=
  resp 200 [(lit "app", JStr (lit "Docker Practice App")); (lit "status", JStr (lit "running"));
            (lit "timestamp", JStr timestamp)].

(** [health()], lines 88-111, at the time whose ISO text is [timestamp]. *)
Definition health (timestamp : pystr) (sv : services) : response :=
  let postgres_status := check_postgres (sv_pg sv) in
  let redis_status := check_redis (sv_redis sv) in
  let mysql_status := check_mysql (sv_mysql_down sv) in
  let all_ok := bool_decide (postgres_status = CONNECTED) && bool_decide (redis_status = CONNECTED) &&
                bool_decide (mysql_status = CONNECTED) in
  {| status := if all_ok then 200 else 207;
     body := JObj [(lit "services", JObj [(lit "PostgreSQL", JStr postgres_status); (lit "Redis", JStr redis_status);
                                         (lit "MySQL", JStr mysql_status); (lit "Flask API", JStr (lit "running"))]);
                   (lit "healthy", JBool all_ok); (lit "checked_at", JStr timestamp)] |}.

(** [health_postgres()], [health_redis()], [health_mysql()], lines 114-133. *)
Definition health_postgres (sv : services) : response :=
  resp 200 [(lit "service", JStr (lit "PostgreSQL")); (lit "status", JStr (check_postgres (sv_pg sv)))].
Definition health_redis (sv : services) : response :=
  resp 200 [(lit "service", JStr (lit "Redis")); (lit "status", JStr (check_redis (sv_redis sv)))].
(** [health_flask()], lines 126-128. *)
Definition health_flask : response :=
  resp 200 [(lit "service", JStr (lit "Flask API")); (lit "status", JStr (lit "running"))].
Definition health_mysql (sv : services) : response :=
  resp 200 [(lit "service", JStr (lit "MySQL")); (lit "status", JStr (check_mysql (sv_mysql_down sv)))].

End legacy.

(** ** Lemmas *)

Lemma check_postgres_up s : legacy.check_postgres s = if bool_decide (pg_down s = None) then CONNECTED else STOPPED.
Proof. unfold legacy.check_postgres, db_service.get_connection. by destruct (pg_down s). Qed.

Lemma check_redis_up r : legacy.check_redis r = if bool_decide (r_down r = None) then CONNECTED else STOPPED.
Proof. unfold legacy.check_redis, Redis.ping, Redis.connect, st_bind. by destruct (r_down r). Qed.

Lemma check_mysql_up m : legacy.check_mysql m = if bool_decide (m = None) then CONNECTED else STOPPED.
Proof. by destruct m. Qed.

Lemma connected_iff (b : bool) : bool_decide ((if b then CONNECTED else STOPPED) = CONNECTED) = b.
Proof. by destruct b. Qed.

(** ** Theorems *)

(** C33: the legacy [/health] answers 200 exactly when PostgreSQL, Redis
    and MySQL are all reachable, 207 otherwise, and its [healthy] flag is
    the aggregation of the three probes. *)
Theorem legacy_health_iff ts sv :
  (status (legacy.health ts sv) = 200 <->
   pg_down (sv_pg sv) = None /\ r_down (sv_redis sv) = None /\ sv_mysql_down sv = None) /\
  (status (legacy.health ts sv) <> 200 -> status (legacy.health ts sv) = 207) /\
  exists kvs, body (legacy.health ts sv) =
    JObj [(lit "services", JObj kvs);
          (lit "healthy", JBool (aggregate [bool_decide (pg_down (sv_pg sv) = None);
                                           bool_decide (r_down (sv_redis sv) = None);
                                           bool_decide (sv_mysql_down sv = None)]));
          (lit "checked_at", JStr ts)].
Proof.
  unfold legacy.health. rewrite check_postgres_up, check_redis_up, check_mysql_up, !connected_iff.
  simpl status. simpl body. split_and!; [|by destruct (bool_decide _ && _ && _)|].
  - destruct (pg_down _), (r_down _), (sv_mysql_down _); simpl; intuition congruence.
  - eexists. do 3 f_equal. simpl. by rewrite andb_true_r, andb_assoc.
Qed.

(** The two health endpoints agree on PostgreSQL and Redis: the
    legacy one answers 200 exactly when [system.health] answers 200 and
    MySQL is reachable, and 207 exactly when [system.health] answers 503
    or MySQL is down. *)
Theorem health_endpoints_agree ts ts' w m :
  exists r, result (system.health ts' w) = Done r /\
    (status (legacy.health ts {| sv_pg := w_pg w; sv_redis := w_redis w; sv_mysql_down := m |}) = 200 <->
     status r = 200 /\ m = None) /\
    (status (legacy.health ts {| sv_pg := w_pg w; sv_redis := w_redis w; sv_mysql_down := m |}) = 207 <->
     status r = 503 \/ m <> None).
Proof.
  rewrite health_run. eexists. split; [reflexivity|]. unfold legacy.health.
  rewrite check_postgres_up, check_redis_up, check_mysql_up, !connected_iff. simpl.
  destruct (pg_down _), (r_down _), m; simpl; intuition congruence.
Qed.
