(* ===== verification/Race.v ===== *)
(** * Race: concurrent requests and the cache-fill race

    The Flask workers run requests concurrently; each call of a service
    function is one command or statement that the server executes
    atomically, and nothing orders the calls of different requests.
    [list_step] runs [list_notes] one service call at a time, through the
    program points of [lpc], each step one call of notes.py lines 8-27
    ([get_notes], [get_all_notes], [set_notes], [get_notes_ttl]) as
    [notes.list_notes] makes it.  A system state
    holds the world, the [list_notes] requests in flight, the responses of
    the write requests (run whole), and the history of the store's states.
    [sys_step] is the step relation: start a [list_notes], advance one of
    them by a call, run a [create_note] (on a body that is a Python
    string) or a [delete_note], let time pass, let Redis go down or come
    back.  [reachable] is its reflexive-transitive closure from a fresh
    deployment. *)

From S2P Require Import Spec2Rocq Json Decode Store Cache App Notes.

(** Where a [list_notes] request is: before [get_notes], after a hit
    (before [get_notes_ttl]), after a miss (before [get_all_notes]), after
    reading the store (before [set_notes]), or answered. *)
Inductive lpc :=
  | LStart
  | LHit (cached : json)
  | LMiss
  | LFill (notes : list json)
  | LEnd (o : outcome response).

(** One service call of [list_notes] from program point [pc]. *)
Definition list_step (pc : lpc) (w : world) : world * lpc :=
  match pc with
  | LStart =>
      match on_redis cache_service.get_notes w with
      | (w', Done JNull) => (w', LMiss)
      | (w', Done cached) => (w', LHit cached)
      | (w', Raised e) => (w', LEnd (Raised e))
      end
  | LHit cached =>
      match on_redis cache_service.get_notes_ttl w with
      | (w', Done ttl) =>
          (w', LEnd (Done (resp 200 [(lit "notes", cached); (lit "source", JStr (lit "cache"));
                                     (lit "cache_ttl", JInt ttl)])))
      | (w', Raised e) => (w', LEnd (Raised e))
      end
  | LMiss =>
      match on_pg db_service.get_all_notes w with
      | (w', Done notes) => (w', LFill notes)
      | (w', Raised e) => (w', LEnd (Raised e))
      end
  | LFill notes =>
      match on_redis (cache_service.set_notes notes) w with
      | (w', Done _) =>
          (w', LEnd (Done (resp 200 [(lit "notes", JArr notes); (lit "source", JStr (lit "database"));
                                     (lit "cache_ttl", JInt CACHE_TTL)])))
      | (w', Raised e) => (w', LEnd (Raised e))
      end
  | LEnd o => (w, LEnd o)
  end.

Record sys := {
  s_world : world;
  s_reqs : list lpc;               (* the list_notes requests, by arrival *)
  s_log : list response;           (* the answers of the write requests *)
  s_hist : list pg                 (* every state the store has been in *)
}.

(** Record the store's state after a change of the world. *)
Definition with_world (w : world) (s : sys) (reqs : list lpc) (log : list response) : sys :=
  {| s_world := w; s_reqs := reqs; s_log := log; s_hist := w_pg w :: s_hist s |}.

Definition spawn_list (s : sys) : sys :=
  {| s_world := s_world s; s_reqs := s_reqs s ++ [LStart]; s_log := s_log s; s_hist := s_hist s |}.

Definition advance (i : nat) (pc : lpc) (s : sys) : sys :=
  let (w', pc') := list_step pc (s_world s) in with_world w' s (<[i := pc']> (s_reqs s)) (s_log s).

(** A whole request through Flask: its answer goes to the log. *)
Definition run_write (h : st world response) (s : sys) : sys :=
  match flask_dispatch h (s_world s) with
  | (w', Done r) => with_world w' s (s_reqs s) (s_log s ++ [r])
  | (w', Raised _) => with_world w' s (s_reqs s) (s_log s)
  end.

Definition set_cache (r : redis) (s : sys) : sys := with_world (set_redis r (s_world s)) s (s_reqs s) (s_log s).

Definition tick_sys (dt : Z) (s : sys) : sys := set_cache (Redis.tick dt (w_redis (s_world s))) s.
Definition expire_sys (s : sys) : sys := set_cache (Redis.active_expire (w_redis (s_world s))) s.
Definition outage_sys (down : option pystr) (s : sys) : sys := set_cache (Redis.set_down down (w_redis (s_world s))) s.

Inductive sys_step : sys -> sys -> Prop :=
  | step_spawn s : sys_step s (spawn_list s)
  | step_list s i pc : s_reqs s !! i = Some pc -> sys_step s (advance i pc s)
  | step_create s now raw : py_str raw = true -> sys_step s (run_write (notes.create_note now raw) s)
  | step_delete s id : sys_step s (run_write (notes.delete_note id) s)
  | step_tick s dt : sys_step s (tick_sys dt s)
  | step_expire s : sys_step s (expire_sys s)
  | step_outage s down : sys_step s (outage_sys down s).

(** A fresh deployment: the table created, the cache empty. *)
Definition sys_init : sys :=
  {| s_world := {| w_pg := {| pg_down := None; pg_table := Some ∅; pg_seq := 0 |}; w_redis := ex_redis |};
     s_reqs := []; s_log := []; s_hist := [{| pg_down := None; pg_table := Some ∅; pg_seq := 0 |}] |}.

Definition reachable : sys -> Prop := rtc sys_step sys_init.

(** A schedule of the cache-fill race.  Request 0 misses and reads the
    empty table; a [create_note] commits note 1 and invalidates the (empty)
    cache; 60 s pass; request 0 writes the list it read into the cache,
    for [CACHE_TTL] seconds from now; request 1 starts and hits. *)
Definition race_filled : sys :=
  advance 0 (LFill []) (tick_sys 60000 (run_write (notes.create_note 0 ex_post)
    (advance 0 LMiss (advance 0 LStart (spawn_list sys_init))))).

Definition race_state : sys :=
  advance 1 (LHit (JArr [])) (advance 1 LStart (spawn_list race_filled)).

(** ** What the cache and the answers may hold *)

(** [v] is the listing of a state the store has been in. *)
Definition held (s : sys) (v : json) : Prop :=
  exists p t, p ∈ s_hist s /\ pg_table p = Some t /\ v = listing t.

Definition req_ok (s : sys) (pc : lpc) : Prop :=
  match pc with
  | LHit v => held s v
  | LFill notes => held s (JArr notes)
  | LEnd (Done r) => exists v src ttl, held s v /\ r = list_body v src ttl
  | _ => True
  end.

(** Every state of the store was well formed, the current one is
    recorded, the cached value is the encoding of a listing the store
    held, and every request's data comes from such a listing. *)
Definition race_inv (s : sys) : Prop :=
  Forall store_wf (s_hist s) /\ w_pg (s_world s) ∈ s_hist s /\
  (forall e, r_db (w_redis (s_world s)) !! NOTES_CACHE_KEY = Some e -> exists v, held s v /\ re_value e = dumps v) /\
  (forall i pc, s_reqs s !! i = Some pc -> req_ok s pc).

(** A computation that can only remove the cached value. *)
Definition shrinks {A} (c : st world A) : Prop :=
  forall w e, r_db (w_redis (final (c w))) !! NOTES_CACHE_KEY = Some e -> r_db (w_redis w) !! NOTES_CACHE_KEY = Some e.

(** A computation that keeps the store well formed. *)
Definition keeps_store {A} (c : st world A) : Prop :=
  forall w, store_wf (w_pg w) -> store_wf (w_pg (final (c w))).

(** ** Lemmas *)

Lemma shrinks_bind {A B} (c : st world A) (k : A -> st world B) :
  shrinks c -> (forall a, shrinks (k a)) -> shrinks (st_bind c k).
Proof.
  intros Hc Hk w e. unfold st_bind. specialize (Hc w). unfold final in *.
  destruct (c w) as [w1 [a|ex]]; simpl in *; [|auto]. intros H. apply Hc, (Hk a w1), H.
Qed.

Lemma shrinks_ret {A} (a : A) : shrinks (st_ret a).
Proof. by intros w e. Qed.

Lemma shrinks_raise {A} ex : shrinks (@st_raise world A ex).
Proof. by intros w e. Qed.

Lemma shrinks_on_pg {A} (c : st pg A) : shrinks (on_pg c).
Proof. intros w e. by rewrite on_pg_run. Qed.

Lemma shrinks_invalidate : shrinks (on_redis cache_service.invalidate_notes).
Proof.
  intros w e. rewrite on_redis_run. simpl. destruct (r_down (w_redis w)) eqn:Hd.
  - unfold cache_service.invalidate_notes, Redis.del, Redis.connect, st_bind. by rewrite Hd.
  - rewrite invalidate_notes_run by done. simpl. by rewrite lookup_delete_eq.
Qed.

#[export] Hint Resolve shrinks_bind shrinks_ret shrinks_raise shrinks_on_pg shrinks_invalidate : py_db.

Lemma keeps_store_bind {A B} (c : st world A) (k : A -> st world B) :
  keeps_store c -> (forall a, keeps_store (k a)) -> keeps_store (st_bind c k).
Proof.
  intros Hc Hk w Hw. unfold st_bind. specialize (Hc w Hw). unfold final in *.
  destruct (c w) as [w1 [a|ex]]; simpl in *; [apply (Hk a w1)|]; exact Hc.
Qed.

Lemma keeps_store_ret {A} (a : A) : keeps_store (st_ret a).
Proof. by intros w. Qed.

Lemma keeps_store_raise {A} ex : keeps_store (@st_raise world A ex).
Proof. by intros w. Qed.

Lemma keeps_store_on_redis {A} (c : st redis A) : keeps_store (on_redis c).
Proof. intros w. by rewrite on_redis_run. Qed.

Lemma keeps_store_on_pg {A} (c : st pg A) : preserves c -> keeps_store (on_pg c).
Proof. intros Hc w Hw. rewrite on_pg_run. by apply Hc. Qed.

#[export] Hint Resolve keeps_store_bind keeps_store_ret keeps_store_raise keeps_store_on_redis : py_db.

Lemma create_note_shrinks now raw : shrinks (notes.create_note now raw).
Proof.
  unfold notes.create_note. repeat case_match; auto with py_db.
Qed.

Lemma delete_note_shrinks id : shrinks (notes.delete_note id).
Proof. unfold notes.delete_note. apply shrinks_bind; [auto with py_db|]. intros []; simpl; auto with py_db. Qed.

Lemma create_note_keeps_store now raw : py_str raw = true -> keeps_store (notes.create_note now raw).
Proof.
  intros Hr. unfold notes.create_note.
  destruct (get_json raw) as [v|] eqn:El; [|auto with py_db].
  pose proof (get_json_py _ _ Hr El) as Hv.
  destruct v as [| | | | | kvs]; auto with py_db. simpl in Hv.
  destruct (or_strip (dict_get _ kvs) []) as [c|e] eqn:Ec; [|auto with py_db].
  destruct (or_strip (dict_get _ kvs) (lit "Anonymous")) as [a|e] eqn:Ea; [|auto with py_db].
  destruct c as [|c0 cs]; [auto with py_db|].
  apply keeps_store_bind; [|auto with py_db]. apply keeps_store_on_pg, insert_note_wf.
  - exact (or_strip_py _ [] _ (dict_get_py _ _ Hv) eq_refl Ec).
  - apply str_or_py; [|done]. exact (or_strip_py _ (lit "Anonymous") _ (dict_get_py _ _ Hv) eq_refl Ea).
Qed.

Lemma delete_note_keeps_store id : keeps_store (notes.delete_note id).
Proof.
  unfold notes.delete_note. apply keeps_store_bind; [apply keeps_store_on_pg, delete_note_wf|].
  intros []; simpl; auto with py_db.
Qed.

Lemma get_notes_cases r :
  (forall e, r_db (final (cache_service.get_notes r)) !! NOTES_CACHE_KEY = Some e -> r_db r !! NOTES_CACHE_KEY = Some e) /\
  (forall v, result (cache_service.get_notes r) = Done v ->
     v = JNull \/ exists e, r_db r !! NOTES_CACHE_KEY = Some e /\ loads (re_value e) = Some v).
Proof.
  unfold cache_service.get_notes, st_bind, st_ret, st_raise. destruct (r_down r) eqn:Hd.
  { unfold Redis.get, Redis.connect, st_bind. rewrite Hd. simpl. split; [auto|intros v; discriminate]. }
  rewrite redis_get_run by done.
  destruct (r_db r !! NOTES_CACHE_KEY) as [e|] eqn:He; [destruct (expired (r_now r) e)|]; simpl.
  - split; [by rewrite lookup_delete_eq|]. intros v [= <-]. auto.
  - destruct (re_value e) as [|c t] eqn:Hv; [|destruct (loads (c :: t)) eqn:El]; simpl;
      (split; [intros e0 H; simpl in H; congruence|]); intros v Hr; simplify_eq; auto.
    right. exists e. by rewrite Hv.
  - split; [intros e0 H; simpl in H; congruence|]. intros v [= <-]. auto.
Qed.

Lemma get_notes_ttl_db r e :
  r_db (final (cache_service.get_notes_ttl r)) !! NOTES_CACHE_KEY = Some e -> r_db r !! NOTES_CACHE_KEY = Some e.
Proof.
  unfold cache_service.get_notes_ttl, Redis.ttl, Redis.lookup_read, Redis.connect, st_bind.
  destruct (r_down r); [auto|]. rewrite lookup_write_run. intros H.
  destruct (r_db r !! NOTES_CACHE_KEY) as [e'|] eqn:He; [destruct (expired (r_now r) e')|]; simpl in H.
  - by rewrite lookup_delete_eq in H.
  - congruence.
  - congruence.
Qed.

Lemma set_notes_db r notes e :
  r_db (final (cache_service.set_notes notes r)) !! NOTES_CACHE_KEY = Some e ->
  r_db r !! NOTES_CACHE_KEY = Some e \/ re_value e = dumps (JArr notes).
Proof.
  destruct (r_down r) eqn:Hd.
  - unfold cache_service.set_notes, Redis.setex, Redis.connect, st_bind. rewrite Hd. auto.
  - rewrite set_notes_run by done. simpl. rewrite lookup_insert_eq. intros [= <-]. auto.
Qed.

Lemma held_mono s s' v : (forall p, p ∈ s_hist s -> p ∈ s_hist s') -> held s v -> held s' v.
Proof. intros Hh (p & t & Hp & Ht & ->). exists p, t. auto. Qed.

Lemma req_ok_mono s s' pc : (forall p, p ∈ s_hist s -> p ∈ s_hist s') -> req_ok s pc -> req_ok s' pc.
Proof.
  intros Hh. destruct pc as [|v| |notes|[r|ex]]; simpl; eauto using held_mono.
  intros (v & src & ttl & Hv & ->). eauto 6 using held_mono.
Qed.

Lemma held_decodes s v e :
  Forall store_wf (s_hist s) -> (exists v0, held s v0 /\ re_value e = dumps v0) ->
  loads (re_value e) = Some v -> held s v.
Proof.
  intros Hwf (v0 & (p & t & Hp & Ht & ->) & ->). rewrite loads_dumps_wf.
  - intros [= <-]. by exists p, t.
  - apply (listing_wf p t); [|done]. by eapply Forall_forall in Hwf.
Qed.

Lemma list_step_pg pc w : w_pg (fst (list_step pc w)) = w_pg w.
Proof.
  destruct pc; unfold list_step; rewrite ?on_redis_run, ?on_pg_run; repeat case_match; simplify_eq; simpl;
    rewrite ?get_all_notes_final; reflexivity.
Qed.

Lemma list_step_cache pc w e :
  r_db (w_redis (fst (list_step pc w))) !! NOTES_CACHE_KEY = Some e ->
  r_db (w_redis w) !! NOTES_CACHE_KEY = Some e \/ exists notes, pc = LFill notes /\ re_value e = dumps (JArr notes).
Proof.
  destruct pc as [|v| |notes|o]; unfold list_step; rewrite ?on_redis_run, ?on_pg_run.
  - pose proof (proj1 (get_notes_cases (w_redis w)) e). repeat case_match; simplify_eq; simpl; auto.
  - pose proof (get_notes_ttl_db (w_redis w) e). repeat case_match; simplify_eq; simpl; auto.
  - repeat case_match; simplify_eq; simpl; auto.
  - pose proof (set_notes_db (w_redis w) notes e). repeat case_match; simplify_eq; simpl; intuition eauto.
  - auto.
Qed.

Lemma list_step_ok s pc :
  race_inv s -> req_ok s pc -> req_ok s (snd (list_step pc (s_world s))).
Proof.
  intros (Hwf & Hcur & Hc & _) Hpc. set (w := s_world s) in *.
  destruct pc as [|v| |notes|o]; unfold list_step; rewrite ?on_redis_run, ?on_pg_run.
  - pose proof (proj2 (get_notes_cases (w_redis w))) as Hg.
    destruct (result (cache_service.get_notes (w_redis w))) as [v|ex] eqn:Er; simpl; [|done].
    destruct (Hg v eq_refl) as [->|(e & He & Hl)]; [done|].
    pose proof (held_decodes s v e Hwf (Hc e He) Hl) as Hh. by destruct v.
  - destruct (result (cache_service.get_notes_ttl _)) as [ttl|ex]; simpl; [|done].
    exists v, "cache", ttl. split; [done|reflexivity].
  - destruct (result (db_service.get_all_notes (w_pg w))) as [l|ex] eqn:Er; simpl; [|done].
    destruct (get_all_notes_done _ _ Er) as (t & _ & Ht & ->). by exists (w_pg w), t.
  - destruct (result (cache_service.set_notes _ _)); simpl; [|done]. eexists _, _, _. split; [exact Hpc|reflexivity].
  - exact Hpc.
Qed.

Lemma race_inv_world s w' reqs log :
  race_inv s -> store_wf (w_pg w') ->
  (forall e, r_db (w_redis w') !! NOTES_CACHE_KEY = Some e -> exists v, held s v /\ re_value e = dumps v) ->
  (forall i pc, reqs !! i = Some pc -> req_ok s pc) ->
  race_inv (with_world w' s reqs log).
Proof.
  intros (Hwf & _ & _ & _) Hw' Hc Hr.
  assert (Hh : forall p, p ∈ s_hist s -> p ∈ s_hist (with_world w' s reqs log)) by (intros p Hp; by right).
  split_and!; simpl.
  - by constructor.
  - left.
  - intros e He. destruct (Hc e He) as (v & Hv & ->). eauto using held_mono.
  - intros i pc Hi. eauto using req_ok_mono.
Qed.

Lemma race_inv_cache s r :
  race_inv s -> (forall e, r_db r !! NOTES_CACHE_KEY = Some e -> r_db (w_redis (s_world s)) !! NOTES_CACHE_KEY = Some e) ->
  race_inv (set_cache r s).
Proof.
  intros Hinv Hsub. pose proof Hinv as (Hwf & Hcur & Hc & Hr). apply race_inv_world; auto.
  simpl. by eapply Forall_forall in Hwf.
Qed.

Lemma race_inv_write s h :
  race_inv s -> keeps_store h -> shrinks h -> race_inv (run_write h s).
Proof.
  intros Hinv Hk Hs. pose proof Hinv as (Hwf & Hcur & Hc & Hr).
  assert (Hw : store_wf (w_pg (final (flask_dispatch h (s_world s))))).
  { rewrite flask_final. apply Hk. by eapply Forall_forall in Hwf. }
  assert (Hcache : forall e, r_db (w_redis (final (flask_dispatch h (s_world s)))) !! NOTES_CACHE_KEY = Some e ->
                             exists v, held s v /\ re_value e = dumps v).
  { rewrite flask_final. intros e He. by apply Hc, Hs. }
  unfold run_write, final in *. destruct (flask_dispatch h (s_world s)) as [w' [r|ex]]; simpl in *;
    by apply race_inv_world.
Qed.

Lemma race_inv_advance s i pc :
  race_inv s -> s_reqs s !! i = Some pc -> race_inv (advance i pc s).
Proof.
  intros Hinv Hi. pose proof Hinv as (Hwf & Hcur & Hc & Hr). unfold advance.
  pose proof (list_step_pg pc (s_world s)) as Hpg. pose proof (list_step_cache pc (s_world s)) as Hcache.
  pose proof (list_step_ok s pc Hinv (Hr i pc Hi)) as Hok.
  destruct (list_step pc (s_world s)) as [w' pc']. simpl in *. apply race_inv_world; auto.
  - rewrite Hpg. by eapply Forall_forall in Hwf.
  - intros e He. destruct (Hcache e He) as [He'|(notes & -> & ->)]; [by apply Hc|].
    exists (JArr notes). split; [exact (Hr i _ Hi)|reflexivity].
  - intros j pc'' Hj. apply list_lookup_insert_Some in Hj as [(<- & <- & _)|(_ & Hj)]; eauto.
Qed.

Lemma race_inv_step s s' : race_inv s -> sys_step s s' -> race_inv s'.
Proof.
  intros Hinv Hstep. pose proof Hinv as (Hwf & Hcur & Hc & Hr). destruct Hstep.
  - split_and!; [done|done|done|]. simpl. intros i pc Hi.
    apply lookup_app_Some in Hi as [Hi|(_ & Hi)]; [eauto|]. by apply list_lookup_singleton_Some in Hi as [_ <-].
  - by apply race_inv_advance.
  - apply race_inv_write; [done| |]; [by apply create_note_keeps_store|apply create_note_shrinks].
  - apply race_inv_write; [done|apply delete_note_keeps_store|apply delete_note_shrinks].
  - by apply race_inv_cache.
  - apply race_inv_cache; [done|]. simpl. intros e He. apply map_lookup_filter_Some in He. apply He.
  - by apply race_inv_cache.
Qed.

Lemma race_inv_reachable s : reachable s -> race_inv s.
Proof.
  apply (rtc_ind_r race_inv sys_init).
  - split_and!; simpl.
    + constructor; [|constructor]. split; simpl; [unfold INT4_MAX; lia|apply map_Forall_empty].
    + left.
    + intros e. by rewrite lookup_empty.
    + intros i pc. by rewrite lookup_nil.
  - intros y z _ Hyz IH. by apply (race_inv_step y).
Qed.

(** The race schedule is a run of the system. *)
Lemma race_state_reachable : reachable race_state.
Proof.
  unfold reachable, race_state, race_filled.
  eapply rtc_r; [|apply step_list; vm_compute; reflexivity].
  eapply rtc_r; [|apply step_list; vm_compute; reflexivity].
  eapply rtc_r; [|apply step_spawn].
  eapply rtc_r; [|apply step_list; vm_compute; reflexivity].
  eapply rtc_r; [|apply step_tick].
  eapply rtc_r; [|apply step_create; vm_compute; reflexivity].
  eapply rtc_r; [|apply step_list; vm_compute; reflexivity].
  eapply rtc_r; [|apply step_list; vm_compute; reflexivity].
  eapply rtc_r; [|apply step_spawn].
  apply rtc_refl.
Qed.

(** ** Theorems *)

(** C3: under every interleaving of requests, outages and expiry, the
    cache only ever holds, and [list_notes] only ever answers, the listing
    of a state the store has been in: the snapshot half of the
    specification's invariant on the cached notes. *)
Theorem race_snapshots s :
  reachable s ->
  (forall e, r_db (w_redis (s_world s)) !! NOTES_CACHE_KEY = Some e ->
     exists p t, p ∈ s_hist s /\ pg_table p = Some t /\ re_value e = dumps (listing t)) /\
  (forall i r, s_reqs s !! i = Some (LEnd (Done r)) ->
     exists p t src ttl, p ∈ s_hist s /\ pg_table p = Some t /\ r = list_body (listing t) src ttl).
Proof.
  intros Hr. destruct (race_inv_reachable s Hr) as (_ & _ & Hc & Hreq). split.
  - intros e He. destruct (Hc e He) as (v & (p & t & Hp & Ht & ->) & Hv). eauto.
  - intros i r Hi. destruct (Hreq i _ Hi) as (v & src & ttl & (p & t & Hp & Ht & ->) & ->). eauto 7.
Qed.

(** C4: the cache-fill race is not harmless.  A [list_notes] that missed
    and read the store before a [create_note] committed writes its old list
    into the cache after the create has answered 201 and invalidated; a
    [list_notes] started 60 s after the create (four times [CACHE_TTL]) is
    served from the cache a list without the note, for another
    [CACHE_TTL] seconds. *)
Theorem fill_race_serves_stale :
  reachable race_state /\
  (exists r, s_log race_state = [r] /\ status r = 201) /\
  (exists t row, pg_table (w_pg (s_world race_state)) = Some t /\ t !! 1 = Some row /\ row_content row = lit "hi") /\
  r_now (w_redis (s_world race_state)) = 60000 /\
  s_reqs race_state !! 1%nat = Some (LEnd (Done (list_body (JArr []) "cache" CACHE_TTL))).
Proof.
  split_and!.
  - exact race_state_reachable.
  - eexists. split; [vm_compute; reflexivity|reflexivity].
  - eexists _, _. split_and!; [vm_compute; reflexivity|vm_compute; reflexivity|reflexivity].
  - vm_compute. reflexivity.
  - vm_compute. reflexivity.
Qed.

(** ** Witnesses *)

Lemma race_snapshots_witness :
  (forall e, r_db (w_redis (s_world race_state)) !! NOTES_CACHE_KEY = Some e ->
     exists p t, p ∈ s_hist race_state /\ pg_table p = Some t /\ re_value e = dumps (listing t)) /\
  (forall i r, s_reqs race_state !! i = Some (LEnd (Done r)) ->
     exists p t src ttl, p ∈ s_hist race_state /\ pg_table p = Some t /\ r = list_body (listing t) src ttl).
Proof. apply race_snapshots. exact race_state_reachable. Defined.
