(* ===== verification/Router.v ===== *)
(** * Router: the application factory, its blueprints and URL routing

    [create_app] (app/__init__.py) builds the Flask application with a
    static folder and calls [register_routes] (app/routes/__init__.py),
    which registers the [ui], [notes] and [system] blueprints.  Each
    route decorator of notes.py and system.py ([@notes_bp.get("/")],
    [@notes_bp.delete("/<int:note_id>")], ...) is a rule: the blueprint's
    [url_prefix] joined to the rule string, the declared methods with
    [HEAD] added to a [GET] rule and the automatic [OPTIONS], and the view.

    A request is routed as werkzeug's matcher does on a path whose only
    empty pieces are the leading one and possibly the last: the path is
    split on [/] and compared piece by piece with the rule, a literal
    piece by equality, [<int:...>] by the regex [\d+] of
    [IntegerConverter] (a non-empty run of Unicode decimal digits, the
    ASCII ones and all others) converted with [int()], [<path:...>] by
    the non-empty rest.  A rule that
    matches and allows the method is dispatched; otherwise the path with
    a slash added matching an allowing rule is a 308 redirect
    ([strict_slashes]); otherwise a path that some rule matches gets 405
    and any other path 404.  The view runs under [flask_dispatch]; an
    [OPTIONS] request gets Flask's automatic 200.

    The [ui] blueprint's module is not among the sources: its rules and
    views are parameters of the router ([ui_rules], [ui_view]), as is
    what the static-file view answers. *)

From S2P Require Import Spec2Rocq PyStr Json Config Store Cache App Notes System.

(** ** Methods, endpoints and rules *)

Inductive meth := GET | HEAD | POST | PUT | PATCH | DELETE | OPTIONS | OtherMethod (m : pystr).

#[export] Instance meth_eq_dec : EqDecision meth.
Proof. solve_decision. Defined.

(** The view functions of the application, by endpoint. *)
Inductive endpoint :=
  | ep_list_notes | ep_create_note | ep_delete_note
  | ep_health | ep_stats | ep_flush_cache
  | ep_static
  | ep_ui (name : pystr)
  | ep_app (name : pystr).   (* a view of [@app.route], as in the legacy app.py *)

#[export] Instance endpoint_eq_dec : EqDecision endpoint.
Proof. solve_decision. Defined.

(** A werkzeug [Rule]: the rule string, its methods, its endpoint. *)
Record rule := {
  rule_string : pystr;
  rule_methods : list meth;
  rule_endpoint : endpoint
}.

(** A [Blueprint]: its [url_prefix] and the routes its decorators
    declare, each with the methods the decorator names. *)
Record blueprint := {
  bp_url_prefix : option pystr;
  bp_routes : list (pystr * list meth * endpoint)
}.

(** [notes_bp = Blueprint("notes", __name__, url_prefix="/notes")] and
    its three routes. *)
Definition notes_bp : blueprint := {|
  bp_url_prefix := Some (lit "/notes");
  bp_routes := [(lit "/", [GET], ep_list_notes);
                (lit "/", [POST], ep_create_note);
                (lit "/<int:note_id>", [DELETE], ep_delete_note)]
|}.

(** [system_bp = Blueprint("system", __name__)] and its three routes. *)
Definition system_bp : blueprint := {|
  bp_url_prefix := None;
  bp_routes := [(lit "/health", [GET], ep_health);
                (lit "/stats", [GET], ep_stats);
                (lit "/cache/flush", [POST], ep_flush_cache)]
|}.

(** [BlueprintSetupState.add_url_rule]: join the prefix and the rule
    with one slash. *)
Definition bp_join (prefix : option pystr) (r : pystr) : pystr :=
  match prefix with
  | None => r
  | Some p => match r with [] => p | _ => rstrip_c 47 p ++ [47%N] ++ lstrip_c 47 r end
  end.

(** The methods of the rule [add_url_rule] builds: werkzeug adds
    [HEAD] to a [GET] rule, Flask adds the automatic [OPTIONS]. *)
Definition rule_meths (ms : list meth) : list meth :=
  ms ++ (if bool_decide (GET ∈ ms) then [HEAD] else []) ++ [OPTIONS].

Definition mk_rule (prefix : option pystr) (route : pystr * list meth * endpoint) : rule :=
  let '(r, ms, ep) := route in
  {| rule_string := bp_join prefix r; rule_methods := rule_meths ms; rule_endpoint := ep |}.

(** [app.register_blueprint(bp)]. *)
Definition register_blueprint (bp : blueprint) : list rule :=
  map (mk_rule (bp_url_prefix bp)) (bp_routes bp).

(** The static route [Flask(static_folder=...)] adds. *)
Definition static_rule : rule :=
  {| rule_string := lit "/static/<path:filename>"; rule_methods := rule_meths [GET];
     rule_endpoint := ep_static |}.

(** ** Matching *)

(** A piece of a rule string: a literal, [<int:name>] or [<path:name>]
    (the converters the rules of the application use). *)
Inductive seg := Lit (s : pystr) | IntArg | PathArg.

Definition parse_seg (s : pystr) : seg :=
  match strip_prefix (lit "<int:") s with
  | Some _ => IntArg
  | None => match strip_prefix (lit "<path:") s with Some _ => PathArg | None => Lit s end
  end.

Definition rule_segs (r : rule) : list seg := map parse_seg (split_sep 47 (rule_string r)).

(** A value a converter produced. *)
Inductive arg := AInt (z : Z) | APath (p : pystr).

(** The regex [\d+] of [IntegerConverter]: [re]'s [\d] on a [str]
    pattern is any Unicode decimal digit. *)
Definition int_piece (x : pystr) : bool :=
  bool_decide (x <> []) && forallb (fun c => bool_decide (is_Some (py_decimal c))) x.

(** A piece of a path holds no slash. *)
Definition no_slash (x : pystr) : bool := forallb (fun c => negb (c =? 47)%N) x.

(** ['/'.join(xs)]. *)
Fixpoint join_slash (xs : list pystr) : pystr :=
  match xs with [] => [] | [x] => x | x :: xs => x ++ [47%N] ++ join_slash xs end.

(** The pieces of a path against the pieces of a rule: a literal by
    equality, [<int:...>] by [int_piece] and [IntegerConverter.to_python],
    that is [int()], [<path:...>] by the rest of the path when it does
    not start with a slash.  ([int()] refuses more than 4300 digits with
    a [ValueError] that werkzeug does not catch, a 500; the model lets
    the rule not match.) *)
Fixpoint match_segs (ps : list seg) (xs : list pystr) : option (list arg) :=
  match ps, xs with
  | [], [] => Some []
  | Lit l :: ps', x :: xs' => if bool_decide (l = x) then match_segs ps' xs' else None
  | IntArg :: ps', x :: xs' =>
      if int_piece x then
        match py_int x with
        | Done z => (fun a => AInt z :: a) <$> match_segs ps' xs'
        | Raised _ => None
        end
      else None
  | [PathArg], x :: xs' => match x with [] => None | _ => Some [APath (join_slash (x :: xs'))] end
  | _, _ => None
  end.

Definition allows (m : meth) (r : rule) : bool := bool_decide (m ∈ rule_methods r).

(** The first rule that matches the path and allows the method. *)
Fixpoint find_match (rules : list rule) (m : meth) (xs : list pystr) : option (rule * list arg) :=
  match rules with
  | [] => None
  | r :: rs =>
      match match_segs (rule_segs r) xs with
      | Some a => if allows m r then Some (r, a) else find_match rs m xs
      | None => find_match rs m xs
      end
  end.

(** What routing decides. *)
Inductive routed :=
  | RMatch (r : rule) (args : list arg)
  | RRedirect (location : pystr)
  | RMethodNotAllowed (allowed : list meth)
  | RNotFound.

(** [MapAdapter.match] without slash merging: a matching rule, else the
    [strict_slashes] redirect, else 405 with the methods of the rules
    the path matches, else 404. *)
Definition route (rules : list rule) (m : meth) (path : pystr) : routed :=
  let xs := split_sep 47 path in
  match find_match rules m xs with
  | Some (r, a) => RMatch r a
  | None =>
      if existsb (fun r => allows m r && bool_decide (is_Some (match_segs (rule_segs r) (xs ++ [[]])))) rules
      then RRedirect (path ++ [47%N])
      else match flat_map (fun r => match match_segs (rule_segs r) xs with Some _ => rule_methods r | None => [] end) rules with
           | [] => RNotFound
           | ms => RMethodNotAllowed ms
           end
  end.

(** ** The application *)

(** A request as the handlers see it: method, path, the body decoded as
    UTF-8, the database clock and the text of [datetime.utcnow()]. *)
Record request := {
  req_method : meth;
  req_path : pystr;
  req_body : pystr;
  req_now : Z;
  req_timestamp : pystr
}.

(** [make_default_options_response]: 200 with an [Allow] header. *)
Definition options_response : response := {| status := 200; body := JNull |}.

(** A [ui] view that answers 404, for the examples. *)
Definition no_view : endpoint -> list arg -> st world response := fun _ _ => st_ret (error_page 404).

(** The first pieces of the paths the [notes] and [system] blueprints
    and the static route serve. *)
Definition api_heads : list pystr := [lit "notes"; lit "health"; lit "stats"; lit "cache"; lit "static"].

(** The [ui] rules start with a literal piece that none of those use,
    and name endpoints of the [ui] blueprint. *)
Definition ui_apart (ui : list rule) : bool :=
  forallb (fun r => match rule_segs r with
                    | Lit [] :: Lit l :: _ => negb (bool_decide (l ∈ api_heads))
                    | _ => false
                    end && match rule_endpoint r with ep_ui _ => true | _ => false end) ui.

Section app.

(** The rules of the [ui] blueprint, whose module is not among the
    sources, and what its views and the static view do. *)
Variable ui_rules : list rule.
Variable ui_view : endpoint -> list arg -> st world response.

(** [register_routes(app)]: [ui], then [notes], then [system]. *)
Definition register_routes : list rule :=
  ui_rules ++ register_blueprint notes_bp ++ register_blueprint system_bp.

(** [create_app()]: the static route and the registered blueprints. *)
Definition url_map : list rule := static_rule :: register_routes.

(** The view of an endpoint, called with the converted arguments. *)
Definition view (rq : request) (ep : endpoint) (args : list arg) : st world response :=
  match ep, args with
  | ep_list_notes, _ => notes.list_notes
  | ep_create_note, _ => notes.create_note (req_now rq) (req_body rq)
  | ep_delete_note, [AInt n] => notes.delete_note n
  | ep_health, _ => system.health (req_timestamp rq)
  | ep_stats, _ => system.stats
  | ep_flush_cache, _ => system.flush_cache
  | _, _ => ui_view ep args
  end.

(** [Flask.full_dispatch_request]: a routing exception is answered with
    its status; an [OPTIONS] request gets the automatic response; any
    other request runs the view under Flask's exception handling. *)
Definition app_request (rq : request) : st world response :=
  match route url_map (req_method rq) (req_path rq) with
  | RMatch r args =>
      if bool_decide (req_method rq = OPTIONS) then st_ret options_response
      else flask_dispatch (view rq (rule_endpoint r) args)
  | RRedirect _ => st_ret (error_page 308)
  | RMethodNotAllowed _ => st_ret (error_page 405)
  | RNotFound => st_ret (error_page 404)
  end.

End app.

(** ** Lemmas: paths and the int converter *)

Lemma int_piece_py_int x : int_piece x = true -> (Z.of_nat (length x) <= MAX_STR_DIGITS)%Z ->
  exists n, py_int x = Done n.
Proof.
  unfold int_piece. intros [Hne Hx]%andb_prop. apply bool_decide_eq_true in Hne.
  by apply py_int_decimal_run.
Qed.

Lemma split_notes_piece x : no_slash x = true ->
  split_sep 47 (lit "/notes/" ++ x) = [[]; lit "notes"; x].
Proof. intros H. simpl. by rewrite split_sep_none. Qed.

Lemma route_notes_piece m x : no_slash x = true -> x <> [] ->
  route (url_map []) m (lit "/notes/" ++ x) =
  match (if int_piece x then py_int x else Raised (PyIntLiteralError x)) with
  | Done n =>
      if bool_decide (m ∈ [DELETE; OPTIONS]) then RMatch (mk_rule (Some (lit "/notes")) (lit "/<int:note_id>", [DELETE], ep_delete_note)) [AInt n]
      else RMethodNotAllowed [DELETE; OPTIONS]
  | Raised _ => RNotFound
  end.
Proof.
  intros Hs Hx. unfold route. rewrite split_notes_piece by done.
  assert (bool_decide ([] = x) = false) as Hx' by (apply bool_decide_eq_false_2; congruence).
  destruct (int_piece x) eqn:Hi; [destruct (py_int x) eqn:Hp|]; simpl; rewrite ?Hx', ?Hi, ?Hp; simpl;
    destruct m; simpl; try reflexivity.
Qed.

Lemma ui_nomatch ui l rest r : ui_apart ui = true -> l ∈ api_heads -> r ∈ ui ->
  match_segs (rule_segs r) ([] :: l :: rest) = None.
Proof.
  intros Hu Hl Hr. unfold ui_apart in Hu. rewrite forallb_forall in Hu.
  apply list_elem_of_In, Hu, andb_prop in Hr as [Hr _].
  destruct (rule_segs r) as [|[[|]| |] [|[l'| |] ps]]; try discriminate. simpl.
  apply negb_true_iff, bool_decide_eq_false in Hr.
  rewrite bool_decide_eq_false_2; [done|]. intros ->. done.
Qed.

Section skip.
Context (u : list rule) (xs : list pystr) (Hu : forall r, r ∈ u -> match_segs (rule_segs r) xs = None).

Lemma find_match_skip a b m : find_match (a ++ u ++ b) m xs = find_match (a ++ b) m xs.
Proof.
  induction a as [|r a IH]; simpl.
  - induction u as [|r u' IHu]; simpl; [done|].
    rewrite Hu by set_solver. apply IHu. intros. apply Hu. set_solver.
  - by rewrite IH.
Qed.
End skip.

Lemma flat_map_nil_forall {A B} (f : A -> list B) l : (forall x, x ∈ l -> f x = []) -> flat_map f l = [].
Proof. induction l as [|x l IH]; simpl; [done|]. intros H. rewrite H, IH by set_solver. done. Qed.

Lemma route_ui ui m path l rest : ui_apart ui = true -> l ∈ api_heads ->
  split_sep 47 path = [] :: l :: rest ->
  route (url_map ui) m path = route (url_map []) m path.
Proof.
  intros Hu Hl Hp. unfold route, url_map, register_routes. rewrite Hp.
  change (static_rule :: ui ++ ?R) with ([static_rule] ++ ui ++ R).
  change (static_rule :: [] ++ ?R) with ([static_rule] ++ R).
  rewrite find_match_skip by (intros; by eapply ui_nomatch).
  rewrite !existsb_app, !flat_map_app.
  rewrite (proj2 (existsb_false_forall _ ui)).
  2:{ intros r Hr. apply list_elem_of_In in Hr. simpl. erewrite ui_nomatch by eauto. by rewrite andb_false_r. }
  rewrite (flat_map_nil_forall _ ui) by (intros; by erewrite ui_nomatch by eauto).
  done.
Qed.

Lemma find_match_some rules m xs r args :
  find_match rules m xs = Some (r, args) -> r ∈ rules /\ match_segs (rule_segs r) xs = Some args.
Proof.
  induction rules as [|r' rs IH]; simpl; [discriminate|].
  destruct (match_segs (rule_segs r') xs) eqn:E; [destruct (allows m r')|];
    [intros [= -> ->]; split; [left|done]|..]; intros H; destruct (IH H); split; [by right|done|by right|done].
Qed.

Lemma route_match rules m p r args :
  route rules m p = RMatch r args -> r ∈ rules /\ match_segs (rule_segs r) (split_sep 47 p) = Some args.
Proof.
  unfold route. destruct (find_match _ _ _) as [[r' a]|] eqn:E.
  - intros [= -> ->]. by apply find_match_some in E.
  - repeat case_match; discriminate.
Qed.

Lemma delete_args ui m p r args :
  ui_apart ui = true -> route (url_map ui) m p = RMatch r args -> rule_endpoint r = ep_delete_note ->
  exists n, args = [AInt n].
Proof.
  intros Hu Hr He. apply route_match in Hr as [Hin Hm].
  unfold url_map, register_routes in Hin.
  apply elem_of_cons in Hin as [->|Hin]; [discriminate|].
  apply elem_of_app in Hin as [Hin|Hin].
  { unfold ui_apart in Hu. rewrite forallb_forall in Hu. apply list_elem_of_In, Hu, andb_prop in Hin as [_ Hin].
    by rewrite He in Hin. }
  simpl in Hin. repeat (apply elem_of_cons in Hin as [->|Hin]); try (simpl in He; discriminate);
    [|by apply elem_of_nil in Hin].
  simpl in Hm. revert Hm.
  destruct (split_sep 47 p) as [|x0 [|x1 [|x2 [|]]]]; simpl; try discriminate;
    repeat case_bool_decide; try discriminate.
  all: destruct (int_piece x2); [|discriminate..]; destruct (py_int x2); [|discriminate..]; intros [= <-]; eauto.
Qed.

(** ** Lemmas: the application *)

Lemma app_request_match ui ov rq r args :
  route (url_map ui) (req_method rq) (req_path rq) = RMatch r args -> req_method rq <> OPTIONS ->
  app_request ui ov rq = flask_dispatch (view ov rq (rule_endpoint r) args).
Proof.
  intros Hr Ho. unfold app_request. rewrite Hr. by rewrite bool_decide_eq_false_2.
Qed.

Lemma app_request_route ui ov rq :
  req_method rq <> OPTIONS ->
  app_request ui ov rq =
  match route (url_map ui) (req_method rq) (req_path rq) with
  | RMatch r args => flask_dispatch (view ov rq (rule_endpoint r) args)
  | RRedirect _ => st_ret (error_page 308)
  | RMethodNotAllowed _ => st_ret (error_page 405)
  | RNotFound => st_ret (error_page 404)
  end.
Proof. intros Ho. unfold app_request. destruct (route _ _ _); try reflexivity. by rewrite bool_decide_eq_false_2. Qed.

Lemma stats_final w : final (system.stats w) = w.
Proof.
  unfold system.stats, st_bind. rewrite on_pg_run.
  unfold db_service.count_notes, db_service.get_connection, db_service.notes_table, st_bind, st_ret.
  destruct (pg_down (w_pg w)); cbn [final result fst snd]; [by rewrite set_pg_id|].
  destruct (pg_table (w_pg w)); cbn [final result fst snd]; [|by rewrite set_pg_id].
  rewrite set_pg_id, on_redis_run.
  unfold cache_service.get_stats, Redis.info, Redis.connect, st_bind, st_ret.
  destruct (r_down (w_redis w)); simpl; by rewrite set_redis_id.
Qed.

Lemma flush_cache_inv w : world_inv w -> world_inv (final (system.flush_cache w)).
Proof.
  intros Hinv. destruct (r_down (w_redis w)) eqn:Hd.
  - unfold system.flush_cache, st_bind. rewrite on_redis_run.
    unfold cache_service.flush_all, Redis.flushdb, Redis.connect, st_bind. rewrite Hd. simpl. by rewrite set_redis_id.
  - rewrite flush_cache_run by done. split_and!; [apply Hinv| |]; intros e; unfold live_notes; simpl; by rewrite lookup_empty.
Qed.

(** Each request keeps the coherence invariant: routing errors and
    [OPTIONS] change nothing, each view keeps it. *)
Lemma app_request_inv ui ov rq w :
  (forall ep args w, final (ov ep args w) = w) ->
  world_inv w -> r_down (w_redis w) = None -> py_str (req_body rq) = true ->
  world_inv (final (app_request ui ov rq w)).
Proof.
  intros Hov Hinv Hd Hb. unfold app_request.
  destruct (route _ _ _) as [r args| | |]; try done.
  case_bool_decide; [done|]. rewrite flask_final.
  destruct (rule_endpoint r), args as [|[] []]; cbn [view];
    first [ apply list_notes_inv | apply create_note_inv | apply delete_note_inv | rewrite health_run
          | rewrite stats_final | apply flush_cache_inv | rewrite Hov ]; done.
Qed.

(** A request for one of the API's paths is routed as if the [ui]
    blueprint had no rules. *)
Lemma app_request_ui ui ov rq l rest :
  ui_apart ui = true -> l ∈ api_heads -> split_sep 47 (req_path rq) = [] :: l :: rest ->
  app_request ui ov rq = app_request [] ov rq.
Proof. intros Hu Hl Hp. unfold app_request. by rewrite (route_ui ui _ _ l rest). Qed.

(** ** Theorems *)

(** C9: the HTTP surface.  Whatever the [ui] blueprint adds apart from
    the API's paths, [GET] and [HEAD /notes/] run [list_notes], [POST
    /notes/] runs [create_note] on the body, [GET /health], [GET /stats]
    and [POST /cache/flush] run the system handlers, each under Flask's
    exception handling. *)
Theorem app_dispatch_table ui ov b now ts :
  ui_apart ui = true ->
  let rq m p := {| req_method := m; req_path := lit p; req_body := b; req_now := now; req_timestamp := ts |} in
  app_request ui ov (rq GET "/notes/") = flask_dispatch notes.list_notes /\
  app_request ui ov (rq HEAD "/notes/") = flask_dispatch notes.list_notes /\
  app_request ui ov (rq POST "/notes/") = flask_dispatch (notes.create_note now b) /\
  app_request ui ov (rq GET "/health") = flask_dispatch (system.health ts) /\
  app_request ui ov (rq GET "/stats") = flask_dispatch system.stats /\
  app_request ui ov (rq POST "/cache/flush") = flask_dispatch system.flush_cache.
Proof.
  intros Hu rq. subst rq.
  split_and!; unfold app_request; cbn [req_method req_path];
    (erewrite route_ui; [|done| |reflexivity]); [reflexivity|set_solver..].
Qed.

(** C20: the route [DELETE /notes/<int:note_id>].  For a piece [x] of
    at most 4300 characters without a slash, [DELETE /notes/x] runs
    [delete_note(int(x))] when [x] is a run of decimal digits, ASCII or
    any other Unicode decimal digits ([/notes/١] deletes note 1); any
    other piece, [-1] included, is answered 404 by the router, whatever
    the [ui] blueprint adds apart from the API's paths, and nothing
    changes. *)
Theorem app_delete_path ui ov x b now ts :
  ui_apart ui = true -> x <> [] -> no_slash x = true -> (Z.of_nat (length x) <= MAX_STR_DIGITS)%Z ->
  let rq := {| req_method := DELETE; req_path := lit "/notes/" ++ x; req_body := b; req_now := now; req_timestamp := ts |} in
  (int_piece x = true -> exists n, py_int x = Done n /\ app_request ui ov rq = flask_dispatch (notes.delete_note n)) /\
  (int_piece x = false -> forall w, app_request ui ov rq w = (w, Done (error_page 404))).
Proof.
  intros Hu Hx Hs Hl rq. subst rq. rewrite app_request_route by done. cbn [req_method req_path].
  rewrite (route_ui ui _ _ (lit "notes") [x]), route_notes_piece; [|done|done|done|set_solver|by apply split_notes_piece].
  split; intros Hi; rewrite Hi; [|done].
  destruct (int_piece_py_int x Hi Hl) as (n & Hn). rewrite Hn. eauto.
Qed.

(** C19: the spec's [GET /notes] and [POST /notes] are not routes of the
    application: the rules are [/notes/], so a request for [/notes] with
    [GET], [HEAD], [POST] or [OPTIONS] is a 308 redirect to [/notes/]
    that runs no handler, and with another method a 404. *)
Theorem app_notes_no_slash ui ov m b now ts w :
  ui_apart ui = true ->
  let rq := {| req_method := m; req_path := lit "/notes"; req_body := b; req_now := now; req_timestamp := ts |} in
  route (url_map ui) m (lit "/notes") =
    (if bool_decide (m ∈ [GET; HEAD; POST; OPTIONS]) then RRedirect (lit "/notes/") else RNotFound) /\
  app_request ui ov rq w =
    (w, Done (error_page (if bool_decide (m ∈ [GET; HEAD; POST; OPTIONS]) then 308 else 404))).
Proof.
  intros Hu rq. unfold app_request. subst rq. cbn [req_method req_path].
  rewrite (route_ui ui _ _ (lit "notes") []) by (done || set_solver).
  destruct m; split; reflexivity.
Qed.

(** C17: every request the application serves keeps the coherence
    invariant when Redis is reachable and the body is a Python string,
    given that the [ui] and static views do not touch the servers:
    routing errors, [OPTIONS] and each view alike. *)
Theorem app_keeps_world_inv ui ov rq w :
  (forall ep args w, final (ov ep args w) = w) ->
  world_inv w -> r_down (w_redis w) = None -> py_str (req_body rq) = true ->
  world_inv (final (app_request ui ov rq w)).
Proof. apply app_request_inv. Qed.

(** ** Witnesses *)

Lemma app_dispatch_table_witness :
  app_request [] no_view {| req_method := POST; req_path := lit "/notes/"; req_body := ex_post;
                            req_now := 0; req_timestamp := [] |} = flask_dispatch (notes.create_note 0 ex_post).
Proof. apply (app_dispatch_table [] no_view ex_post 0 []). reflexivity. Defined.

(** Arabic-Indic digit one: [DELETE /notes/١] deletes note 1. *)
Lemma app_delete_path_witness :
  int_piece [1633%N] = true /\ py_int [1633%N] = Done 1%Z /\
  app_request [] no_view {| req_method := DELETE; req_path := lit "/notes/" ++ [1633%N];
                            req_body := []; req_now := 0; req_timestamp := [] |} =
  flask_dispatch (notes.delete_note 1).
Proof.
  split; [reflexivity|]. split; [reflexivity|].
  destruct (proj1 (app_delete_path [] no_view [1633%N] [] 0 [] eq_refl ltac:(discriminate) eq_refl
                     ltac:(unfold MAX_STR_DIGITS; simpl; lia)) eq_refl) as (n & Hn & H).
  vm_compute in Hn. injection Hn as <-. exact H.
Defined.

Lemma app_notes_no_slash_witness :
  app_request [] no_view {| req_method := GET; req_path := lit "/notes"; req_body := [];
                            req_now := 0; req_timestamp := [] |} ex_world =
  (ex_world, Done (error_page 308)).
Proof. apply (app_notes_no_slash [] no_view GET [] 0 [] ex_world). reflexivity. Defined.

Lemma app_keeps_world_inv_witness :
  world_inv (final (app_request [] no_view {| req_method := POST; req_path := lit "/notes/"; req_body := ex_post;
                                              req_now := 0; req_timestamp := [] |} ex_world)).
Proof.
  apply app_keeps_world_inv; [reflexivity|exact ex_world_inv|reflexivity|reflexivity].
Defined.
