(* ===== verification/LegacyApp.v ===== *)
(** * LegacyApp: the legacy app.py as a whole application

    [docker-practice-app/app/app.py] builds [app = Flask(__name__)]
    (which adds the static route), wraps it in [CORS(app)], reads its
    settings at import ([Config.load_legacy_config]) and registers six
    views with [@app.route], each for [GET] (with the automatic [HEAD]
    and [OPTIONS]).  A request is routed by the matcher of [Router]; the
    views only read the servers, and none of them can raise: every probe
    catches [Exception].  [CORS(app)] adds headers to every response,
    which the model does not carry.  Running the module ([python app.py])
    reads the settings, sleeps two seconds and serves. *)

From S2P Require Import Spec2Rocq PyStr Json Config Store Cache App System Legacy Router.

(** The rules: the static route, then the six views in the order of
    their decorators. *)
Definition legacy_rules : list rule :=
  static_rule ::
  map (mk_rule None)
    [(lit "/", [GET], ep_app (lit "index"));
     (lit "/health", [GET], ep_app (lit "health"));
     (lit "/health/postgres", [GET], ep_app (lit "health_postgres"));
     (lit "/health/redis", [GET], ep_app (lit "health_redis"));
     (lit "/health/flask", [GET], ep_app (lit "health_flask"));
     (lit "/health/mysql", [GET], ep_app (lit "health_mysql"))].

Section legacy_app.

(** What the static-file view answers (the repository has no static
    folder for this application). *)
Variable static_view : list arg -> response.

(** The view of an endpoint on the servers [sv]. *)
Definition legacy_view (rq : request) (ep : endpoint) (args : list arg) (sv : services) : response :=
  match ep with
  | ep_app n =>
      if bool_decide (n = lit "index") then legacy.index (req_timestamp rq)
      else if bool_decide (n = lit "health") then legacy.health (req_timestamp rq) sv
      else if bool_decide (n = lit "health_postgres") then legacy.health_postgres sv
      else if bool_decide (n = lit "health_redis") then legacy.health_redis sv
      else if bool_decide (n = lit "health_flask") then legacy.health_flask
      else legacy.health_mysql sv
  | _ => static_view args
  end.

(** [Flask.full_dispatch_request] on app.py: routing errors answer
    their status, [OPTIONS] the automatic response, any other request
    its view. *)
Definition legacy_request (rq : request) (sv : services) : response :=
  match route legacy_rules (req_method rq) (req_path rq) with
  | RMatch r args =>
      if bool_decide (req_method rq = OPTIONS) then options_response
      else legacy_view rq (rule_endpoint r) args sv
  | RRedirect _ => error_page 308
  | RMethodNotAllowed _ => error_page 405
  | RNotFound => error_page 404
  end.

(** [python app.py] with environment [e]: the settings are read at
    import ([int()] of the MySQL and Redis ports may raise there), then
    each request is served on the servers as they are when it arrives. *)
Definition legacy_serve (e : environ) (rqs : list (request * services)) : outcome (list response) :=
  match load_legacy_config e with
  | Raised x => Raised x
  | Done _ => Done (map (fun '(rq, sv) => legacy_request rq sv) rqs)
  end.

End legacy_app.

(** A [GET] request for a path at time [ts]. *)
Definition legacy_get (m : meth) (p : string) (ts : pystr) : request :=
  {| req_method := m; req_path := lit p; req_body := []; req_now := 0; req_timestamp := ts |}.

(** PostgreSQL and Redis of the examples, MySQL unreachable. *)
Definition ex_services : services :=
  {| sv_pg := ex_pg; sv_redis := ex_redis; sv_mysql_down := Some (lit "Connection refused") |}.

(** ** Lemmas *)

(** Membership of a status in a literal list of statuses. *)
Ltac in_statuses := rewrite ?list_elem_of_In in *; simpl in *; tauto.

Lemma legacy_health_status ts sv : status (legacy.health ts sv) = 200 \/ status (legacy.health ts sv) = 207.
Proof. unfold legacy.health. simpl. case_match; auto. Qed.

Lemma legacy_view_status static rq ep args sv :
  (forall args, status (static args) ∈ [200; 404]) ->
  status (legacy_view static rq ep args sv) ∈ [200; 207; 404].
Proof.
  intros Hs. assert (Hs' : status (static args) ∈ [200; 207; 404]).
  { specialize (Hs args). in_statuses. }
  destruct ep; cbn [legacy_view]; try exact Hs'.
  repeat case_bool_decide; try in_statuses.
  destruct (legacy_health_status (req_timestamp rq) sv) as [->| ->]; in_statuses.
Qed.

(** ** Theorems *)

(** The legacy app never answers a server error.  Whatever the state
    of PostgreSQL, Redis and MySQL and whatever the request, the answer
    is 200, 207 (a dependency down), 308, 404 or 405, provided the static
    view answers 200 or 404: every probe catches its exception. *)
Theorem legacy_never_fails static rq sv :
  (forall args, status (static args) ∈ [200; 404]) ->
  status (legacy_request static rq sv) ∈ [200; 207; 308; 404; 405].
Proof.
  intros Hs. unfold legacy_request.
  destruct (route _ _ _) as [r args| | |]; try in_statuses.
  case_bool_decide; [in_statuses|].
  pose proof (legacy_view_status static rq (rule_endpoint r) args sv Hs). in_statuses.
Qed.

(** ** Witnesses *)

