(* ===== verification/Api.v ===== *)
(** * Api: the response types of the HTTP interface

    The spec's HTTP surface (section 6) gives each route the JSON shape
    of its answers: [GET /notes] a [{notes, source, cache_ttl}] object
    whose notes are [{id, content, author, created_at}] objects,
    [POST /notes] the created note or [{error}], and so on.  [jty] is a
    small language of JSON types (objects list their fields, each
    required or optional, and admit no other key), [has_type] checks a
    value against one, and [ep_responses] lists for each route the
    statuses section 6 gives it, with the type of the body for each; it
    lists no 500, which section 7 admits only when a server is
    unreachable.  The theorem [app_responses_typed] checks the answers
    of the application against this table when both servers are up. *)

From S2P Require Import Spec2Rocq PyStr Json Store Cache App Notes System Router.

(** ** JSON types *)

Unset Elimination Schemes.
Inductive jty :=
  | TNull | TBool | TInt | TStr
  | TEnum (vals : list pystr)
  | TArr (t : jty)
  | TObj (fields : list (pystr * bool * jty))
  | TOneOf (ts : list jty).
Set Elimination Schemes.

(** The value of a key, [d[k]] when present. *)
Definition dict_lookup (k : pystr) (kvs : list (pystr * json)) : option json :=
  match list_find (fun kv => kv.1 = k) kvs with
  | Some (_, (_, v)) => Some v
  | None => None
  end.

(** No key occurs twice. *)
Fixpoint distinct_keys (kvs : list (pystr * json)) : bool :=
  match kvs with
  | [] => true
  | (k, _) :: r => negb (existsb (fun kv => bool_decide (kv.1 = k)) r) && distinct_keys r
  end.

Fixpoint has_type (t : jty) (v : json) {struct t} : bool :=
  match t, v with
  | TNull, JNull => true
  | TBool, JBool _ => true
  | TInt, JInt _ => true
  | TStr, JStr _ => true
  | TEnum vs, JStr s => bool_decide (s ∈ vs)
  | TArr t', JArr l => forallb (has_type t') l
  | TObj fs, JObj kvs =>
      distinct_keys kvs &&
      forallb (fun kv => existsb (fun f => bool_decide (f.1.1 = kv.1)) fs) kvs &&
      (fix fields (fs : list (pystr * bool * jty)) : bool :=
         match fs with
         | [] => true
         | (k, req, t') :: fs' =>
             match dict_lookup k kvs with
             | Some x => has_type t' x
             | None => negb req
             end && fields fs'
         end) fs
  | TOneOf ts, _ =>
      (fix any (ts : list jty) : bool :=
         match ts with [] => false | t' :: ts' => has_type t' v || any ts' end) ts
  | _, _ => false
  end.

(** ** The types of section 6 *)

Definition note_ty : jty :=
  TObj [(lit "id", true, TInt); (lit "content", true, TStr); (lit "author", true, TStr);
        (lit "created_at", true, TStr)].

Definition notes_response_ty : jty :=
  TObj [(lit "notes", true, TArr note_ty); (lit "source", true, TEnum [lit "cache"; lit "database"]);
        (lit "cache_ttl", true, TInt)].

Definition error_ty : jty := TObj [(lit "error", true, TStr)].

Definition deleted_ty : jty := TObj [(lit "deleted", true, TInt)].

(** Section 6's [/health]: a status per dependency ([connected] or
    [stopped], section 4.4), [healthy], and the optional diagnostics. *)
Definition health_ty : jty :=
  TObj [(lit "postgres", true, TEnum [lit "connected"; lit "stopped"]);
        (lit "redis", true, TEnum [lit "connected"; lit "stopped"]); (lit "healthy", true, TBool);
        (lit "postgres_error", false, TStr); (lit "redis_error", false, TStr)].

Definition stats_ty : jty :=
  TObj [(lit "postgres_notes", true, TInt); (lit "redis_hits", true, TInt);
        (lit "redis_misses", true, TInt); (lit "redis_keys", true, TInt)].

Definition message_ty : jty := TObj [(lit "message", true, TStr)].

(** Section 6, route by route: the statuses and the body of each. *)
Definition ep_responses (ep : endpoint) : list (Z * jty) :=
  match ep with
  | ep_list_notes => [(200, notes_response_ty)]
  | ep_create_note => [(201, note_ty); (400, error_ty)]
  | ep_delete_note => [(200, deleted_ty); (404, error_ty)]
  | ep_health => [(200, health_ty); (503, health_ty); (207, health_ty)]
  | ep_stats => [(200, stats_ty)]
  | ep_flush_cache => [(200, message_ty)]
  | ep_static | ep_ui _ | ep_app _ => []
  end.

(** A response is one the table allows. *)
Definition typed_response (rs : list (Z * jty)) (r : response) : bool :=
  existsb (fun ct => (status r =? ct.1)%Z && has_type ct.2 (body r)) rs.

(** [GET /notes/], for the examples. *)
Definition ex_list_request : request :=
  {| req_method := GET; req_path := lit "/notes/"; req_body := []; req_now := 0; req_timestamp := [] |}.

(** ** Lemmas: the types of the answers *)

Lemma row_json_typed row : has_type note_ty (row_json row) = true.
Proof. reflexivity. Qed.

Lemma listing_typed t : has_type (TArr note_ty) (listing t) = true.
Proof.
  apply forallb_forall. intros v Hv. apply list_elem_of_In, list_elem_of_fmap in Hv as (row & -> & _).
  apply row_json_typed.
Qed.

Lemma notes_response_typed v s n :
  has_type (TArr note_ty) v = true -> s ∈ [lit "cache"; lit "database"] ->
  has_type notes_response_ty (JObj [(lit "notes", v); (lit "source", JStr s); (lit "cache_ttl", JInt n)]) = true.
Proof.
  intros Hv Hs. destruct v as [| | | |l|]; try discriminate. simpl in Hv |- *.
  rewrite Hv, bool_decide_eq_true_2 by done. reflexivity.
Qed.

Lemma list_body_typed t src ttl : src = "cache"%string \/ src = "database"%string ->
  has_type notes_response_ty (body (list_body (listing t) src ttl)) = true.
Proof.
  intros Hs. apply notes_response_typed; [apply listing_typed|]. destruct Hs as [-> | ->]; set_solver.
Qed.

Lemma flask_dispatch_done h w w' r : h w = (w', Done r) -> flask_dispatch h w = (w', Done r).
Proof. unfold flask_dispatch. by intros ->. Qed.

Lemma flask_answers h w r :
  result (flask_dispatch h w) = Done r ->
  result (h w) = Done r \/ (result (h w) = Raised BadRequest /\ r = error_page 400) \/
  ((exists e, result (h w) = Raised e) /\ r = error_page 500).
Proof.
  unfold flask_dispatch, result. destruct (h w) as [w' [r'|[]]]; cbn; intros [= <-]; eauto 10.
Qed.

Lemma flask_done h w : exists r, result (flask_dispatch h w) = Done r.
Proof. unfold flask_dispatch, result. destruct (h w) as [w' [r'|[]]]; eauto. Qed.

(** ** Theorems *)

(** C6: the answers the spec's HTTP surface lists.  With both servers
    up, the table created and the coherence invariant holding, every
    request routed to [list_notes], [delete_note], [/stats] or
    [/cache/flush] (whatever the [ui] blueprint adds apart from the API's
    paths) is answered, never with a 500, by a status and a body that
    section 6 lists for its route: the notes listing with its source and
    TTL, [{deleted}] or the 404 [{error}], the counters, the flush
    message.  [/health] is the exception: its answer is not of the
    section's type, which asks for [healthy] and a [connected] or
    [stopped] status per dependency where the code answers booleans and a
    timestamp. *)
Theorem app_responses_typed ui ov rq w rl args :
  world_inv w -> pg_down (w_pg w) = None -> is_Some (pg_table (w_pg w)) -> r_down (w_redis w) = None ->
  ui_apart ui = true ->
  route (url_map ui) (req_method rq) (req_path rq) = RMatch rl args -> req_method rq <> OPTIONS ->
  rule_endpoint rl ∈ [ep_list_notes; ep_delete_note; ep_health; ep_stats; ep_flush_cache] ->
  exists r, result (app_request ui ov rq w) = Done r /\
    typed_response (ep_responses (rule_endpoint rl)) r = bool_decide (rule_endpoint rl <> ep_health).
Proof.
  intros Hinv Hpd [t Ht] Hd Hu Hr Ho Hep. rewrite (app_request_match ui ov rq rl args Hr Ho).
  repeat rewrite elem_of_cons in Hep. rewrite elem_of_nil in Hep.
  destruct Hep as [He|[He|[He|[He|[He|[]]]]]]; rewrite He; cbn [view ep_responses].
  - destruct (live_notes (w_redis w)) as [e|] eqn:Hl.
    + destruct (list_notes_hit w e Hinv Hd Hl) as (t' & texp & _ & _ & _ & Hrun).
      eexists. rewrite (flask_dispatch_done _ _ _ _ Hrun). split; [reflexivity|].
      unfold typed_response. cbn [existsb fst snd]. rewrite list_body_typed by auto. reflexivity.
    + eexists. rewrite (flask_dispatch_done _ _ _ _ (list_notes_miss w t Hd Hl Hpd Ht)). split; [reflexivity|].
      unfold typed_response. cbn [existsb fst snd]. rewrite list_body_typed by auto. reflexivity.
  - destruct (delete_args ui _ _ rl args Hu Hr He) as (n & ->). cbn [view].
    destruct (t !! n) as [row|] eqn:Hn.
    + rewrite (flask_dispatch_done _ _ _ _ (delete_note_present n w t row Hd Hpd Ht Hn)). by eexists.
    + rewrite (flask_dispatch_done _ _ _ _ (delete_note_missing n w t Hpd Ht Hn)). by eexists.
  - rewrite (flask_dispatch_done _ _ _ _ (health_run _ w)). eexists. split; [reflexivity|].
    rewrite Hpd, Hd. reflexivity.
  - rewrite (flask_dispatch_done _ _ _ _ (stats_spec w t Hpd Ht Hd)). by eexists.
  - rewrite (flask_dispatch_done _ _ _ _ (flush_cache_run w Hd)). by eexists.
Qed.

(** ** Witnesses *)

Lemma app_responses_typed_witness :
  exists r, result (app_request [] no_view ex_list_request ex_world) = Done r /\
    typed_response (ep_responses ep_list_notes) r = bool_decide (ep_list_notes <> ep_health).
Proof.
  apply (app_responses_typed [] no_view ex_list_request ex_world
           (mk_rule (Some (lit "/notes")) (lit "/", [GET], ep_list_notes)) []);
    [exact ex_world_inv|reflexivity|by eexists|reflexivity|reflexivity|reflexivity|discriminate|by left].
Defined.
