(* ===== verification/Main.v ===== *)
(** * Main: main.py from its first line to the requests it serves

    [python main.py] runs the module body: the import of the application
    evaluates [Config] ([Config.load_config]), the retry loop calls
    [init_db] ([Startup.startup]), and [create_app()] builds the URL map
    ([Router.url_map]).  Then [app.run(host, port, debug=True)] starts
    Werkzeug's reloader: the process re-executes [main.py] in a child
    with [WERKZEUG_RUN_MAIN] set, so the module body, configuration and
    retry loop included, runs a second time, and the child serves.
    [program] is that sequence; the requests are served one after the
    other ([serve]), one schedule of the concurrent ones of [Race].

    Stages are composed with [st_keeps] for the coherence invariant and
    with [triple] for the first request after a fresh deployment. *)

From S2P Require Import Spec2Rocq PyStr Json Config Store Cache App Notes System Startup Router Api.

Section main.

(** What Postgres becomes during a sleep of the retry loop, and the
    rules and views of the [ui] blueprint. *)
Variable wait : pg -> pg.
Variable ui_rules : list rule.
Variable ui_view : endpoint -> list arg -> st world response.

(** [app.run]: each request in turn, each answered. *)
Fixpoint serve (rqs : list request) : st world (list response) :=
  match rqs with
  | [] => st_ret []
  | rq :: rqs' =>
      do r <- app_request ui_rules ui_view rq ;
      do rs <- serve rqs' ;
      st_ret (r :: rs)
  end.

(** [python main.py] with environment [e]: the module body, once in the
    reloader's parent and once in the child, then the child serves. *)
Definition program (e : environ) (rqs : list request) : st world (list response) :=
  on_pg (main_py wait e) ;;
  on_pg (main_py wait e) ;;
  serve rqs.

End main.

(** [POST /notes/] with body [b] and [GET /notes/]. *)
Definition post_note (b : pystr) (now : Z) (ts : pystr) : request :=
  {| req_method := POST; req_path := lit "/notes/"; req_body := b; req_now := now; req_timestamp := ts |}.
Definition get_notes (now : Z) (ts : pystr) : request :=
  {| req_method := GET; req_path := lit "/notes/"; req_body := []; req_now := now; req_timestamp := ts |}.

(** The Redis server of the world is reachable ([d = None]) or fails
    with the message [d]. *)
Definition down_as (d : option pystr) (w : world) : Prop := r_down (w_redis w) = d.

(** A deployment before its first start: both servers reachable, no
    notes table yet. *)
Definition fresh (w : world) : Prop :=
  pg_down (w_pg w) = None /\ pg_table (w_pg w) = None /\ r_down (w_redis w) = None.

(** After a successful start: both servers reachable, the table empty. *)
Definition ready (w : world) : Prop :=
  pg_down (w_pg w) = None /\ pg_table (w_pg w) = Some ∅ /\ r_down (w_redis w) = None.

(** A fresh deployment of the examples. *)
Definition ex_fresh : world :=
  {| w_pg := {| pg_down := None; pg_table := None; pg_seq := 0 |}; w_redis := ex_redis |}.

(** ** Lemmas: Redis stays as reachable as it was *)

Ltac down_base :=
  intros r Hr; cbv beta in *;
  repeat (unfold cache_service.get_notes, cache_service.get_notes_ttl, cache_service.set_notes,
    cache_service.invalidate_notes, cache_service.get_stats, cache_service.flush_all, cache_service.ping,
    Redis.get, Redis.ttl, Redis.setex, Redis.del, Redis.flushdb, Redis.info, Redis.ping, Redis.connect,
    Redis.lookup_read, Redis.lookup_write, st_bind, st_ret, st_raise, final);
  repeat (case_match; simplify_eq/=; try done).

Section down.
Context (d : option pystr).

Lemma get_notes_down : st_keeps (fun r => r_down r = d) cache_service.get_notes.
Proof. down_base. Qed.
Lemma get_notes_ttl_down : st_keeps (fun r => r_down r = d) cache_service.get_notes_ttl.
Proof. down_base. Qed.
Lemma set_notes_down l : st_keeps (fun r => r_down r = d) (cache_service.set_notes l).
Proof. down_base. Qed.
Lemma invalidate_notes_down : st_keeps (fun r => r_down r = d) cache_service.invalidate_notes.
Proof. down_base. Qed.
Lemma get_stats_down : st_keeps (fun r => r_down r = d) cache_service.get_stats.
Proof. down_base. Qed.
Lemma flush_all_down : st_keeps (fun r => r_down r = d) cache_service.flush_all.
Proof. down_base. Qed.
Lemma ping_down : st_keeps (fun r => r_down r = d) cache_service.ping.
Proof. down_base. Qed.

Lemma on_pg_down {A} (c : st pg A) : st_keeps (down_as d) (on_pg c).
Proof. intros w Hw. unfold final. by rewrite on_pg_run. Qed.

Lemma on_redis_down {A} (c : st redis A) :
  st_keeps (fun r => r_down r = d) c -> st_keeps (down_as d) (on_redis c).
Proof. intros Hc w Hw. unfold final at 1. rewrite on_redis_run. by apply Hc. Qed.

Lemma flask_keeps (I : world -> Prop) h : st_keeps I h -> st_keeps I (flask_dispatch h).
Proof. intros Hh w Hw. rewrite flask_final. by apply Hh. Qed.
End down.

Create HintDb keeps_down discriminated.
#[export] Hint Resolve get_notes_down get_notes_ttl_down set_notes_down invalidate_notes_down
  get_stats_down flush_all_down ping_down on_pg_down : keeps_down.

(** Follow a handler's binds and branches down to the operations of the
    services. *)
Ltac solve_keeps_down :=
  repeat (intros; cbv beta;
          first [ solve [eauto with keeps_down]
                | apply st_keeps_bind | apply st_keeps_ret | apply st_keeps_raise | apply on_redis_down
                | match goal with |- st_keeps _ (match ?x with _ => _ end) => destruct x end ]).

Lemma list_notes_down d : st_keeps (down_as d) notes.list_notes.
Proof. unfold notes.list_notes. solve_keeps_down. Qed.
Lemma create_note_down d now b : st_keeps (down_as d) (notes.create_note now b).
Proof. unfold notes.create_note. solve_keeps_down. Qed.
Lemma delete_note_down d n : st_keeps (down_as d) (notes.delete_note n).
Proof. unfold notes.delete_note. solve_keeps_down. Qed.
Lemma stats_down d : st_keeps (down_as d) system.stats.
Proof. unfold system.stats. solve_keeps_down. Qed.
Lemma flush_cache_down d : st_keeps (down_as d) system.flush_cache.
Proof. unfold system.flush_cache. solve_keeps_down. Qed.
Lemma health_down d ts : st_keeps (down_as d) (system.health ts).
Proof. intros w Hw. by rewrite health_run. Qed.

Lemma app_request_down ui ov d rq :
  (forall ep args w, final (ov ep args w) = w) -> st_keeps (down_as d) (app_request ui ov rq).
Proof.
  intros Hov w Hw. unfold app_request.
  destruct (route _ _ _) as [r args| | |]; try done.
  case_bool_decide; [done|]. apply flask_keeps; [|done].
  destruct (rule_endpoint r), args as [|[] []]; cbn [view];
    first [ apply list_notes_down | apply create_note_down | apply delete_note_down | apply health_down
          | apply stats_down | apply flush_cache_down | intros w' Hw'; by rewrite Hov ].
Qed.

(** ** Lemmas: the stages keep the coherence invariant *)

Section stages.
Context (wait : pg -> pg) (Hwf : forall s, store_wf s -> store_wf (wait s))
        (Htable : forall s, pg_table (wait s) = pg_table s).

Lemma init_attempts_pg n s : store_wf s ->
  store_wf (final (init_attempts wait n s)) /\
  (pg_table (final (init_attempts wait n s)) = pg_table s \/ pg_table s = None).
Proof.
  revert s. induction n as [|n IH]; intros s Hs; simpl; [by split; [|left]|].
  pose proof (init_db_wf s Hs) as Hs'. revert Hs'. rewrite init_db_run.
  destruct (pg_down s); [|destruct (pg_table s) eqn:Ht]; simpl; intros Hs'.
  - destruct (IH (wait s) (Hwf s Hs')) as [H1 H2]. rewrite Htable in H2. by split.
  - by split; [|left].
  - by split; [|right].
Qed.

Lemma main_py_pg e s : store_wf s ->
  store_wf (final (main_py wait e s)) /\ (pg_table (final (main_py wait e s)) = pg_table s \/ pg_table s = None).
Proof.
  intros Hs. unfold main_py. destruct (load_config e); [|by split; [|left]].
  unfold startup, st_bind. destruct (init_attempts_pg MAX_ATTEMPTS s Hs) as [H1 H2].
  unfold final in *. destruct (init_attempts wait MAX_ATTEMPTS s) as [s' [[]|x]]; done.
Qed.

Lemma main_keeps_inv e : st_keeps (fun w => world_inv w /\ down_as None w) (on_pg (main_py wait e)).
Proof.
  intros w [(Hs & Hb & Hc) Hd]. rewrite (on_pg_run _ w). unfold final at 1. cbn [fst].
  destruct (main_py_pg e (w_pg w) Hs) as [Hs' Ht]. split; [|done]. split_and!; [done|done|].
  intros en He. destruct (Hc en He) as (t & Ht0 & Hv). exists t. split; [|done].
  simpl. destruct Ht as [->|Hn]; congruence.
Qed.

End stages.

Lemma serve_inv ui ov rqs :
  (forall ep args w, final (ov ep args w) = w) -> Forall (fun rq => py_str (req_body rq) = true) rqs ->
  st_keeps (fun w => world_inv w /\ down_as None w) (serve ui ov rqs).
Proof.
  intros Hov. induction 1 as [|rq rqs Hb _ IH]; simpl; [apply st_keeps_ret|].
  apply st_keeps_bind; [|intros; apply st_keeps_bind; [done|intros; apply st_keeps_ret]].
  intros w [Hi Hd]. split; [by apply app_request_inv|by apply app_request_down].
Qed.

(** ** Lemmas: the first request after a fresh deployment *)

Lemma main_py_up wait e c s : load_config e = Done c -> pg_down s = None ->
  main_py wait e s = (match pg_table s with Some _ => s | None => set_seq 0 (set_table ∅ s) end, Done tt).
Proof.
  intros Hc Hd. unfold main_py, startup. rewrite Hc. unfold MAX_ATTEMPTS, st_bind. simpl.
  rewrite init_db_run, Hd. by destruct (pg_table s).
Qed.

(** The two runs of the module body on a fresh Postgres: the first
    creates the empty table, the second finds it. *)
Lemma mains_fresh wait e c w : load_config e = Done c -> fresh w ->
  (on_pg (main_py wait e) ;; on_pg (main_py wait e)) w =
  (set_pg (set_seq 0 (set_table ∅ (w_pg w))) w, Done tt).
Proof.
  intros Hc (Hpd & Ht & Hd). unfold st_bind at 1.
  rewrite on_pg_run, (main_py_up wait e c) by done. rewrite Ht. cbn [result final fst snd].
  rewrite on_pg_run, (main_py_up wait e c) by done. reflexivity.
Qed.

Lemma sorted_rows_one k r : sorted_rows (<[k := r]> ∅) = [r].
Proof. unfold sorted_rows. by rewrite insert_empty, map_to_list_singleton. Qed.

(** [POST /notes/] and [GET /notes/] reach their views whatever the
    [ui] blueprint adds. *)
Lemma post_is_create ui ov raw now ts : ui_apart ui = true ->
  app_request ui ov (post_note raw now ts) = flask_dispatch (notes.create_note now raw).
Proof. intros Hu. by rewrite (app_request_ui ui ov _ (lit "notes") [[]]) by (done || set_solver). Qed.

Lemma get_is_list ui ov now ts : ui_apart ui = true ->
  app_request ui ov (get_notes now ts) = flask_dispatch notes.list_notes.
Proof. intros Hu. by rewrite (app_request_ui ui ov _ (lit "notes") [[]]) by (done || set_solver). Qed.

(** A 201 that went through Flask's handler came from the view itself. *)
Lemma flask_created h w r : result (flask_dispatch h w) = Done r -> status r = 201 ->
  h w = (final (flask_dispatch h w), Done r).
Proof.
  rewrite flask_final. intros Hr Hs. destruct (flask_answers h w r Hr) as [Hh|[[_ ->]|[_ ->]]]; [|done..].
  unfold final, result in *. destruct (h w) as [w' o]. simpl in Hh. by subst.
Qed.

(** [POST /notes/] on a started deployment: when it answers 201, the
    table holds just the new row, which is the body, the notes key is
    gone, and both servers are still reachable. *)
Lemma post_first ui ov raw now ts :
  ui_apart ui = true ->
  triple ready (app_request ui ov (post_note raw now ts))
    (fun r1 w => status r1 = 201 -> exists row, pg_table (w_pg w) = Some (<[row_id row := row]> ∅) /\
       live_notes (w_redis w) = None /\ body r1 = row_json row /\ pg_down (w_pg w) = None /\
       r_down (w_redis w) = None).
Proof.
  intros Hu w (Hpd & Ht & Hd). rewrite post_is_create by done.
  destruct (flask_done (notes.create_note now raw) w) as [r1 Hr1]. exists r1. split; [done|]. intros Hs.
  destruct (create_note_success now raw w _ r1 Hd Hpd (flask_created _ _ _ Hr1 Hs) Hs)
    as (t & row & Ht' & _ & _ & Hpg & Hrd & Hb & _).
  rewrite Ht in Ht'. injection Ht' as <-. exists row. rewrite Hpg, Hrd. split_and!; [done| |done|done|done].
  unfold live_notes. simpl. by rewrite lookup_delete_eq.
Qed.

(** [GET /notes/] after that 201: the listing of the one row, read from
    the database. *)
Lemma get_after_first ui ov now ts row r1 :
  ui_apart ui = true ->
  triple (fun w => pg_table (w_pg w) = Some (<[row_id row := row]> ∅) /\ live_notes (w_redis w) = None /\
                   body r1 = row_json row /\ pg_down (w_pg w) = None /\ r_down (w_redis w) = None)
    (app_request ui ov (get_notes now ts))
    (fun r2 _ => r2 = list_body (JArr [body r1]) "database" CACHE_TTL).
Proof.
  intros Hu w (Ht & Hl & Hb & Hpd & Hd). rewrite get_is_list by done. unfold flask_dispatch. rewrite (list_notes_miss w _ Hd Hl Hpd Ht).
  eexists. split; [reflexivity|]. unfold listing. by rewrite sorted_rows_one, Hb.
Qed.

Lemma app_request_done ui ov rq w : exists r, result (app_request ui ov rq w) = Done r.
Proof.
  unfold app_request. destruct (route _ _ _); [case_bool_decide; [by eexists|apply flask_done]|by eexists..].
Qed.

Lemma serve_one ui ov rq w :
  exists r, result (app_request ui ov rq w) = Done r /\ serve ui ov [rq] w = (final (app_request ui ov rq w), Done [r]).
Proof.
  destruct (app_request_done ui ov rq w) as [r Hr]. exists r. split; [done|].
  change (serve ui ov [rq]) with (do r <- app_request ui ov rq ; do rs <- st_ret [] ; st_ret (r :: rs)).
  assert (E : app_request ui ov rq w = (final (app_request ui ov rq w), Done r))
    by (rewrite <- Hr; apply surjective_pairing).
  by rewrite (st_bind_done _ _ _ _ _ E).
Qed.

(** The two requests on a started deployment: the POST answers what
    [create_note] answers there, and after a 201 the GET answers that
    note alone. *)
Lemma serve_first ui ov raw now ts w :
  ui_apart ui = true -> ready w ->
  exists r1 r2, result (flask_dispatch (notes.create_note now raw) w) = Done r1 /\
    result (serve ui ov [post_note raw now ts; get_notes now ts] w) = Done [r1; r2] /\
    (status r1 = 201 -> r2 = list_body (JArr [body r1]) "database" CACHE_TTL).
Proof.
  intros Hu Hw. destruct (post_first ui ov raw now ts Hu w Hw) as (r1 & Hr1 & Hq).
  rewrite post_is_create in Hr1 by done.
  set (w' := final (app_request ui ov (post_note raw now ts) w)).
  destruct (serve_one ui ov (get_notes now ts) w') as (r2 & Ha & Hs).
  exists r1, r2. split_and!; [done| |].
  - change (serve ui ov [post_note raw now ts; get_notes now ts]) with
      (do r <- app_request ui ov (post_note raw now ts) ; do rs <- serve ui ov [get_notes now ts] ; st_ret (r :: rs)).
    assert (E : app_request ui ov (post_note raw now ts) w = (w', Done r1)).
    { unfold w'. rewrite post_is_create by done. rewrite <- Hr1. apply surjective_pairing. }
    rewrite (st_bind_done _ _ _ _ _ E), (st_bind_done _ _ _ _ _ Hs). done.
  - intros H201. destruct (Hq H201) as (row & Hrow).
    destruct (get_after_first ui ov now ts row r1 Hu w' Hrow) as (r2' & Ha' & ->). congruence.
Qed.

(** ** Theorems *)

(** C11: the program keeps the coherence invariant from its first line to
    its last request.  Starting from a world where it holds with Redis
    reachable, [python main.py] (configuration, the retry loop, run twice
    by the reloader, then any sequence of requests with string bodies)
    ends in a world where it holds, whether start-up succeeded or not;
    the sleeps of the loop may bring Postgres up or down but keep its
    data, and the [ui] views leave the servers alone. *)
Theorem program_keeps_world_inv wait ui ov e rqs w :
  (forall s, store_wf s -> store_wf (wait s)) -> (forall s, pg_table (wait s) = pg_table s) ->
  (forall ep args w, final (ov ep args w) = w) ->
  Forall (fun rq => py_str (req_body rq) = true) rqs ->
  world_inv w -> r_down (w_redis w) = None ->
  world_inv (final (program wait ui ov e rqs w)).
Proof.
  intros Hwf Ht Hov Hb Hi Hd.
  assert (H : st_keeps (fun w => world_inv w /\ down_as None w) (program wait ui ov e rqs)).
  { apply st_keeps_bind; [by apply main_keeps_inv|intros _].
    apply st_keeps_bind; [by apply main_keeps_inv|intros _]. by apply serve_inv. }
  exact (proj1 (H w (conj Hi Hd))).
Qed.

(** C12: the first note of a fresh deployment, end to end.  With a
    configuration [int()] accepts, Postgres reachable without a notes
    table and Redis reachable, [python main.py] creates the empty table
    (and finds it on the reloader's second run), then [POST /notes/]
    answers what [create_note] answers on that empty table and
    [GET /notes/] is answered too; when the POST answered 201, the GET
    answers exactly that note, read from the database with the
    configured TTL. *)
Theorem program_first_note wait ui ov e raw now ts w :
  ui_apart ui = true -> (exists c, load_config e = Done c) -> fresh w ->
  exists r1 r2,
    result (flask_dispatch (notes.create_note now raw) (set_pg (set_seq 0 (set_table ∅ (w_pg w))) w)) = Done r1 /\
    result (program wait ui ov e [post_note raw now ts; get_notes now ts] w) = Done [r1; r2] /\
    (status r1 = 201 -> r2 = list_body (JArr [body r1]) "database" CACHE_TTL).
Proof.
  intros Hu [c Hc] Hf. destruct Hf as (Hpd & Ht & Hd).
  assert (Hw1 : ready (set_pg (set_seq 0 (set_table ∅ (w_pg w))) w)) by done.
  destruct (serve_first ui ov raw now ts _ Hu Hw1) as (r1 & r2 & H1 & H2 & H3).
  exists r1, r2. split_and!; [done| |done].
  unfold program. rewrite <- st_bind_assoc.
  by rewrite (st_bind_done _ _ _ _ _ (mains_fresh wait e c w Hc (conj Hpd (conj Ht Hd)))).
Qed.

(** ** Witnesses *)

Lemma program_keeps_world_inv_witness :
  world_inv (final (program (fun s => s) [] no_view ∅ [post_note ex_post 0 []; get_notes 0 []] ex_world)).
Proof.
  apply program_keeps_world_inv; [done|done|done|repeat constructor|exact ex_world_inv|reflexivity].
Defined.

(** A fresh Postgres and the example note: the GET answers it. *)
Lemma program_first_note_witness :
  exists r1 r2,
    result (flask_dispatch (notes.create_note 0 ex_post) (set_pg (set_seq 0 (set_table ∅ (w_pg ex_fresh))) ex_fresh)) =
      Done r1 /\
    result (program (fun s => s) [] no_view ∅ [post_note ex_post 0 []; get_notes 0 []] ex_fresh) = Done [r1; r2] /\
    (status r1 = 201 -> r2 = list_body (JArr [body r1]) "database" CACHE_TTL).
Proof.
  apply (program_first_note (fun s => s) [] no_view ∅ ex_post 0 [] ex_fresh);
    [reflexivity|eexists; reflexivity|split_and!; reflexivity].
Defined.
