(* ===== verification/Jsonify.v ===== *)
(** * Jsonify: the JSON responses of Flask on the wire

    Every view answers [jsonify(...)] (with a status): Flask's
    [DefaultJSONProvider.response] serialises the value with
    [json.dumps(obj, default=..., ensure_ascii=True, sort_keys=True)]
    and, when the application runs in debug mode (both [main.py] and the
    legacy [app.py] call [app.run(debug=True)]), [indent=2]; otherwise
    the compact separators [(",", ":")].  The text ends with a newline
    and the mimetype is [application/json].

    [enc pretty lvl v] is Python's [_iterencode] at indentation level
    [lvl]: atoms as [json.dumps] writes them ([Json.dumps]), an empty
    list or dict as [[]] or [{}], otherwise the items separated by
    [","] and, in the indented layout, each on a line of its own indented
    by two spaces per level; the members of a dict in the order of
    [sorted(d.items())], each written [key: value] ([key:value] compact).
    [canon v] is what a client decoding that text obtains: the same
    value with every dict's members in key order. *)

From S2P Require Import Spec2Rocq PyStr Json Decode Store Cache App Notes.

Local Open Scope N_scope.

(** ** Sorting the members *)

(** Python's [<] on [str]: code points compared from the left, a proper
    prefix first. *)
Fixpoint str_ltb (a b : pystr) : bool :=
  match a, b with
  | [], [] => false
  | [], _ :: _ => true
  | _ :: _, [] => false
  | x :: a', y :: b' => if (x <? y)%N then true else if (y <? x)%N then false else str_ltb a' b'
  end.

(** Insert a member after the members with smaller keys. *)
Fixpoint insert_key {B} (k : pystr) (b : B) (l : list (pystr * B)) : list (pystr * B) :=
  match l with
  | [] => [(k, b)]
  | (k', b') :: l' => if str_ltb k' k then (k', b') :: insert_key k b l' else (k, b) :: l
  end.

(** [sorted(d.items())]: for the distinct keys of a dict, the one order
    of the members by key. *)
Fixpoint sort_keys {B} (l : list (pystr * B)) : list (pystr * B) :=
  match l with
  | [] => []
  | (k, b) :: l' => insert_key k b (sort_keys l')
  end.

(** ** The encoder *)

(** ['\n' + '  ' * lvl] in the indented layout, nothing in the compact one. *)
Definition newline_indent (pretty : bool) (lvl : nat) : pystr :=
  if pretty then 10 :: repeat 32 (2 * lvl) else [].

(** The key separator: [": "] indented, [":"] compact. *)
Definition key_sep (pretty : bool) : pystr := if pretty then [58; 32] else [58].

(** [sep.join(items)]. *)
Fixpoint join_with (sep : pystr) (items : list pystr) : pystr :=
  match items with
  | [] => []
  | [x] => x
  | x :: xs => x ++ sep ++ join_with sep xs
  end.

(** [_iterencode(v, lvl)]. *)
Fixpoint enc (pretty : bool) (lvl : nat) (v : json) : pystr :=
  match v with
  | JArr [] => [91; 93]
  | JArr l =>
      [91] ++ newline_indent pretty (S lvl) ++
      join_with ([44] ++ newline_indent pretty (S lvl)) (map (enc pretty (S lvl)) l) ++
      newline_indent pretty lvl ++ [93]
  | JObj [] => [123; 125]
  | JObj kvs =>
      [123] ++ newline_indent pretty (S lvl) ++
      join_with ([44] ++ newline_indent pretty (S lvl))
        (map snd (sort_keys (map (fun kv => (kv.1, encode_str kv.1 ++ key_sep pretty ++ enc pretty (S lvl) kv.2))
                                 kvs))) ++
      newline_indent pretty lvl ++ [125]
  | _ => dumps v
  end.

(** The body [jsonify] writes. *)
Definition jsonify_text (pretty : bool) (v : json) : pystr := enc pretty 0 v ++ [10].

(** The value with every dict's members in key order. *)
Fixpoint canon (v : json) : json :=
  match v with
  | JArr l => JArr (map canon l)
  | JObj kvs => JObj (sort_keys (map (fun kv => (kv.1, canon kv.2)) kvs))
  | _ => v
  end.

(** ** Responses *)

(** What the server sends: status, mimetype and body text. *)
Record http_response := {
  h_status : Z;
  h_mimetype : pystr;
  h_data : pystr
}.

(** A view's [jsonify(body), status], in debug mode when [pretty]. *)
Definition jsonify_response (pretty : bool) (r : response) : http_response :=
  {| h_status := status r; h_mimetype := lit "application/json"; h_data := jsonify_text pretty (body r) |}.

(** A note as a client decodes it from the listing: its members in key order. *)
Definition note_on_wire (n : note_row) : json :=
  JObj [(lit "author", JStr (row_author n)); (lit "content", JStr (row_content n));
        (lit "created_at", JStr (timestamp_text (row_created n))); (lit "id", JInt (row_id n))].

(** A member as the encoder writes it at level [lvl]. *)
Definition member_text (pretty : bool) (lvl : nat) (kv : pystr * json) : pystr :=
  encode_str kv.1 ++ key_sep pretty ++ enc pretty lvl kv.2.

(** What the encoder at level [n] must give: a text the decoder reads
    as the canonical value, whatever may follow a value. *)
Definition enc_parses (p : bool) (n : nat) (v : json) : Prop :=
  forall rest, ends_value rest = true -> gvalue (enc p n v ++ rest) (canon v) rest.

(** ** Lemmas: sorting *)

Lemma insert_key_perm {B} k (b : B) l : insert_key k b l ≡ₚ (k, b) :: l.
Proof.
  induction l as [|[k' b'] l IH]; simpl; [done|].
  destruct (str_ltb k' k); [|done]. rewrite IH. apply perm_swap.
Qed.

Lemma sort_keys_perm {B} (l : list (pystr * B)) : sort_keys l ≡ₚ l.
Proof. induction l as [|[k b] l IH]; simpl; [done|]. by rewrite insert_key_perm, IH. Qed.

(** Sorting looks at the keys only: it commutes with a map that keeps them. *)
Lemma insert_key_map {B C} (g : pystr * B -> C) k b l :
  insert_key k (g (k, b)) (map (fun kv => (kv.1, g kv)) l) = map (fun kv => (kv.1, g kv)) (insert_key k b l).
Proof. induction l as [|[k' b'] l IH]; simpl; [done|]. destruct (str_ltb k' k); simpl; by rewrite ?IH. Qed.

Lemma sort_keys_map {B C} (g : pystr * B -> C) l :
  sort_keys (map (fun kv => (kv.1, g kv)) l) = map (fun kv => (kv.1, g kv)) (sort_keys l).
Proof. induction l as [|[k b] l IH]; simpl; [done|]. by rewrite IH, insert_key_map. Qed.

Lemma sort_keys_nil {B} (l : list (pystr * B)) : l <> [] -> sort_keys l <> [].
Proof. intros Hl Hs. apply Hl, Permutation_nil. by rewrite <- Hs, sort_keys_perm. Qed.

Lemma forallb_Forall {A} (f : A -> bool) l : forallb f l = true -> Forall (fun x => f x = true) l.
Proof. induction l as [|x l IH]; simpl; [constructor|]. rewrite andb_true_iff. intros [? ?]. constructor; auto. Qed.

(** ** Lemmas: layout *)

Lemma skip_ws_newline_indent p n X : skip_ws (newline_indent p n ++ X) = skip_ws X.
Proof.
  unfold newline_indent. destruct p; [|done]. generalize (2 * n)%nat. intros m.
  induction m as [|m IH]; simpl in *; auto.
Qed.

Lemma ends_value_close p n c X : c = 93 \/ c = 125 -> ends_value (newline_indent p n ++ c :: X) = true.
Proof. unfold newline_indent. intros [-> | ->]; destruct p; reflexivity. Qed.

Lemma join_with_cons sep a l :
  join_with sep (a :: l) = a ++ match l with [] => [] | _ => sep ++ join_with sep l end.
Proof. destruct l; simpl; by rewrite ?app_nil_r. Qed.

Lemma enc_head p lvl v : exists c t, enc p lvl v = c :: t /\ value_start c = true.
Proof.
  destruct v as [| | | | [|x l] | [|kv kvs]]; try apply dumps_head; by do 2 eexists.
Qed.

Lemma skip_ws_enc p lvl v X : skip_ws (enc p lvl v ++ X) = enc p lvl v ++ X.
Proof.
  destruct (enc_head p lvl v) as (c & t & -> & Hc). apply value_start_facts in Hc.
  simpl. by rewrite (proj1 Hc).
Qed.

Lemma head_is_enc k p lvl v X : k = 93 \/ k = 125 \/ k = 65279 -> head_is k (enc p lvl v ++ X) = false.
Proof.
  intros Hk. destruct (enc_head p lvl v) as (c & t & -> & Hc). apply value_start_facts in Hc.
  simpl. apply N.eqb_neq. lia.
Qed.

Lemma Forall_impl2 {A} (P Q R : A -> Prop) l :
  Forall P l -> Forall Q l -> (forall x, P x -> Q x -> R x) -> Forall R l.
Proof.
  intros HP HQ HR. induction HP as [|x l Px HP IH]; [constructor|].
  inversion_clear HQ. constructor; auto.
Qed.

Lemma join_with_map2 {A} sep (g : A -> pystr) x y l :
  join_with sep (map g (x :: y :: l)) = g x ++ sep ++ join_with sep (map g (y :: l)).
Proof. reflexivity. Qed.

Lemma member_text_app p n kv X :
  member_text p n kv ++ X = 34 :: flat_map escape_char kv.1 ++ 34 :: key_sep p ++ enc p n kv.2 ++ X.
Proof. unfold member_text. by rewrite <- !app_assoc, encode_str_app. Qed.

Lemma skip_ws_comma Y : skip_ws ([44] ++ Y) = 44 :: Y.
Proof. reflexivity. Qed.

Lemma skip_ws_key_sep (p : bool) Y : skip_ws (key_sep p ++ Y) = 58 :: (if p then [32] else [] : pystr) ++ Y.
Proof. by destruct p. Qed.

Lemma skip_ws_after_colon (p : bool) n v X : skip_ws ((if p then [32] else [] : pystr) ++ enc p n v ++ X) = enc p n v ++ X.
Proof. destruct p; apply skip_ws_enc. Qed.

(** The elements of an array and the members of an object start with a
    value and a key: no whitespace to skip, no closing bracket. *)
Lemma items_text_start p n sep l X : l <> [] ->
  skip_ws (join_with sep (map (enc p n) l) ++ X) = join_with sep (map (enc p n) l) ++ X /\
  head_is 93 (join_with sep (map (enc p n) l) ++ X) = false.
Proof.
  destruct l as [|x l]; [done|]. intros _. rewrite map_cons, join_with_cons, <- app_assoc.
  split; [apply skip_ws_enc | apply head_is_enc; lia].
Qed.

Lemma members_text_start p n sep ms X : ms <> [] ->
  skip_ws (join_with sep (map (member_text p n) ms) ++ X) = join_with sep (map (member_text p n) ms) ++ X /\
  head_is 125 (join_with sep (map (member_text p n) ms) ++ X) = false.
Proof.
  destruct ms as [|kv ms]; [done|]. intros _. rewrite map_cons, join_with_cons, <- app_assoc, member_text_app.
  split; reflexivity.
Qed.

Lemma sorted_members_nodup {B C} (g : pystr * B -> C) l :
  NoDup (map fst l) -> NoDup (map fst (map (fun kv => (kv.1, g kv)) (sort_keys l))).
Proof.
  intros H. refine (proj1 (NoDup_Permutation_proper _ _ _) H). rewrite map_map.
  apply Permutation_map. symmetry. apply sort_keys_perm.
Qed.

Lemma map_snd_members p n ms :
  map snd (map (fun kv => (kv.1, encode_str kv.1 ++ key_sep p ++ enc p n kv.2)) ms) = map (member_text p n) ms.
Proof. by rewrite map_map. Qed.

(** A decoded object whose keys are distinct is the list of its members. *)
Lemma g_obj_nodup t kvs r :
  head_is 125 (skip_ws t) = false -> gmembers (skip_ws t) kvs r -> NoDup (map fst kvs) ->
  gvalue (123 :: t) (JObj kvs) r.
Proof. intros Hh Hm Hnd. rewrite <- (dict_of_pairs_nodup kvs) by done. by apply g_obj. Qed.

Lemma dumps_grammar v rest : wf_json v = true -> ends_value rest = true -> gvalue (dumps v ++ rest) v rest.
Proof. intros Hwf Hr. apply (proj1 (parse_grammar (jsize v))). by apply parse_dumps. Qed.

(** ** Lemmas: decoding the encoder's text *)

Lemma items_grammar p n lvl l rest :
  Forall (enc_parses p n) l -> l <> [] ->
  gitems (join_with ([44] ++ newline_indent p n) (map (enc p n) l) ++ newline_indent p lvl ++ 93 :: rest)
    (map canon l) rest.
Proof.
  intros Hl. revert rest. induction Hl as [|x l Hx Hl IH]; intros rest Hne; [done|].
  destruct l as [|y l].
  - eapply g_items_last; [apply Hx, ends_value_close; auto|]. by rewrite skip_ws_newline_indent.
  - rewrite join_with_map2, <- !app_assoc.
    change (map canon (x :: y :: l)) with (canon x :: map canon (y :: l)).
    eapply g_items_more; [apply Hx; reflexivity | apply skip_ws_comma |].
    rewrite skip_ws_newline_indent, (proj1 (items_text_start p n _ (y :: l) _ ltac:(done))). by apply IH.
Qed.

Lemma members_grammar p n lvl ms rest :
  Forall (fun kv => forallb scalar kv.1 = true /\ enc_parses p n kv.2) ms -> ms <> [] ->
  gmembers (join_with ([44] ++ newline_indent p n) (map (member_text p n) ms) ++ newline_indent p lvl ++ 125 :: rest)
    (map (fun kv => (kv.1, canon kv.2)) ms) rest.
Proof.
  intros Hl. revert rest. induction Hl as [|[k v] l [Hk Hv] Hl IH]; intros rest Hne; [done|].
  destruct l as [|kv l].
  - cbn [map join_with]. rewrite member_text_app. eapply g_members_last.
    + rewrite scanstring_encode by exact Hk. reflexivity.
    + apply skip_ws_key_sep.
    + rewrite skip_ws_after_colon. apply Hv, ends_value_close; auto.
    + by rewrite skip_ws_newline_indent.
  - rewrite join_with_map2, <- !app_assoc, member_text_app.
    change (map ?g ((k, v) :: kv :: l)) with (g (k, v) :: map g (kv :: l)). eapply g_members_more.
    + rewrite scanstring_encode by exact Hk. reflexivity.
    + apply skip_ws_key_sep.
    + rewrite skip_ws_after_colon. apply Hv. reflexivity.
    + apply skip_ws_comma.
    + rewrite skip_ws_newline_indent, (proj1 (members_text_start p n _ (kv :: l) _ ltac:(done))). by apply IH.
Qed.

(** The text of a well-formed value, at any level and in either layout,
    decodes to its canonical form. *)
Lemma enc_grammar p v : wf_json v = true -> forall lvl, enc_parses p lvl v.
Proof.
  induction v as [| b | z | s | l IH | kvs IH] using json_ind; intros Hwf lvl rest Hr;
    try by apply dumps_grammar.
  - destruct l as [|x l]; [apply (g_arr_empty (93 :: rest)); reflexivity|].
    cbn [enc canon]. rewrite <- !app_assoc.
    destruct (items_text_start p (S lvl) ([44] ++ newline_indent p (S lvl)) (x :: l)
                (newline_indent p lvl ++ [93] ++ rest)) as [Hs Hh]; [done|].
    apply g_arr; rewrite skip_ws_newline_indent, Hs; [exact Hh|].
    apply items_grammar; [|done].
    eapply Forall_impl2; [exact IH | apply forallb_Forall, Hwf |]. intros y Hy Hwy. by apply Hy.
  - destruct kvs as [|kv kvs]; [apply (g_obj_empty (125 :: rest)); reflexivity|].
    cbn [wf_json] in Hwf. apply andb_true_iff in Hwf as [Hnd Hwf]. apply bool_decide_eq_true in Hnd.
    cbn [enc canon]. rewrite <- !app_assoc, sort_keys_map, map_snd_members, (sort_keys_map (fun kv => canon kv.2)).
    destruct (members_text_start p (S lvl) ([44] ++ newline_indent p (S lvl)) (sort_keys (kv :: kvs))
                (newline_indent p lvl ++ [125] ++ rest)) as [Hs Hh]; [by apply sort_keys_nil|].
    apply g_obj_nodup; [by rewrite skip_ws_newline_indent, Hs | | by apply sorted_members_nodup].
    rewrite skip_ws_newline_indent, Hs. apply members_grammar; [|by apply sort_keys_nil].
    rewrite sort_keys_perm. eapply Forall_impl2; [exact IH | apply forallb_Forall, Hwf |].
    intros [k v] Hv Hb. simpl in *. apply andb_true_iff in Hb as [Hk Hwv]. split; [done|]. by apply Hv.
Qed.

(** The body [jsonify] sends decodes to the canonical value. *)
Lemma loads_jsonify p v : wf_json v = true -> loads (jsonify_text p v) = Some (canon v).
Proof.
  intros Hwf. unfold loads, jsonify_text.
  rewrite head_is_enc, skip_ws_enc by lia.
  rewrite (proj1 grammar_parse _ _ _ (enc_grammar p v Hwf 0 [10] eq_refl)) by (rewrite length_app; simpl; lia).
  reflexivity.
Qed.

(** ** Lemmas: the notes listing on the wire *)

Lemma list_body_wire pretty s t src ttl :
  store_wf s -> pg_table s = Some t -> forallb scalar (lit src) = true ->
  loads (h_data (jsonify_response pretty (list_body (listing t) src ttl))) =
  Some (JObj [(lit "cache_ttl", JInt ttl);
              (lit "notes", JArr (map note_on_wire (sorted_rows t)));
              (lit "source", JStr (lit src))]).
Proof.
  intros Hwf Ht Hsrc. unfold jsonify_response, list_body, resp. cbn [h_data body].
  rewrite loads_jsonify.
  - unfold listing. cbn [map fst snd canon]. rewrite map_map. reflexivity.
  - pose proof (listing_wf s t Hwf Ht) as Hl. unfold listing. cbn [wf_json forallb fst snd] in *.
    rewrite Hl, Hsrc. reflexivity.
Qed.

(** ** Theorems *)


(** C10: what a client of [GET /notes] receives.  In a world satisfying
    the invariant, every successful [list_notes] goes on the wire with
    status 200 and mimetype [application/json], in a body that decodes to
    [{"cache_ttl": ttl, "notes": [...], "source": src}]: the notes are
    the current rows of the store, newest first, each
    [{"author", "content", "created_at", "id"}], and the source is the
    database with [ttl = CACHE_TTL] or the cache with [0 <= ttl <= CACHE_TTL]. *)
Theorem list_notes_wire pretty w r :
  world_inv w -> result (notes.list_notes w) = Done r ->
  h_status (jsonify_response pretty r) = 200%Z /\
  h_mimetype (jsonify_response pretty r) = lit "application/json" /\
  exists t, pg_table (w_pg w) = Some t /\
    exists src ttl, ((src = "database"%string /\ ttl = CACHE_TTL) \/
                     (src = "cache"%string /\ (0 <= ttl <= CACHE_TTL)%Z)) /\
    loads (h_data (jsonify_response pretty r)) =
      Some (JObj [(lit "cache_ttl", JInt ttl); (lit "notes", JArr (map note_on_wire (sorted_rows t)));
                  (lit "source", JStr (lit src))]).
Proof.
  intros Hinv Hr.
  destruct (list_notes_answers w r Hinv Hr) as (t & Ht & [-> | (ttl & Httl & ->)]);
    (split_and!; [reflexivity | reflexivity | exists t; split; [exact Ht|]]).
  - exists "database"%string, CACHE_TTL. split; [by left|].
    apply (list_body_wire pretty (w_pg w)); [apply Hinv | exact Ht | reflexivity].
  - exists "cache"%string, ttl. split; [by right|].
    apply (list_body_wire pretty (w_pg w)); [apply Hinv | exact Ht | reflexivity].
Qed.

(** ** Witnesses *)

(** The layouts of [jsonify({"b": 1, "a": [True]})]: indented in debug
    mode, compact otherwise, the keys sorted. *)
Example jsonify_text_layouts :
  let v := JObj [(lit "b", JInt 1%Z); (lit "a", JArr [JBool true])] in
  jsonify_text true v = lit "{" ++ [10] ++ lit "  " ++ [34] ++ lit "a" ++ [34] ++ lit ": [" ++ [10] ++
                        lit "    true" ++ [10] ++ lit "  ]," ++ [10] ++ lit "  " ++ [34] ++ lit "b" ++ [34] ++
                        lit ": 1" ++ [10] ++ lit "}" ++ [10] /\
  jsonify_text false v = lit "{" ++ [34] ++ lit "a" ++ [34] ++ lit ":[true]," ++ [34] ++ lit "b" ++ [34] ++
                         lit ":1}" ++ [10].
Proof. split; reflexivity. Qed.


Lemma list_notes_wire_witness :
  h_status (jsonify_response true (list_body (listing ex_table) "cache" 0)) = 200%Z /\
  h_mimetype (jsonify_response true (list_body (listing ex_table) "cache" 0)) = lit "application/json" /\
  exists t, pg_table (w_pg ex_cached_world) = Some t /\
    exists src ttl, ((src = "database"%string /\ ttl = CACHE_TTL) \/
                     (src = "cache"%string /\ (0 <= ttl <= CACHE_TTL)%Z)) /\
    loads (h_data (jsonify_response true (list_body (listing ex_table) "cache" 0))) =
      Some (JObj [(lit "cache_ttl", JInt ttl); (lit "notes", JArr (map note_on_wire (sorted_rows t)));
                  (lit "source", JStr (lit src))]).
Proof. apply list_notes_wire; [exact ex_cached_world_inv | vm_compute; reflexivity]. Defined.
